(** * Auckland_Cycling: the helper routines of [code/utils.py]

    The routines are thin layers over pandas.  This development embeds
    them over a small model of the pandas objects they touch:

    - a [frame] (DataFrame) has an index, an index name and an ordered
      association list of named columns; a [series] has a name, an
      index and one column of values;
    - a [cell] is a number, a timestamp or missing ([NA] stands for both
      NaN and NaT); index labels are cells too;
    - numbers are exact rationals: the four field operations are those
      of [Q], so rounding of the 64-bit floats is not represented.  The
      square root, which [Q] does not have, is a parameter [sqrt] of the
      functions that need it.  Where a record lies on or next to a bound
      the rounding decides: the two comparisons of [median_filter] are
      therefore taken on float64 numbers as well ([median_filter64]),
      with the rolling statistics of pandas as parameters;
    - frames and series are mutable Python objects: they live in a
      [heap] and are passed by reference, so that aliasing and in-place
      updates are visible.

    Column labels of a frame are taken to be pairwise distinct, as the
    records of the data model have named fields; a lookup returns the
    first column of that name. *)

From Stdlib Require Import ZArith QArith Qabs Lia Lqa.
From Stdlib Require Import PrimFloat.
From Stdlib Require FloatAxioms SpecFloat FloatOps.
From stdpp Require Import gmap strings list.

Local Open Scope Z_scope.

(** ** Values *)

Record timestamp := Timestamp { year : Z; month : Z; day : Z; hour : Z }.

Inductive cell :=
| Num (q : Q)
| Time (t : timestamp)
| NA.

Abbreviation column := (list cell).

Record frame := Frame {
  index_name : option string;
  index : column;
  columns : list (string * column)
}.

Record series := Series {
  name : option string;
  sindex_name : option string;
  sindex : column;
  values : column
}.

Inductive object :=
| DataFrame (f : frame)
| SeriesObj (s : series).

#[global] Instance timestamp_eq_dec : EqDecision timestamp.
Proof. solve_decision. Defined.

(** ** The interpreter state: a heap of objects, and exceptions *)

Abbreviation ref := positive.
Abbreviation heap := (gmap positive object).

Inductive exn := KeyError | ValueError | TypeError | AttributeError | DataError.

Inductive result (A : Type) :=
| Ok (a : A)
| Raise (e : exn).
Arguments Ok {A} a.
Arguments Raise {A} e.

#[global] Instance result_ret : MRet result := λ A a, Ok a.
#[global] Instance result_bind : MBind result := λ A B k m,
  match m with
  | Ok a => k a
  | Raise e => Raise e
  end.

Definition py (A : Type) : Type := heap → result A * heap.

#[global] Instance py_ret : MRet py := λ A a h, (Ok a, h).
#[global] Instance py_bind : MBind py := λ A B k m h,
  match m h with
  | (Ok a, h') => k a h'
  | (Raise e, h') => (Raise e, h')
  end.

Definition raise {A} (e : exn) : py A := λ h, (Raise e, h).

Definition lift {A} (r : result A) : py A := λ h, (r, h).

(** Allocation of a new object at an unused reference. *)
Definition new (o : object) : py ref :=
  λ h, let l := fresh (dom h) in (Ok l, <[l := o]> h).

Definition get_frame (l : ref) : py frame :=
  λ h, match h !! l with
       | Some (DataFrame f) => (Ok f, h)
       | _ => (Raise TypeError, h)
       end.

Definition put_frame (l : ref) (f : frame) : py unit :=
  λ h, (Ok tt, <[l := DataFrame f]> h).

(** ** pandas: columns of a frame *)

Fixpoint lookup_col (v : string) (cols : list (string * column)) : option column :=
  match cols with
  | [] => None
  | (k, c) :: cols' => if decide (k = v) then Some c else lookup_col v cols'
  end.

(** [df[v] = c]: replaces the column named [v], or appends a new one. *)
Fixpoint set_col (v : string) (c : column) (cols : list (string * column))
  : list (string * column) :=
  match cols with
  | [] => [(v, c)]
  | (k, c') :: cols' =>
      if decide (k = v) then (k, c) :: cols' else (k, c') :: set_col v c cols'
  end.

(** [df.loc[:, [v]]]: a new frame holding a copy of the one column; a
    label that is not a column is a [KeyError]. *)
Definition loc_columns (df : ref) (v : string) : py ref :=
  f ← get_frame df;
  match lookup_col v (columns f) with
  | Some c => new (DataFrame (Frame (index_name f) (index f) [(v, c)]))
  | None => raise KeyError
  end.

(** [df[v]] and [df.loc[:, v]] read as a value. *)
Definition getitem (df : ref) (v : string) : py column :=
  f ← get_frame df;
  match lookup_col v (columns f) with
  | Some c => mret c
  | None => raise KeyError
  end.

(** [df[v] = c] for a series [c] carrying the frame's own index. *)
Definition setitem (df : ref) (v : string) (c : column) : py unit :=
  f ← get_frame df;
  put_frame df (Frame (index_name f) (index f) (set_col v c (columns f))).

(** ** Numeric columns *)

Definition of_float (x : option Q) : cell :=
  match x with Some q => Num q | None => NA end.

Definition floats (xs : list (option Q)) : column := map of_float xs.

(** The numeric view of a column; a timestamp in it raises [e]. *)
Fixpoint to_floats (e : exn) (c : column) : result (list (option Q)) :=
  match c with
  | [] => Ok []
  | Num q :: c' => xs ← to_floats e c'; Ok (Some q :: xs)
  | NA :: c' => xs ← to_floats e c'; Ok (None :: xs)
  | Time _ :: _ => Raise e
  end.

(** ** pandas: rolling statistics *)

(** Bounds of the window of size [window] centred on position [i] of
    [n] values: [offset = (window - 1) // 2], the window ends (excluded)
    at [i + 1 + offset] and starts [window] positions before; both ends
    are clipped to [0, n]. *)
Definition window_bounds (n window i : nat) : nat * nat :=
  let offset := (Z.of_nat window - 1) / 2 in
  let stop := Z.of_nat i + 1 + offset in
  let start := stop - Z.of_nat window in
  (Z.to_nat (Z.max 0 (Z.min start (Z.of_nat n))),
   Z.to_nat (Z.max 0 (Z.min stop (Z.of_nat n)))).

Definition window_at (window : nat) (xs : list (option Q)) (i : nat)
  : list (option Q) :=
  let '(start, stop) := window_bounds (length xs) window i in
  take (stop - start) (drop start xs).

(** The observations of a window: its cells that are not missing. *)
Definition observations (w : list (option Q)) : list Q := omap id w.

(** A rolling statistic.  [min_periods] is left to its default, which for
    a fixed-size window is the window size: with fewer observations the
    result is missing. *)
Definition rolling_at (window : nat) (stat : list Q → option Q)
    (xs : list (option Q)) (i : nat) : option Q :=
  let obs := observations (window_at window xs i) in
  if (window <=? length obs)%nat then stat obs else None.

Definition rolling (window : nat) (stat : list Q → option Q)
    (xs : list (option Q)) : list (option Q) :=
  map (rolling_at window stat xs) (seq 0 (length xs)).

Fixpoint insert_sorted (x : Q) (l : list Q) : list Q :=
  match l with
  | [] => [x]
  | y :: l' => if Qle_bool x y then x :: l else y :: insert_sorted x l'
  end.

Definition sort_values (l : list Q) : list Q := foldr insert_sorted [] l.

Definition median (obs : list Q) : option Q :=
  let s := sort_values obs in
  let n := length s in
  if (n =? 0)%nat then None
  else if Nat.odd n then Some (nth (n / 2) s 0%Q)
  else Some ((nth (n / 2 - 1) s 0%Q + nth (n / 2) s 0%Q) / 2)%Q.

Definition Qsum (l : list Q) : Q := foldr Qplus 0%Q l.

Definition Qnat (n : nat) : Q := inject_Z (Z.of_nat n).

Definition mean (obs : list Q) : Q := (Qsum obs / Qnat (length obs))%Q.

(** Sample variance, [ddof = 1]: missing unless there are more
    observations than [ddof].  This is the exact value; pandas keeps a
    running float64 variance, which can differ from it in the last
    digits and overflows on very large values. *)
Definition var (obs : list Q) : option Q :=
  if (length obs <=? 1)%nat then None
  else Some (Qsum (map (λ x, (x - mean obs) * (x - mean obs)) obs)
             / Qnat (length obs - 1))%Q.

(** [s.rolling(window, center=True).<stat>()]; pandas refuses a column
    that is not numeric. *)
Definition rolling_col (window : nat) (stat : list Q → option Q) (c : column)
  : result column :=
  xs ← to_floats DataError c;
  Ok (floats (rolling window stat xs)).

(** ** pandas: element-wise operations on series sharing one index *)

Definition cell_scale (k : Q) (x : option Q) : option Q :=
  match x with Some a => Some (k * a)%Q | None => None end.

Definition cell_add (x y : option Q) : option Q :=
  match x, y with Some a, Some b => Some (a + b)%Q | _, _ => None end.

Definition cell_sub (x y : option Q) : option Q :=
  match x, y with Some a, Some b => Some (a - b)%Q | _, _ => None end.

(** Comparisons with a missing operand are false. *)
Definition cell_ge (x y : option Q) : bool :=
  match x, y with Some a, Some b => Qle_bool b a | _, _ => false end.

Definition cell_le (x y : option Q) : bool :=
  match x, y with Some a, Some b => Qle_bool a b | _, _ => false end.

(** [k * s] *)
Definition col_scale (k : Q) (c : column) : result column :=
  xs ← to_floats TypeError c;
  Ok (floats (map (cell_scale k) xs)).

Definition col_zip {A} (op : option Q → option Q → A) (a b : column)
  : result (list A) :=
  xs ← to_floats TypeError a;
  ys ← to_floats TypeError b;
  Ok (zip_with op xs ys).

(** [a + b], [a - b], [a >= b], [a <= b] on numeric series *)
Definition col_add (a b : column) : result column :=
  l ← col_zip cell_add a b; Ok (floats l).

Definition col_sub (a b : column) : result column :=
  l ← col_zip cell_sub a b; Ok (floats l).

Definition col_ge : column → column → result (list bool) := col_zip cell_ge.
Definition col_le : column → column → result (list bool) := col_zip cell_le.

(** The cells selected by a boolean mask become missing. *)
Fixpoint mask_nan (mask : list bool) (c : column) : column :=
  match c, mask with
  | x :: c', b :: mask' => (if b then NA else x) :: mask_nan mask' c'
  | _, _ => c
  end.

(** [df.loc[mask, v] = np.nan]; on a label that is not a column yet, a
    column of missing values is added. *)
Definition loc_assign_nan (df : ref) (mask : list bool) (v : string) : py unit :=
  f ← get_frame df;
  let c := match lookup_col v (columns f) with
           | Some c => mask_nan mask c
           | None => replicate (length (index f)) NA
           end in
  put_frame df (Frame (index_name f) (index f) (set_col v c (columns f))).

(** [df.loc[:, v]] as a new series object. *)
Definition loc_series (df : ref) (v : string) : py ref :=
  f ← get_frame df;
  match lookup_col v (columns f) with
  | Some c => new (SeriesObj (Series (Some v) (index_name f) (index f) c))
  | None => raise KeyError
  end.

(** ** [median_filter] *)

Section MedianFilter.

(** The square root of the floating-point library. *)
Variable sqrt : Q → Q.

Definition stdev (obs : list Q) : option Q :=
  match var obs with Some v => Some (sqrt v) | None => None end.

Definition rolling_median (window : nat) (c : column) : py column :=
  lift (rolling_col window median c).

Definition rolling_std (window : nat) (c : column) : py column :=
  lift (rolling_col window stdev c).

Definition median_filter (df : ref) (varname : string) (window : nat) (std : Q)
  : py ref :=
  (* dfc = df.loc[:,[varname]] *)
  dfc ← loc_columns df varname;
  (* dfc['median']= dfc[varname].rolling(window, center=True).median() *)
  c ← getitem dfc varname;
  med ← rolling_median window c;
  setitem dfc "median" med;;
  (* dfc['std'] = dfc[varname].rolling(window, center=True).std() *)
  c ← getitem dfc varname;
  sd ← rolling_std window c;
  setitem dfc "std" sd;;
  (* dfc.loc[dfc.loc[:,varname] >= dfc['median']+std*dfc['std'], varname] = np.nan *)
  v ← getitem dfc varname;
  m ← getitem dfc "median";
  s ← getitem dfc "std";
  ks ← lift (col_scale std s);
  upper ← lift (col_add m ks);
  mask ← lift (col_ge v upper);
  loc_assign_nan dfc mask varname;;
  (* dfc.loc[dfc.loc[:,varname] <= dfc['median']-std*dfc['std'], varname] = np.nan *)
  v ← getitem dfc varname;
  m ← getitem dfc "median";
  s ← getitem dfc "std";
  ks ← lift (col_scale std s);
  lower ← lift (col_sub m ks);
  mask ← lift (col_le v lower);
  loc_assign_nan dfc mask varname;;
  (* return dfc.loc[:, varname] *)
  loc_series dfc varname.

End MedianFilter.

(** ** [prepare_data] *)

(** Row slices of a frame by position. *)
Definition take_rows (n : nat) (f : frame) : frame :=
  Frame (index_name f) (take n (index f))
        (map (λ kc, (kc.1, take n kc.2)) (columns f)).

Definition drop_rows (n : nat) (f : frame) : frame :=
  Frame (index_name f) (drop n (index f))
        (map (λ kc, (kc.1, drop n kc.2)) (columns f)).

(** The order of timestamps, and an index in chronological order. *)
Definition ts_leb (t u : timestamp) : bool :=
  match year t ?= year u with
  | Lt => true
  | Gt => false
  | Eq => match month t ?= month u with
          | Lt => true
          | Gt => false
          | Eq => match day t ?= day u with
                  | Lt => true
                  | Gt => false
                  | Eq => hour t <=? hour u
                  end
          end
  end.

Fixpoint chronological (ts : list timestamp) : bool :=
  match ts with
  | t :: ts' => match ts' with
                | u :: _ => ts_leb t u && chronological ts'
                | [] => true
                end
  | [] => true
  end.

(** The dates of an index, when every label of the index is a date. *)
Fixpoint dates_of (idx : column) : option (list timestamp) :=
  match idx with
  | [] => Some []
  | Time t :: idx' => cons t <$> dates_of idx'
  | _ => None
  end.

(** The string that [str] makes of a year from 1678 to 2261 has four
    digits; pandas reads it as that calendar year, which lies within the
    range of its timestamps (1677-09-21 to 2262-04-11). *)
Definition calendar_year (y : Z) : bool := (1678 <=? y) && (y <=? 2261).

(** The slices by a year that are described here: on an index of dates
    in chronological order, by a year that pandas reads as a calendar
    year. *)
Definition sliced_by_year (idx : column) (y : Z) : bool :=
  match dates_of idx with
  | Some ts => chronological ts && calendar_year y
  | None => false
  end.

Definition year_le (y : Z) (c : cell) : bool :=
  match c with Time t => bool_decide (year t ≤ y) | _ => false end.

Definition year_lt (y : Z) (c : cell) : bool :=
  match c with Time t => bool_decide (year t < y) | _ => false end.

Fixpoint count (p : cell → bool) (idx : column) : nat :=
  match idx with
  | [] => 0
  | c :: idx' => (if p c then 1 else 0) + count p idx'
  end.

(** Positions of the slice bounds, where pandas finds them by bisection
    on an index in chronological order.  The string of a year [y] used
    as the end of a slice stands for the last instant of [y], and as the
    start of a slice for its first instant: the end position is the
    number of labels up to the end of year [y], the start position the
    number of labels before year [y].  There is no position in the
    other cases. *)
Definition slice_end (idx : column) (y : Z) : option nat :=
  if sliced_by_year idx y then Some (count (year_le y) idx) else None.

Definition slice_start (idx : column) (y : Z) : option nat :=
  if sliced_by_year idx y then Some (count (year_lt y) idx) else None.

Section PrepareData.

(** In the other cases (an index that does not hold dates only, or not
    in chronological order, or a year whose string pandas does not read
    as a calendar year in range) what [data.loc[:str(y), :]] and
    [data.loc[str(y):, :]] do is left to pandas and differs with its
    version: an exception of one kind or another, or some of the rows.
    It is a parameter of the model. *)
Variable loc_until_other : frame → Z → result frame.
Variable loc_from_other : frame → Z → result frame.

(** [data.loc[:str(y), :]] *)
Definition loc_until (data : ref) (y : Z) : py ref :=
  f ← get_frame data;
  rows ← lift (match slice_end (index f) y with
               | Some n => Ok (take_rows n f)
               | None => loc_until_other f y
               end);
  new (DataFrame rows).

(** [data.loc[str(y):, :]] *)
Definition loc_from (data : ref) (y : Z) : py ref :=
  f ← get_frame data;
  rows ← lift (match slice_start (index f) y with
               | Some n => Ok (drop_rows n f)
               | None => loc_from_other f y
               end);
  new (DataFrame rows).

Definition is_column (v : string) (f : frame) : bool :=
  bool_decide (is_Some (lookup_col v (columns f))).

Definition RangeIndex (n : nat) : column :=
  map (λ i, Num (inject_Z (Z.of_nat i))) (seq 0 n).

(** [df.reset_index(inplace=True)]: the index becomes the first column,
    under the name of the index (["index"], or ["level_0"] when that is
    taken, for an index without a name); a column of that name already
    in the frame is a [ValueError]. *)
Definition reset_index (df : ref) : py unit :=
  f ← get_frame df;
  let v := match index_name f with
           | Some v => v
           | None => if is_column "index" f then "level_0" else "index"
           end%string in
  if is_column v f then raise ValueError
  else put_frame df (Frame None (RangeIndex (length (index f)))
                           ((v, index f) :: columns f)).

(** [df.rename({old: new}, axis=1)]: a new frame. *)
Definition rename (df : ref) (old new_ : string) : py ref :=
  f ← get_frame df;
  new (DataFrame (Frame (index_name f) (index f)
         (map (λ kc, (if decide (kc.1 = old) then new_ else kc.1, kc.2))
              (columns f)))).

Definition prepare_data (data : ref) (year : Z) : py (ref * ref) :=
  (* data_train = data.loc[:str(year - 1),:] *)
  data_train ← loc_until data (year - 1);
  (* data_test = data.loc[str(year):,:] *)
  data_test ← loc_from data year;
  (* data_train.reset_index(inplace=True) *)
  reset_index data_train;;
  (* data_test.reset_index(inplace=True) *)
  reset_index data_test;;
  (* data_train = data_train.rename({'datetime':'ds'}, axis=1) *)
  data_train ← rename data_train "datetime" "ds";
  (* data_test = data_test.rename({'datetime':'ds'}, axis=1) *)
  data_test ← rename data_test "datetime" "ds";
  mret (data_train, data_test).

End PrepareData.

(** ** Assignment of a series to a column, aligned on the index *)

Definition label_eqb (a b : cell) : bool :=
  match a, b with
  | Num p, Num q => Qeq_bool p q
  | Time t, Time u => bool_decide (t = u)
  | NA, NA => true
  | _, _ => false
  end.

Fixpoint index_equals (a b : column) : bool :=
  match a, b with
  | [], [] => true
  | x :: a', y :: b' => label_eqb x y && index_equals a' b'
  | _, _ => false
  end.

Fixpoint is_unique (idx : column) : bool :=
  match idx with
  | [] => true
  | k :: idx' => negb (existsb (label_eqb k) idx') && is_unique idx'
  end.

(** The value of a series at a label, [NA] where the label is absent. *)
Fixpoint at_label (k : cell) (idx vals : column) : cell :=
  match idx, vals with
  | k' :: idx', x :: vals' => if label_eqb k k' then x else at_label k idx' vals'
  | _, _ => NA
  end.

(** [s.reindex(target)], as an assignment into a frame does it: a series
    on the frame's own index is taken as it is; otherwise its values are
    looked up label by label, which a duplicated label in the series
    refuses. *)
Definition reindex (target : column) (s : series) : result column :=
  if index_equals (sindex s) target then Ok (values s)
  else if is_unique (sindex s) then
    Ok (map (λ k, at_label k (sindex s) (values s)) target)
  else Raise ValueError.

(** [df.loc[:, v]] read as a series value *)
Definition loc_column (df : ref) (v : string) : py series :=
  f ← get_frame df;
  match lookup_col v (columns f) with
  | Some c => mret (Series (Some v) (index_name f) (index f) c)
  | None => raise KeyError
  end.

(** [df.loc[:, v] = s] *)
Definition loc_assign (df : ref) (v : string) (s : series) : py unit :=
  f ← get_frame df;
  c ← lift (reindex (index f) s);
  put_frame df (Frame (index_name f) (index f) (set_col v c (columns f))).

(** [df.copy()] *)
Definition copy (df : ref) : py ref :=
  f ← get_frame df;
  new (DataFrame f).

(** ** [add_regressor] *)

Definition add_regressor (data regressor : ref) (varname : string) : py ref :=
  (* data_with_regressors = data.copy() *)
  data_with_regressors ← copy data;
  (* data_with_regressors.loc[:,varname] = regressor.loc[:,varname] *)
  s ← loc_column regressor varname;
  loc_assign data_with_regressors varname s;;
  mret data_with_regressors.

(** ** [make_verif] *)

Section MakeVerif.

(** [pd.to_datetime] on the values of a column. *)
Variable to_datetime : column → result column.

(** [df.ds]: attribute access to the column. *)
Definition get_ds (df : ref) : py column :=
  f ← get_frame df;
  match lookup_col "ds" (columns f) with
  | Some c => mret c
  | None => raise AttributeError
  end.

(** [df.index = idx] for a series [idx] named [v]: the number of labels
    must be the number of rows. *)
Definition set_index (df : ref) (v : option string) (idx : column) : py unit :=
  f ← get_frame df;
  if decide (length idx = length (index f))
  then put_frame df (Frame v idx (columns f))
  else raise ValueError.

Definition column_or_na (v : string) (f : frame) : column :=
  match lookup_col v (columns f) with
  | Some c => c
  | None => replicate (length (index f)) NA
  end.

Definition merge_names (a b : list string) : list string :=
  a ++ filter (λ v, v ∉ a) b.

(** [pd.concat([a, b], axis=0)]: the rows of [a] then those of [b],
    over the union of their columns. *)
Definition concat_frames (fa fb : frame) : frame :=
  Frame
    (if decide (index_name fa = index_name fb) then index_name fa else None)
    (index fa ++ index fb)
    (map (λ v, (v, column_or_na v fa ++ column_or_na v fb))
         (merge_names (columns fa).*1 (columns fb).*1)).

Definition concat (a b : ref) : py ref :=
  fa ← get_frame a;
  fb ← get_frame b;
  new (DataFrame (concat_frames fa fb)).

Definition make_verif (forecast data_train data_test : ref) : py ref :=
  (* forecast.index = pd.to_datetime(forecast.ds) *)
  ds ← get_ds forecast;
  idx ← lift (to_datetime ds);
  set_index forecast (Some "ds"%string) idx;;
  (* data_train.index = pd.to_datetime(data_train.ds) *)
  ds ← get_ds data_train;
  idx ← lift (to_datetime ds);
  set_index data_train (Some "ds"%string) idx;;
  (* data_test.index = pd.to_datetime(data_test.ds) *)
  ds ← get_ds data_test;
  idx ← lift (to_datetime ds);
  set_index data_test (Some "ds"%string) idx;;
  (* data = pd.concat([data_train, data_test], axis=0) *)
  data ← concat data_train data_test;
  (* forecast.loc[:,'y'] = data.loc[:,'y'] *)
  y ← loc_column data "y";
  loc_assign forecast "y" y;;
  (* return forecast *)
  mret forecast.

End MakeVerif.

(** ** [add_regressor_to_future] *)

Section AddRegressorToFuture.

(** [pd.to_datetime] on the values of a column, [pd.concat(objs,
    axis=1)] on a list of pandas objects and [left.merge(right,
    left_index=True, right_index=True)] on two tables: each builds a new
    value from the values it is given. *)
Variable to_datetime : column → result column.
Variable concat_columns : list object → result frame.
Variable merge_on_index : frame → frame → result frame.

Definition get_object (l : ref) : py object :=
  λ h, match h !! l with
       | Some o => (Ok o, h)
       | None => (Raise TypeError, h)
       end.

Fixpoint get_objects (ls : list ref) : py (list object) :=
  match ls with
  | [] => mret []
  | l :: ls' => o ← get_object l; os ← get_objects ls'; mret (o :: os)
  end.

(** [pd.concat(objs, axis=1)] *)
Definition concat_axis1 (objs : list ref) : py ref :=
  os ← get_objects objs;
  f ← lift (concat_columns os);
  new (DataFrame f).

(** [left.merge(right, left_index=True, right_index=True)] *)
Definition merge (left right : ref) : py ref :=
  fl ← get_frame left;
  fr ← get_frame right;
  f ← lift (merge_on_index fl fr);
  new (DataFrame f).

(** [df.reset_index(drop = True)]: a new table on the default index,
    the old index being dropped. *)
Definition reset_index_drop (df : ref) : py ref :=
  f ← get_frame df;
  new (DataFrame (Frame None (RangeIndex (length (index f))) (columns f))).

Definition add_regressor_to_future (future : ref) (regressors_df : list ref)
  : py ref :=
  (* futures = future.copy() *)
  futures ← copy future;
  (* futures.index = pd.to_datetime(futures.ds) *)
  ds ← get_ds futures;
  idx ← lift (to_datetime ds);
  set_index futures (Some "ds"%string) idx;;
  (* regressors = pd.concat(regressors_df, axis=1) *)
  regressors ← concat_axis1 regressors_df;
  (* futures = futures.merge(regressors, left_index=True, right_index=True) *)
  futures ← merge futures regressors;
  (* futures = futures.reset_index(drop = True) *)
  futures ← reset_index_drop futures;
  (* return futures *)
  mret futures.

End AddRegressorToFuture.

(** ** Running the model *)

(** A computable square root: the largest multiple of [2^-32 / den]
    whose square does not exceed the argument. *)
Definition Qsqrt (v : Q) : Q :=
  Z.sqrt (Qnum v * Z.pos (Qden v) * 4 ^ 32) # (Qden v * 2 ^ 32).

(** A table with a default index and one column, alone in the heap at
    reference 1. *)
Definition table (v : string) (c : column) : frame :=
  Frame None (RangeIndex (length c)) [(v, c)].

Definition heap_of (f : frame) : heap := {[ 1%positive := DataFrame f ]}.

(** The values of the series that a call returns. *)
Definition result_values (r : result ref * heap) : option column :=
  match r with
  | (Ok l, h) => match h !! l with
                 | Some (SeriesObj s) => Some (values s)
                 | _ => None
                 end
  | _ => None
  end.

Definition run_filter (v : string) (window : nat) (std : Q) (c : column)
  : option column :=
  result_values (median_filter Qsqrt 1%positive v window std (heap_of (table v c))).

(** The scenario of the specification: 48 hourly values, all 10 but
    the one at index 24. *)
Definition scenario : list (option Q) :=
  map (λ i, if (i =? 24)%nat then Some 1000%Q else Some 10%Q) (seq 0 48).

Definition scenario_filtered : list (option Q) :=
  map (λ i, if (i =? 12)%nat || (i =? 24)%nat then None else Some 10%Q) (seq 0 48).

(** A table with a missing value. *)
Definition gappy : list (option Q) := [Some 1; None; Some 3; Some 4; Some 5]%Q.

(** A table shorter than the default window, with one large value. *)
Definition short_table : list (option Q) :=
  map Some [1; 1; 1; 1; 1000; 1; 1; 1; 1; 1; 1; 1]%Q.

(** Tables for a column that bears the name of a working column. *)
Definition sevens : list (option Q) := map Some [7; 7; 7]%Q.

Definition zigzag : list (option Q) := map Some [1; 5; 2; 8; 3; 9; 4]%Q.

(** ** The filter on the values of a numeric column

    What the statements of [median_filter] compute on the values of the
    column, when the column is numeric and its name is neither
    ["median"] nor ["std"] (see [median_filter_numeric] below). *)

Fixpoint mask_na (mask : list bool) (xs : list (option Q)) : list (option Q) :=
  match xs, mask with
  | x :: xs', b :: mask' => (if b then None else x) :: mask_na mask' xs'
  | _, _ => xs
  end.

Section FilterValues.

Variable sqrt : Q → Q.

Definition filter_with
    (roll : (list Q → option Q) → list (option Q) → list (option Q))
    (std : Q) (xs : list (option Q)) : list (option Q) :=
  let med := roll median xs in
  let ks := map (cell_scale std) (roll (stdev sqrt) xs) in
  let xs1 := mask_na (zip_with cell_ge xs (zip_with cell_add med ks)) xs in
  mask_na (zip_with cell_le xs1 (zip_with cell_sub med ks)) xs1.

Definition filter_values (window : nat) : Q → list (option Q) → list (option Q) :=
  filter_with (rolling window).

(** As the specification words it: the statistic of however many
    valid records the window holds, with no minimum count. *)
Definition rolling_available (window : nat) (stat : list Q → option Q)
    (xs : list (option Q)) : list (option Q) :=
  map (λ i, stat (observations (window_at window xs i))) (seq 0 (length xs)).

Definition filter_values_available (window : nat)
  : Q → list (option Q) → list (option Q) :=
  filter_with (rolling_available window).

(** The same, cell by cell: the cell [x] with rolling median [m] and
    rolling standard deviation [s]. *)
Definition filter_cell (std : Q) (x m s : option Q) : option Q :=
  let ks := cell_scale std s in
  let x1 := if cell_ge x (cell_add m ks) then None else x in
  if cell_le x1 (cell_sub m ks) then None else x1.

(** Record [i] has a full window of valid values: the window centred
    on it holds [window] observations. *)
Definition full_window (window : nat) (xs : list (option Q)) (i : nat) : Prop :=
  length (observations (window_at window xs i)) = window.

(** What the proofs use of the square root: it is zero at zero,
    positive on positive numbers, and does not exceed a number whose
    square is at least the argument. *)
Record sqrt_spec : Prop := {
  sqrt_zero : ∀ v, (v == 0)%Q → (sqrt v == 0)%Q;
  sqrt_pos : ∀ v, (0 < v)%Q → (0 < sqrt v)%Q;
  sqrt_upper : ∀ v u, (0 <= u)%Q → (v <= u * u)%Q → (sqrt v <= u)%Q
}.

(** The call returns a series named [varname], on the index of the
    table, with values [out]. *)
Definition filters_to (h : heap) (df : ref) (varname : string) (window : nat)
    (std : Q) (out : list (option Q)) : Prop :=
  ∃ r h' s f,
    median_filter sqrt df varname window std h = (Ok r, h') ∧
    h !! df = Some (DataFrame f) ∧
    h' !! r = Some (SeriesObj s) ∧
    name s = Some varname ∧ sindex s = index f ∧ values s = floats out.

End FilterValues.

(** ** The two comparisons in the arithmetic of the code

    The columns of the code hold float64 numbers, and the bounds of
    the two comparisons are float64 sums and products.  The statements
    of [median_filter] are taken here on the values of the column (not
    named ["median"] or ["std"]) as float64 numbers, a missing value
    being NaN.  The rolling median and the rolling standard deviation
    are what pandas computes for the column: they are parameters. *)

(** [x >= y] and [x <= y] on float64: false when either is NaN. *)
Definition ge64 (x y : float) : bool := PrimFloat.leb y x.

Definition le64 (x y : float) : bool := PrimFloat.leb x y.

(** [s.loc[mask] = np.nan] on float64 values *)
Fixpoint mask_nan64 (mask : list bool) (xs : list float) : list float :=
  match xs, mask with
  | x :: xs', b :: mask' => (if b then PrimFloat.nan else x) :: mask_nan64 mask' xs'
  | _, _ => xs
  end.

Section MedianFilter64.

(** [s.rolling(window, center=True).median()] and
    [s.rolling(window, center=True).std()] of pandas *)
Variable rolling_median64 : nat → list float → list float.
Variable rolling_std64 : nat → list float → list float.

(** The values of the column that [median_filter] returns, for the
    threshold [std] as a float64 number. *)
Definition median_filter64 (window : nat) (std : float) (xs : list float)
  : list float :=
  (* dfc['median']= dfc[varname].rolling(window, center=True).median() *)
  let med := rolling_median64 window xs in
  (* dfc['std'] = dfc[varname].rolling(window, center=True).std() *)
  let sd := rolling_std64 window xs in
  (* dfc.loc[dfc.loc[:,varname] >= dfc['median']+std*dfc['std'], varname] = np.nan *)
  let upper := zip_with PrimFloat.add med (map (PrimFloat.mul std) sd) in
  let xs1 := mask_nan64 (zip_with ge64 xs upper) xs in
  (* dfc.loc[dfc.loc[:,varname] <= dfc['median']-std*dfc['std'], varname] = np.nan *)
  let lower := zip_with PrimFloat.sub med (map (PrimFloat.mul std) sd) in
  let xs2 := mask_nan64 (zip_with le64 xs1 lower) xs1 in
  (* return dfc.loc[:, varname] *)
  xs2.

End MedianFilter64.

(** The test that removes a record, on its value [x], its rolling
    median [m] and its rolling standard deviation [s]. *)
Definition removed64 (std x m s : float) : bool :=
  ge64 x (PrimFloat.add m (PrimFloat.mul std s))
  || le64 x (PrimFloat.sub m (PrimFloat.mul std s)).

(** With a window of one record the rolling median of a record is its
    value, and its rolling standard deviation, that of one value, is
    missing. *)
Definition rolling_median_one (window : nat) (xs : list float) : list float := xs.

Definition rolling_std_one (window : nat) (xs : list float) : list float :=
  map (λ _, PrimFloat.nan) xs.

(** The two tables that [prepare_data] builds from a table [f] whose
    index holds the timestamps [ts], with [n] of them before the cutoff
    year. *)
Definition train_of (f : frame) (ts : list timestamp) (n : nat) : frame :=
  Frame None (RangeIndex n)
        (("ds"%string, Time <$> take n ts)
           :: map (λ kc, (kc.1, take n kc.2)) (columns f)).

Definition test_of (f : frame) (ts : list timestamp) (n : nat) : frame :=
  Frame None (RangeIndex (length ts - n))
        (("ds"%string, Time <$> drop n ts)
           :: map (λ kc, (kc.1, drop n kc.2)) (columns f)).

(** ** Tables of the scenarios *)

Definition is_leap (y : Z) : bool :=
  ((y mod 4 =? 0) && negb (y mod 100 =? 0)) || (y mod 400 =? 0).

Definition days_in_month (y : Z) (m : nat) : nat :=
  match m with
  | 2 => if is_leap y then 29 else 28
  | 4 | 6 | 9 | 11 => 30
  | _ => 31
  end%nat.

Definition days_of_year (y : Z) : list timestamp :=
  flat_map (λ m, map (λ d, Timestamp y (Z.of_nat m) (Z.of_nat d) 0)
                     (seq 1 (days_in_month y m)))
           (seq 1 12).

(** Every day from 2015-01-01 through 2018-12-31. *)
Definition calendar : list timestamp :=
  flat_map days_of_year [2015; 2016; 2017; 2018].

Definition daily_table : frame :=
  Frame (Some "datetime"%string) (Time <$> calendar)
        [("y"%string, RangeIndex (length calendar))].

(** In the scenarios the slices are by a year from 1678 to 2261 on dates
    in chronological order, where the parameter for the other cases is
    not consulted. *)
Definition loc_other (f : frame) (y : Z) : result frame := Raise KeyError.

(** A table whose index of dates bears another name. *)
Definition dated_table : frame :=
  Frame (Some "date"%string)
        [Time (Timestamp 2016 6 1 0); Time (Timestamp 2017 6 1 0)]
        [("y"%string, [Num 1; Num 2])].

Definition result_tables (r : result (ref * ref) * heap) : option (frame * frame) :=
  match r with
  | (Ok (a, b), h) =>
      match h !! a, h !! b with
      | Some (DataFrame fa), Some (DataFrame fb) => Some (fa, fb)
      | _, _ => None
      end
  | _ => None
  end.

Definition result_table (r : result ref * heap) : option frame :=
  match r with
  | (Ok a, h) => match h !! a with
                 | Some (DataFrame f) => Some f
                 | _ => None
                 end
  | _ => None
  end.

(** The join scenario: a forecast for three days, and the observations
    of these days in the training and test tables. *)
Definition jan (d : Z) : cell := Time (Timestamp 2017 1 d 0).

Definition forecast_table : frame :=
  Frame None (RangeIndex 3)
        [("ds"%string, [jan 1; jan 2; jan 3]);
         ("yhat"%string, [Num 11; Num 12; Num 13]);
         ("yhat_lower"%string, [Num 9; Num 10; Num 11]);
         ("yhat_upper"%string, [Num 13; Num 14; Num 15])].

Definition train_table : frame :=
  Frame None (RangeIndex 2)
        [("ds"%string, [jan 1; jan 2]); ("y"%string, [Num 10; Num 14])].

Definition test_table : frame :=
  Frame None (RangeIndex 1)
        [("ds"%string, [jan 3]); ("y"%string, [Num 12])].

Definition join_heap : heap :=
  <[1%positive := DataFrame forecast_table]>
    (<[2%positive := DataFrame train_table]>
       {[ 3%positive := DataFrame test_table ]}).

(** On columns that hold timestamps already, [pd.to_datetime] returns
    them as they are. *)
Definition keep_datetime (c : column) : result column := Ok c.

(** A target table that already has the column of the regressor. *)
Definition rain_target : frame :=
  Frame None (RangeIndex 2)
        [("y"%string, [Num 100; Num 200]); ("rain"%string, [Num 1; Num 2])].

Definition rain_regressor : frame :=
  Frame None (RangeIndex 2) [("rain"%string, [Num 30; Num 40])].

Definition rain_heap : heap :=
  <[1%positive := DataFrame rain_target]> {[ 2%positive := DataFrame rain_regressor ]}.

(** Tables for the further scenarios: rain by date, rain on dates that
    repeat, a table that keeps its dates as a column beside its index,
    and a table of future dates. *)
Definition rain_by_date : frame :=
  Frame (Some "datetime"%string) [jan 1; jan 2; jan 3]
        [("rain"%string, [Num 0; Num 5; Num 2])].

Definition rain_repeated : frame :=
  Frame (Some "datetime"%string) [jan 1; jan 1]
        [("rain"%string, [Num 0; Num 5])].

Definition kept_dates_table : frame :=
  Frame (Some "datetime"%string)
        [Time (Timestamp 2016 6 1 0); Time (Timestamp 2017 6 1 0)]
        [("datetime"%string,
          [Time (Timestamp 2016 6 1 0); Time (Timestamp 2017 6 1 0)]);
         ("y"%string, [Num 1; Num 2])].

Definition future_table : frame :=
  Frame None (RangeIndex 3) [("ds"%string, [jan 1; jan 2; jan 3])].

Definition heap_of_two (a b : frame) : heap :=
  <[1%positive := DataFrame a]> {[ 2%positive := DataFrame b ]}.

Definition heap_of_three (a b c : frame) : heap :=
  <[1%positive := DataFrame a]>
    (<[2%positive := DataFrame b]> {[ 3%positive := DataFrame c ]}).

(** [pd.concat] along the columns where the list holds one table: the
    table.  Other lists are outside the scenario. *)
Definition concat_one_table (os : list object) : result frame :=
  match os with
  | [DataFrame f] => Ok f
  | _ => Raise TypeError
  end.

(** The merge on the index of two tables that have the same index of
    distinct labels and no column name in common: the columns of the
    left table followed by those of the right one.  Other pairs of
    tables are outside the scenario. *)
Definition merge_same_index (fl fr : frame) : result frame :=
  if index_equals (index fl) (index fr) && is_unique (index fl)
     && forallb (λ v, bool_decide (v ∉ (columns fl).*1)) (columns fr).*1
  then Ok (Frame (if decide (index_name fl = index_name fr)
                  then index_name fl else None)
                 (index fl) (columns fl ++ columns fr))
  else Raise ValueError.

(** ** Footprints *)

(** [confined d m]: running [m] keeps every object other than [d]
    and may only add objects. *)
Definition confined (d : ref) {A} (m : py A) : Prop :=
  ∀ h : heap, d ∈ dom h →
    dom h ⊆ dom (m h).2 ∧ ∀ l, l ≠ d → l ∈ dom h → (m h).2 !! l = h !! l.

(** [allocates d m]: a reference returned by [m] is unused before the
    call and holds a series after it. *)
Definition allocates (d : ref) (m : py ref) : Prop :=
  ∀ (h : heap) l h', d ∈ dom h → m h = (Ok l, h') →
    (l ∉ dom h) ∧ ∃ s, h' !! l = Some (SeriesObj s).

(** [keeps_old h0 P m]: run from a heap that holds the objects of [h0],
    [m] leaves these objects as they are in [h0], and a value it
    returns satisfies [P]. *)
Definition keeps_old (h0 : heap) {A} (P : A → Prop) (m : py A) : Prop :=
  ∀ h : heap, (∀ l, l ∈ dom h0 → h !! l = h0 !! l) →
    (∀ l, l ∈ dom h0 → (m h).2 !! l = h0 !! l) ∧ (∀ a, (m h).1 = Ok a → P a).

(** ** Notions for the further properties *)

(** The name under which [reset_index] files the index of a table. *)
Definition index_label (f : frame) : string :=
  match index_name f with
  | Some v => v
  | None => if is_column "index" f then "level_0" else "index"
  end.

(** The name of the column of dates in the tables of [prepare_data]. *)
Definition dates_label (f : frame) : string :=
  if decide (index_label f = "datetime"%string) then "ds"%string else index_label f.

(** The rows of [a] followed by those of [b], column by column. *)
Definition append_rows (a b : list (string * column)) : list (string * column) :=
  zip_with (λ x y, (x.1, x.2 ++ y.2)) a b.

Definition is_time (c : cell) : bool :=
  match c with Time _ => true | _ => false end.

Definition is_num (c : cell) : bool :=
  match c with Num _ => true | _ => false end.

(** What [median_filter] returns for a column named ["median"], on its
    values [xs]: the working column has taken the place of the
    column. *)
Definition filter_values_median (sqrt : Q → Q) (window : nat) (std : Q)
    (xs : list (option Q)) : list (option Q) :=
  let med := rolling window median xs in
  let ks := map (cell_scale std) (rolling window (stdev sqrt) med) in
  let med1 := mask_na (zip_with cell_ge med (zip_with cell_add med ks)) med in
  mask_na (zip_with cell_le med1 (zip_with cell_sub med1 ks)) med1.

(** * Properties *)

(** ** Running monadic code *)

Lemma bind_run {A B} (m : py A) (k : A → py B) (h : heap) :
  (m ≫= k) h = match m h with
               | (Ok a, h') => k a h'
               | (Raise e, h') => (Raise e, h')
               end.
Proof. reflexivity. Qed.

Lemma get_frame_at (h : heap) l f :
  h !! l = Some (DataFrame f) → get_frame l h = (Ok f, h).
Proof. intros E. unfold get_frame. by rewrite E. Qed.

(** ** Operations confined to one object *)

Lemma confined_bind d {A B} (m : py A) (k : A → py B) :
  confined d m → (∀ a, confined d (k a)) → confined d (m ≫= k).
Proof.
  intros Hm Hk h Hd. rewrite bind_run.
  destruct (Hm h Hd) as [Hsub Hsame].
  destruct (m h) as [[a|e] h1] eqn:E; simpl in *; [|done].
  destruct (Hk a h1) as [Hsub' Hsame']; [set_solver|].
  split; [set_solver|].
  intros l Hl Hin. rewrite Hsame' by set_solver. by apply Hsame.
Qed.

Lemma confined_pure d {A} (m : py A) :
  (∀ h, (m h).2 = h) → confined d m.
Proof. intros E h _. by rewrite E. Qed.

Lemma confined_lift d {A} (r : result A) : confined d (lift r).
Proof. by apply confined_pure. Qed.

Lemma confined_raise d {A} e : confined d (@raise A e).
Proof. by apply confined_pure. Qed.

Lemma confined_ret d {A} (a : A) : confined d (mret a).
Proof. by apply confined_pure. Qed.

Lemma confined_get_frame d l : confined d (get_frame l).
Proof.
  apply confined_pure. intros h. unfold get_frame.
  by destruct (h !! l) as [[]|].
Qed.

Lemma confined_put_frame d f : confined d (put_frame d f).
Proof.
  intros h Hd. simpl. split.
  - rewrite dom_insert_L. set_solver.
  - intros l Hl _. by rewrite lookup_insert_ne.
Qed.

Lemma confined_new d o : confined d (new o).
Proof.
  intros h Hd. simpl. split.
  - rewrite dom_insert_L. set_solver.
  - intros l _ Hl. rewrite lookup_insert_ne; [done|].
    intros <-. by apply (is_fresh (dom h)).
Qed.

Lemma confined_getitem d l v : confined d (getitem l v).
Proof.
  apply confined_bind; [apply confined_get_frame|].
  intros f. destruct (lookup_col v (columns f)).
  - apply confined_ret.
  - apply confined_raise.
Qed.

Lemma confined_setitem d v c : confined d (setitem d v c).
Proof.
  apply confined_bind; [apply confined_get_frame|].
  intros f. apply confined_put_frame.
Qed.

Lemma confined_loc_assign_nan d mask v : confined d (loc_assign_nan d mask v).
Proof.
  apply confined_bind; [apply confined_get_frame|].
  intros f. apply confined_put_frame.
Qed.

Lemma confined_loc_series d l v : confined d (loc_series l v).
Proof.
  apply confined_bind; [apply confined_get_frame|].
  intros f. destruct (lookup_col v (columns f)).
  - apply confined_new.
  - apply confined_raise.
Qed.

Create HintDb confined.

#[local] Hint Resolve confined_lift confined_raise confined_ret
  confined_get_frame confined_put_frame confined_new confined_getitem
  confined_setitem confined_loc_assign_nan confined_loc_series : confined.

Ltac confined :=
  repeat first
    [ solve [eauto with confined]
    | apply confined_bind; [|intros ?] ].

Lemma allocates_loc_series d v : allocates d (loc_series d v).
Proof.
  intros h l h' _. unfold loc_series. rewrite bind_run. unfold get_frame.
  destruct (h !! d) as [[f|]|]; try done.
  destruct (lookup_col v (columns f)); [|done].
  unfold new. intros [= <- <-]. split; [apply is_fresh|].
  eexists. apply lookup_insert_eq.
Qed.

Lemma allocates_bind d {A} (m : py A) (k : A → py ref) :
  confined d m → (∀ a, allocates d (k a)) → allocates d (m ≫= k).
Proof.
  intros Hm Hk h l h' Hd. rewrite bind_run.
  destruct (Hm h Hd) as [Hsub _].
  destruct (m h) as [[a|e] h1] eqn:E; simpl in *; [|done].
  intros Hrun. assert (d ∈ dom h1) as Hd1 by set_solver.
  destruct (Hk a h1 l h' Hd1 Hrun) as [Hl Hs].
  split; [|done]. intros Hin. by apply Hl, Hsub.
Qed.

Lemma getitem_local (h : heap) d g v :
  getitem d v (<[d := DataFrame g]> h) =
  (match lookup_col v (columns g) with
   | Some c => Ok c
   | None => Raise KeyError
   end, <[d := DataFrame g]> h).
Proof.
  unfold getitem. rewrite bind_run, (get_frame_at _ _ g) by apply lookup_insert_eq.
  by destruct (lookup_col v (columns g)).
Qed.

Lemma setitem_local (h : heap) d g v c :
  setitem d v c (<[d := DataFrame g]> h) =
  (Ok (), <[d := DataFrame (Frame (index_name g) (index g) (set_col v c (columns g)))]> h).
Proof.
  unfold setitem. rewrite bind_run, (get_frame_at _ _ g) by apply lookup_insert_eq.
  unfold put_frame. by rewrite insert_insert_eq.
Qed.

Lemma loc_assign_nan_local (h : heap) d g mask v :
  loc_assign_nan d mask v (<[d := DataFrame g]> h) =
  (Ok (), <[d := DataFrame (Frame (index_name g) (index g)
      (set_col v match lookup_col v (columns g) with
                 | Some c => mask_nan mask c
                 | None => replicate (length (index g)) NA
                 end (columns g)))]> h).
Proof.
  unfold loc_assign_nan.
  rewrite bind_run, (get_frame_at _ _ g) by apply lookup_insert_eq.
  unfold put_frame. by rewrite insert_insert_eq.
Qed.

Lemma loc_series_local (h : heap) d g v :
  loc_series d v (<[d := DataFrame g]> h) =
  match lookup_col v (columns g) with
  | Some c => new (SeriesObj (Series (Some v) (index_name g) (index g) c))
                  (<[d := DataFrame g]> h)
  | None => (Raise KeyError, <[d := DataFrame g]> h)
  end.
Proof.
  unfold loc_series.
  rewrite bind_run, (get_frame_at _ _ g) by apply lookup_insert_eq.
  by destruct (lookup_col v (columns g)).
Qed.

Lemma to_floats_floats e xs : to_floats e (floats xs) = Ok xs.
Proof.
  induction xs as [|[q|] xs IH]; simpl; [done| |]; fold (floats xs); by rewrite IH.
Qed.

Lemma to_floats_inv e c xs : to_floats e c = Ok xs → c = floats xs.
Proof.
  revert xs. induction c as [|[q|t|] c IH]; intros xs; simpl.
  - by intros [= <-].
  - destruct (to_floats e c); [|done]. intros [= <-]. simpl. f_equal. by apply IH.
  - done.
  - destruct (to_floats e c); [|done]. intros [= <-]. simpl. f_equal. by apply IH.
Qed.

Lemma rolling_col_floats window stat xs :
  rolling_col window stat (floats xs) = Ok (floats (rolling window stat xs)).
Proof. unfold rolling_col. by rewrite to_floats_floats. Qed.

Lemma col_scale_floats k xs :
  col_scale k (floats xs) = Ok (floats (map (cell_scale k) xs)).
Proof. unfold col_scale. by rewrite to_floats_floats. Qed.

Lemma col_zip_floats {A} (op : option Q → option Q → A) xs ys :
  col_zip op (floats xs) (floats ys) = Ok (zip_with op xs ys).
Proof. unfold col_zip. by rewrite !to_floats_floats. Qed.

Lemma mask_nan_floats mask xs : mask_nan mask (floats xs) = floats (mask_na mask xs).
Proof.
  revert mask. induction xs as [|x xs IH]; intros [|b mask]; simpl; try done.
  fold (floats xs). rewrite IH. by destruct b.
Qed.

Section MedianFilterFacts.

Variable sqrt : Q → Q.

Lemma loc_columns_new (h : heap) df varname d h1 :
  loc_columns df varname h = (Ok d, h1) →
  (d ∉ dom h) ∧ dom h ⊆ dom h1 ∧ d ∈ dom h1 ∧ (∀ l, l ∈ dom h → h1 !! l = h !! l).
Proof.
  unfold loc_columns. rewrite bind_run. unfold get_frame.
  destruct (h !! df) as [[f|]|]; try done.
  destruct (lookup_col varname (columns f)); [|done].
  unfold new. intros [= <- <-].
  split; [apply is_fresh|]. rewrite dom_insert_L.
  split; [set_solver|]. split; [set_solver|].
  intros l' Hl. rewrite lookup_insert_ne; [done|].
  intros E. apply (is_fresh (dom h)). by rewrite E.
Qed.

Lemma loc_columns_error (h : heap) df varname e h1 :
  loc_columns df varname h = (Raise e, h1) → h1 = h.
Proof.
  unfold loc_columns. rewrite bind_run. unfold get_frame.
  destruct (h !! df) as [[f|]|]; try by intros [= _ <-].
  destruct (lookup_col varname (columns f)); by intros [= _ <-].
Qed.

(** C5. [median_filter] changes no object that exists before the call:
    the caller's table, like every other object, is the same after
    the call, whatever the outcome; and a returned reference is a new
    series object. *)
Theorem median_filter_no_mutation (h : heap) df varname window std :
  (∀ l, l ∈ dom h →
     (median_filter sqrt df varname window std h).2 !! l = h !! l) ∧
  (∀ r, (median_filter sqrt df varname window std h).1 = Ok r →
     (r ∉ dom h) ∧
     ∃ s, (median_filter sqrt df varname window std h).2 !! r = Some (SeriesObj s)).
Proof.
  unfold median_filter. rewrite bind_run.
  destruct (loc_columns df varname h) as [[d|e] h1] eqn:E; simpl.
  2:{ apply loc_columns_error in E as ->. by split. }
  apply loc_columns_new in E as (Hd & Hsub & Hd1 & Hsame).
  match goal with |- context [?m h1] => set (body := m) end.
  split.
  - intros l Hl.
    assert (confined d body) as Hc
      by (unfold body, rolling_median, rolling_std; confined).
    destruct (Hc h1 Hd1) as [_ Hkeep].
    rewrite Hkeep; [by apply Hsame| |set_solver].
    intros ->. done.
  - intros r Hr. destruct (body h1) as [r' h'] eqn:Eb. simpl in *. subst r'.
    assert (allocates d body) as Ha.
    { unfold body, rolling_median, rolling_std.
      repeat first
        [ apply allocates_loc_series
        | apply allocates_bind; [by confined|intros ?] ]. }
    destruct (Ha h1 r h' Hd1 Eb) as [Hr Hs].
    split; [|done]. intros Hin. by apply Hr, Hsub.
Qed.

(** C8. On a table without a column named [varname], the first line of
    [median_filter], which selects that column, raises [KeyError]:
    there is no result, and nothing has been created or changed. *)
Theorem median_filter_missing_column (h : heap) df f varname window std :
  h !! df = Some (DataFrame f) →
  lookup_col varname (columns f) = None →
  median_filter sqrt df varname window std h = (Raise KeyError, h).
Proof.
  intros Hdf Hcol. unfold median_filter, loc_columns.
  rewrite !bind_run, (get_frame_at _ _ _ Hdf), Hcol. reflexivity.
Qed.

(** On a numeric column whose name is not one of the two working
    columns, [median_filter] returns [filter_values] of its values. *)
Lemma median_filter_numeric (h : heap) df f varname window std xs :
  h !! df = Some (DataFrame f) →
  lookup_col varname (columns f) = Some (floats xs) →
  varname ≠ "median"%string → varname ≠ "std"%string →
  let out := floats (filter_values sqrt window std xs) in
  let d := fresh (dom h) in
  let h1 := <[d := DataFrame (Frame (index_name f) (index f)
                    [(varname, out);
                     ("median"%string, floats (rolling window median xs));
                     ("std"%string, floats (rolling window (stdev sqrt) xs))])]> h in
  median_filter sqrt df varname window std h =
  (Ok (fresh (dom h1)),
   <[fresh (dom h1) := SeriesObj (Series (Some varname) (index_name f) (index f) out)]> h1).
Proof.
  intros Hdf Hcol Hm Hs. cbv zeta.
  unfold median_filter, loc_columns, rolling_median, rolling_std, col_add,
    col_sub, col_ge, col_le, lift.
  rewrite !bind_run, (get_frame_at _ _ _ Hdf), Hcol. unfold new at 1.
  repeat (rewrite ?bind_run, ?getitem_local, ?setitem_local,
            ?loc_assign_nan_local, ?loc_series_local;
          cbn [columns index index_name lookup_col set_col];
          rewrite ?decide_True, ?decide_False by done;
          rewrite ?rolling_col_floats, ?col_scale_floats, ?col_zip_floats,
            ?mask_nan_floats;
          cbn [mbind result_bind]).
  reflexivity.
Qed.

(** *** Rolling statistics, position by position *)

Lemma length_rolling window stat xs : length (rolling window stat xs) = length xs.
Proof. unfold rolling. by rewrite length_map, length_seq. Qed.

Lemma rolling_lookup window stat xs i :
  (i < length xs)%nat →
  rolling window stat xs !! i = Some (rolling_at window stat xs i).
Proof.
  intros Hi. unfold rolling. rewrite list_lookup_fmap, lookup_seq_lt by done.
  reflexivity.
Qed.

Lemma mask_na_lookup mask xs i :
  mask_na mask xs !! i =
  (λ x, if default false (mask !! i) then None else x) <$> xs !! i.
Proof.
  revert mask i. induction xs as [|x xs IH]; intros [|b mask] [|i]; simpl; try done.
  by destruct (xs !! i).
Qed.

Lemma length_mask_na mask xs : length (mask_na mask xs) = length xs.
Proof.
  revert mask. induction xs as [|x xs IH]; intros [|b mask]; simpl; try done.
  by rewrite IH.
Qed.

Lemma length_filter_values window std xs :
  length (filter_values sqrt window std xs) = length xs.
Proof. unfold filter_values, filter_with. by rewrite !length_mask_na. Qed.

Lemma filter_values_lookup window std xs i x :
  xs !! i = Some x →
  filter_values sqrt window std xs !! i =
  Some (filter_cell std x (rolling_at window median xs i)
                          (rolling_at window (stdev sqrt) xs i)).
Proof.
  intros Hx. assert (i < length xs)%nat as Hi by eauto using lookup_lt_Some.
  unfold filter_values, filter_with, filter_cell.
  rewrite !mask_na_lookup, !lookup_zip_with, !mask_na_lookup, !lookup_zip_with.
  rewrite list_lookup_fmap, !rolling_lookup, Hx by done. simpl.
  reflexivity.
Qed.

(** *** Windows *)

Lemma length_window_at window xs i : (length (window_at window xs i) ≤ window)%nat.
Proof.
  unfold window_at, window_bounds. rewrite length_take, length_drop. lia.
Qed.

Lemma length_observations (w : list (option Q)) :
  (length (observations w) ≤ length w)%nat.
Proof. induction w as [|[x|] w IH]; simpl; lia. Qed.

Lemma observations_full (w : list (option Q)) :
  length (observations w) = length w → w = map Some (observations w).
Proof.
  induction w as [|[x|] w IH]; simpl; intros E; [done| |].
  - f_equal. apply IH. lia.
  - pose proof (length_observations w). lia.
Qed.

Lemma length_observations_window window xs i :
  (length (observations (window_at window xs i)) ≤ window)%nat.
Proof.
  pose proof (length_window_at window xs i).
  pose proof (length_observations (window_at window xs i)). lia.
Qed.

Lemma rolling_at_full window stat xs i :
  full_window window xs i →
  rolling_at window stat xs i = stat (observations (window_at window xs i)).
Proof.
  unfold full_window, rolling_at. intros ->. by rewrite Nat.leb_refl.
Qed.

Lemma rolling_at_short window stat xs i :
  (length (observations (window_at window xs i)) < window)%nat →
  rolling_at window stat xs i = None.
Proof.
  unfold rolling_at. intros H.
  destruct (Nat.leb_spec window (length (observations (window_at window xs i))));
    [lia|done].
Qed.

(** A full window is not clipped, and holds the record it is centred on. *)
Lemma full_window_bounds window xs i :
  (1 ≤ window)%nat → full_window window xs i →
  ∃ start, (start ≤ i < start + window)%nat ∧ (start + window ≤ length xs)%nat ∧
           window_at window xs i = take window (drop start xs).
Proof.
  intros Hw Hfull.
  pose proof (length_observations (window_at window xs i)) as H1.
  pose proof (length_window_at window xs i) as H2.
  unfold full_window in Hfull.
  assert (length (window_at window xs i) = window) as Hlen by lia.
  revert Hlen. unfold window_at, window_bounds.
  rewrite length_take, length_drop.
  assert (0 ≤ (Z.of_nat window - 1) / 2 ≤ Z.of_nat window - 1) as Hoff.
  { split; [apply Z.div_pos; lia|]. apply Z.div_le_upper_bound; lia. }
  revert Hoff. generalize ((Z.of_nat window - 1) / 2). intros offset Hoff Hlen.
  exists (Z.to_nat (Z.max 0 (Z.min (Z.of_nat i + 1 + offset - Z.of_nat window)
                                (Z.of_nat (length xs))))).
  split; [lia|]. split; [lia|]. f_equal. lia.
Qed.

Lemma full_window_self window xs i :
  (1 ≤ window)%nat → full_window window xs i →
  ∃ x, xs !! i = Some (Some x) ∧ x ∈ observations (window_at window xs i).
Proof.
  intros Hw Hfull.
  destruct (full_window_bounds _ _ _ Hw Hfull) as (start & Hi & Hn & Hwin).
  pose proof (observations_full (window_at window xs i)) as Hobs.
  unfold full_window in Hfull.
  pose proof (length_window_at window xs i) as H2.
  pose proof (length_observations (window_at window xs i)) as H1.
  specialize (Hobs ltac:(lia)).
  assert (window_at window xs i !! (i - start)%nat = xs !! i) as Hl.
  { rewrite Hwin, lookup_take_lt, lookup_drop by lia. f_equal. lia. }
  rewrite Hobs, list_lookup_fmap in Hl.
  destruct (observations (window_at window xs i) !! (i - start)%nat) as [x|] eqn:E.
  - exists x. split; [done|]. by eapply list_elem_of_lookup_2.
  - apply lookup_ge_None in E. lia.
Qed.

(** *** The filter, cell by cell *)

Lemma filter_cell_no_median std x s : filter_cell std x None s = x.
Proof. unfold filter_cell. by destruct x, s. Qed.

Lemma filter_cell_no_std std x m : filter_cell std x m None = x.
Proof. unfold filter_cell. by destruct x, m. Qed.

Lemma filter_cell_na std m s : filter_cell std None m s = None.
Proof. unfold filter_cell. by destruct m, s. Qed.

Lemma filter_cell_some std x m s :
  filter_cell std (Some x) (Some m) (Some s) =
  if Qle_bool (m + std * s) x || Qle_bool x (m - std * s) then None else Some x.
Proof.
  unfold filter_cell. simpl. destruct (Qle_bool (m + std * s) x); simpl; [done|].
  by destruct (Qle_bool x (m - std * s)).
Qed.

(** A cell is kept exactly when it lies strictly inside the band. *)
Lemma filter_cell_keep std x m s :
  (Qabs (x - m) < std * s)%Q → filter_cell std (Some x) (Some m) (Some s) = Some x.
Proof.
  intros [H1 H2]%Qabs_Qlt_condition. rewrite filter_cell_some.
  destruct (Qle_bool (m + std * s) x) eqn:E1.
  { apply Qle_bool_iff in E1. lra. }
  destruct (Qle_bool x (m - std * s)) eqn:E2.
  { apply Qle_bool_iff in E2. lra. }
  done.
Qed.

Lemma filter_cell_drop std x m s :
  ¬ (Qabs (x - m) < std * s)%Q → filter_cell std (Some x) (Some m) (Some s) = None.
Proof.
  intros H. rewrite filter_cell_some.
  destruct (Qle_bool (m + std * s) x) eqn:E1; [done|].
  destruct (Qle_bool x (m - std * s)) eqn:E2; [done|].
  exfalso. apply H, Qabs_Qlt_condition.
  assert (¬ (m + std * s <= x)%Q) by (rewrite <- Qle_bool_iff, E1; done).
  assert (¬ (x <= m - std * s)%Q) by (rewrite <- Qle_bool_iff, E2; done).
  lra.
Qed.

Lemma median_filter_filters_to (h : heap) df f varname window std xs :
  h !! df = Some (DataFrame f) →
  lookup_col varname (columns f) = Some (floats xs) →
  varname ≠ "median"%string → varname ≠ "std"%string →
  filters_to sqrt h df varname window std (filter_values sqrt window std xs).
Proof.
  intros Hdf Hcol Hm Hs. unfold filters_to.
  rewrite (median_filter_numeric _ _ _ _ _ _ _ Hdf Hcol Hm Hs).
  do 3 eexists. exists f. split; [done|]. split; [done|].
  split; [apply lookup_insert_eq|done].
Qed.

Lemma filter_values_short_window window std xs i :
  (length (observations (window_at window xs i)) < window)%nat →
  filter_values sqrt window std xs !! i = xs !! i.
Proof.
  intros Hshort. destruct (xs !! i) as [x|] eqn:Hx.
  - rewrite (filter_values_lookup _ _ _ _ _ Hx), !rolling_at_short by done.
    by rewrite filter_cell_no_median.
  - apply lookup_ge_None. rewrite length_filter_values. by apply lookup_ge_None.
Qed.

Lemma length_window_at_table window xs i :
  (length (window_at window xs i) ≤ length xs)%nat.
Proof.
  unfold window_at. destruct (window_bounds _ _ _).
  rewrite length_take, length_drop. lia.
Qed.

(** C1, as the code has it.  The rolling statistics keep the default
    minimum number of observations, which is the window size: at a
    record whose centred window holds fewer than [window] valid values
    (a window cut by an end of the table, or holding a missing value)
    the rolling median and standard deviation are missing and the
    record is left as it is; only where the window holds [window] valid
    values are they the median and standard deviation of these values.
    The result has the length of the column, and on a table shorter
    than the window it is the column unchanged.  (Columns named
    ["median"] or ["std"] are left out.) *)
Theorem median_filter_min_periods (h : heap) df f varname window std xs :
  h !! df = Some (DataFrame f) →
  lookup_col varname (columns f) = Some (floats xs) →
  varname ≠ "median"%string → varname ≠ "std"%string →
  ∃ out, filters_to sqrt h df varname window std out ∧
    length out = length xs ∧
    (∀ i, (i < length xs)%nat →
       let obs := observations (window_at window xs i) in
       (length obs ≤ window)%nat ∧
       (length obs = window →
          rolling window median xs !! i = Some (median obs) ∧
          rolling window (stdev sqrt) xs !! i = Some (stdev sqrt obs)) ∧
       ((length obs < window)%nat →
          rolling window median xs !! i = Some None ∧
          rolling window (stdev sqrt) xs !! i = Some None ∧
          out !! i = xs !! i)) ∧
    ((length xs < window)%nat → out = xs).
Proof.
  intros Hdf Hcol Hm Hs. exists (filter_values sqrt window std xs).
  split; [by eapply median_filter_filters_to|].
  split; [apply length_filter_values|]. split.
  - intros i Hi obs. split; [apply length_observations_window|].
    rewrite !rolling_lookup by done. split.
    + intros Hfull. by rewrite !rolling_at_full.
    + intros Hshort. rewrite !rolling_at_short by done.
      by rewrite filter_values_short_window.
  - intros Hshort. apply list_eq. intros i.
    apply filter_values_short_window.
    pose proof (length_window_at_table window xs i).
    pose proof (length_observations (window_at window xs i)). lia.
Qed.

(** *** The scenario of 48 hourly values *)

Lemma rolling_at_stdev window xs i :
  rolling_at window (stdev sqrt) xs i =
  match rolling_at window var xs i with Some v => Some (sqrt v) | None => None end.
Proof. unfold rolling_at, stdev. by destruct (_ <=? _)%nat. Qed.

Lemma filter_cell_inside std x m s :
  (m - std * s < x)%Q → (x < m + std * s)%Q →
  filter_cell std (Some x) (Some m) (Some s) = Some x.
Proof.
  intros H1 H2. apply filter_cell_keep, Qabs_Qlt_condition. split; lra.
Qed.

Lemma filter_cell_above std x m s :
  (m + std * s <= x)%Q → filter_cell std (Some x) (Some m) (Some s) = None.
Proof.
  intros H. rewrite filter_cell_some.
  by rewrite (proj2 (Qle_bool_iff _ _) H).
Qed.

Lemma filter_cell_below std x m s :
  (x <= m - std * s)%Q → filter_cell std (Some x) (Some m) (Some s) = None.
Proof.
  intros H. rewrite filter_cell_some.
  rewrite (proj2 (Qle_bool_iff _ _) H). by destruct (Qle_bool _ _).
Qed.

Ltac eval_stat stat :=
  match goal with
  | |- context [rolling_at ?w stat ?xs ?i] =>
      let m := eval vm_compute in (rolling_at w stat xs i) in
      change (rolling_at w stat xs i) with m
  end.

Ltac sqrt_facts H :=
  match goal with
  | |- context [sqrt ?v] =>
      pose proof (sqrt_zero _ H v) as Hz;
      pose proof (sqrt_pos _ H v) as Hp;
      pose proof (sqrt_upper _ H v 330) as Hu;
      try specialize (Hz ltac:(reflexivity));
      try specialize (Hp ltac:(reflexivity));
      try specialize (Hu ltac:(by vm_compute) ltac:(by vm_compute));
      generalize dependent (sqrt v); intros
  end.

Lemma filter_values_scenario :
  sqrt_spec sqrt → filter_values sqrt 24 3 scenario = scenario_filtered.
Proof.
  intros H. apply list_eq. intros i.
  destruct (decide (i < 48)%nat) as [Hi|Hi].
  - do 48 (destruct i as [|i];
      [ erewrite filter_values_lookup by reflexivity;
        rewrite rolling_at_stdev; eval_stat median; eval_stat var;
        cbv beta iota;
        first [ reflexivity
              | sqrt_facts H; change (scenario_filtered !! _) with (Some (Some 10%Q));
                do 2 f_equal; apply filter_cell_inside; lra
              | sqrt_facts H; change (scenario_filtered !! _) with (Some (@None Q));
                do 2 f_equal;
                first [apply filter_cell_above; lra | apply filter_cell_below; lra] ]
      | ]).
    lia.
  - rewrite !(proj2 (lookup_ge_None _ _)); [done| |].
    + unfold scenario_filtered. rewrite length_map, length_seq. lia.
    + rewrite length_filter_values. unfold scenario. rewrite length_map, length_seq. lia.
Qed.

(** *** A second pass of the filter *)

Lemma filter_cell_inv std x m s y : filter_cell std x m s = Some y → x = Some y.
Proof.
  unfold filter_cell.
  destruct (cell_ge x (cell_add m (cell_scale std s))); simpl.
  - by destruct (cell_sub m (cell_scale std s)).
  - by destruct (cell_le x (cell_sub m (cell_scale std s))).
Qed.

Lemma filter_cell_idem std x m s :
  filter_cell std (filter_cell std x m s) m s = filter_cell std x m s.
Proof.
  destruct (filter_cell std x m s) as [y|] eqn:E.
  - apply filter_cell_inv in E as E'. by subst x.
  - apply filter_cell_na.
Qed.

Lemma filter_values_kept window std xs p y :
  filter_values sqrt window std xs !! p = Some (Some y) → xs !! p = Some (Some y).
Proof.
  intros H. destruct (xs !! p) as [x|] eqn:Hx.
  - rewrite (filter_values_lookup _ _ _ _ _ Hx) in H.
    injection H as H. apply filter_cell_inv in H. by subst x.
  - apply lookup_ge_None in Hx. apply lookup_lt_Some in H.
    rewrite length_filter_values in H. lia.
Qed.

Lemma window_at_ext window (xs ys : list (option Q)) i :
  length ys = length xs →
  (∀ p y, ys !! p = Some (Some y) → xs !! p = Some (Some y)) →
  full_window window ys i →
  window_at window ys i = window_at window xs i.
Proof.
  intros Hlen Hkept Hfull.
  pose proof (observations_full (window_at window ys i)) as Hobs.
  pose proof (length_window_at window ys i) as H2.
  pose proof (length_observations (window_at window ys i)) as H1.
  unfold full_window in Hfull. specialize (Hobs ltac:(lia)).
  revert Hobs. unfold window_at. rewrite Hlen.
  destruct (window_bounds (length xs) window i) as [start stop].
  intros Hobs. apply list_eq. intros j.
  destruct (decide (j < stop - start)%nat) as [Hj|Hj].
  - rewrite !lookup_take_lt, !lookup_drop by done.
    destruct (ys !! (start + j)%nat) as [y|] eqn:Hy.
    + assert (take (stop - start) (drop start ys) !! j = Some y) as Hw
        by (by rewrite lookup_take_lt, lookup_drop).
      rewrite Hobs, list_lookup_fmap in Hw.
      destruct (observations _ !! j) as [q|]; [|done].
      injection Hw as <-. symmetry. by apply Hkept.
    + apply lookup_ge_None in Hy. symmetry. apply lookup_ge_None. lia.
  - by rewrite !lookup_take_ge by lia.
Qed.

Lemma rolling_at_ext window stat (xs ys : list (option Q)) i :
  window_at window ys i = window_at window xs i →
  rolling_at window stat ys i = rolling_at window stat xs i.
Proof. unfold rolling_at. by intros ->. Qed.

(** Filtering the filtered values changes nothing: the second pass
    finds the statistics of the first wherever it has any. *)
Lemma filter_values_idempotent window std xs :
  filter_values sqrt window std (filter_values sqrt window std xs) =
  filter_values sqrt window std xs.
Proof.
  set (ys := filter_values sqrt window std xs).
  apply list_eq. intros i. destruct (ys !! i) as [y|] eqn:Hy.
  - rewrite (filter_values_lookup _ _ _ _ _ Hy). f_equal.
    pose proof (length_observations_window window ys i) as Hle.
    destruct (decide (length (observations (window_at window ys i)) = window))
      as [Hfull|Hshort].
    + assert (window_at window ys i = window_at window xs i) as Hw.
      { apply window_at_ext; [apply length_filter_values| |done].
        apply filter_values_kept. }
      rewrite !(rolling_at_ext _ _ _ _ _ Hw).
      destruct (xs !! i) as [x|] eqn:Hx.
      * unfold ys in Hy. rewrite (filter_values_lookup _ _ _ _ _ Hx) in Hy.
        injection Hy as <-. apply filter_cell_idem.
      * apply lookup_ge_None in Hx. apply lookup_lt_Some in Hy.
        unfold ys in Hy. rewrite length_filter_values in Hy. lia.
    + rewrite !rolling_at_short by lia. apply filter_cell_no_median.
  - apply lookup_ge_None. rewrite length_filter_values. by apply lookup_ge_None.
Qed.

(** The second pass of C6, for a column that is not one of the working
    columns: applied to a table holding the result of a first pass,
    [median_filter] returns that result again. *)
Lemma median_filter_second_pass (h : heap) df f varname window std xs :
  h !! df = Some (DataFrame f) →
  lookup_col varname (columns f) = Some (floats (filter_values sqrt window std xs)) →
  varname ≠ "median"%string → varname ≠ "std"%string →
  filters_to sqrt h df varname window std (filter_values sqrt window std xs).
Proof.
  intros Hdf Hcol Hm Hs.
  pose proof (median_filter_filters_to _ _ _ _ window std _ Hdf Hcol Hm Hs) as H.
  by rewrite filter_values_idempotent in H.
Qed.

(** *** A zero standard deviation *)

Lemma Qsum_squares_nonneg c (l : list Q) :
  (0 <= Qsum (map (λ x, (x - c) * (x - c)) l))%Q.
Proof.
  induction l as [|x l IH]; cbn [map Qsum foldr]; [lra|].
  fold (Qsum (map (λ x, (x - c) * (x - c))%Q l)).
  assert (0 <= (x - c) * (x - c))%Q by (generalize (x - c)%Q; intros; nra).
  lra.
Qed.

Lemma Qsum_squares_zero c (l : list Q) :
  (Qsum (map (λ x, (x - c) * (x - c)) l) == 0)%Q → Forall (λ x, x == c)%Q l.
Proof.
  induction l as [|x l IH]; cbn [map Qsum foldr]; intros H; constructor.
  - fold (Qsum (map (λ x, (x - c) * (x - c))%Q l)) in H.
    pose proof (Qsum_squares_nonneg c l).
    assert (0 <= (x - c) * (x - c))%Q by (generalize (x - c)%Q; intros; nra).
    assert ((x - c) * (x - c) == 0)%Q as Hsq by lra.
    apply Qmult_integral in Hsq. lra.
  - apply IH. fold (Qsum (map (λ x, (x - c) * (x - c))%Q l)) in H.
    pose proof (Qsum_squares_nonneg c l).
    assert (0 <= (x - c) * (x - c))%Q by (generalize (x - c)%Q; intros; nra).
    lra.
Qed.

Lemma Qnat_pos n : (0 < n)%nat → (0 < Qnat n)%Q.
Proof. intros H. unfold Qnat, Qlt. simpl. lia. Qed.

Lemma var_nonneg obs v : var obs = Some v → (0 <= v)%Q.
Proof.
  unfold var. destruct (Nat.leb_spec (length obs) 1); [done|].
  intros [= <-]. apply Qle_shift_div_l; [apply Qnat_pos; lia|].
  rewrite Qmult_0_l. apply Qsum_squares_nonneg.
Qed.

Lemma var_zero obs v :
  var obs = Some v → (v == 0)%Q → Forall (λ x, x == mean obs)%Q obs.
Proof.
  unfold var. destruct (Nat.leb_spec (length obs) 1); [done|].
  intros [= <-] H0. apply Qsum_squares_zero.
  assert (0 < Qnat (length obs - 1))%Q as Hn by (apply Qnat_pos; lia).
  revert H0. generalize (Qsum (map (λ x, (x - mean obs) * (x - mean obs))%Q obs)).
  intros S H0.
  assert (S == S / Qnat (length obs - 1) * Qnat (length obs - 1))%Q as ->
    by (field; lra).
  rewrite H0. lra.
Qed.

Lemma insert_sorted_Forall (P : Q → Prop) x l :
  P x → Forall P l → Forall P (insert_sorted x l).
Proof.
  intros Hx. induction 1 as [|y l Hy Hl IH]; simpl; [by repeat constructor|].
  destruct (Qle_bool x y); repeat constructor; done.
Qed.

Lemma sort_values_Forall (P : Q → Prop) l : Forall P l → Forall P (sort_values l).
Proof.
  induction 1; simpl; [constructor|]. by apply insert_sorted_Forall.
Qed.

(** The median of observations that all equal [c] is [c]. *)
Lemma median_constant c obs m :
  Forall (λ x, x == c)%Q obs → median obs = Some m → (m == c)%Q.
Proof.
  intros Hall%sort_values_Forall. unfold median.
  set (s := sort_values obs) in *. set (n := length s).
  destruct (Nat.eqb_spec n 0) as [|Hn]; [done|].
  assert (∀ k, (k < n)%nat → (nth k s 0 == c)%Q) as Hnth.
  { intros k Hk. destruct (nth_lookup_or_length s k 0%Q) as [E|]; [|unfold n in Hk; lia].
    by eapply (Forall_lookup_1 _ _ _ _ Hall). }
  assert (n / 2 < n)%nat as Hhalf by (apply Nat.div_lt; lia).
  pose proof (Hnth (n / 2 - 1)%nat ltac:(lia)) as Ea.
  pose proof (Hnth (n / 2)%nat Hhalf) as Eb.
  revert Ea Eb. generalize (nth (n / 2 - 1) s 0%Q) (nth (n / 2) s 0%Q).
  intros a b Ea Eb. destruct (Nat.odd n); intros [= <-]; [done|].
  rewrite Ea, Eb. field.
Qed.

(** The zero standard deviation of C4, for a column that is not one of
    the working columns: where the rolling standard deviation is zero,
    all the values of the window are equal, so that the value of the
    record equals the rolling median, and the record is made missing. *)
Lemma median_filter_zero_std (h : heap) df f varname window std xs :
  (∀ v, (0 < v)%Q → (0 < sqrt v)%Q) →
  h !! df = Some (DataFrame f) →
  lookup_col varname (columns f) = Some (floats xs) →
  varname ≠ "median"%string → varname ≠ "std"%string →
  ∃ out, filters_to sqrt h df varname window std out ∧
    ∀ i s, rolling window (stdev sqrt) xs !! i = Some (Some s) → (s == 0)%Q →
      ∃ x m, xs !! i = Some (Some x) ∧
             rolling window median xs !! i = Some (Some m) ∧
             (x == m)%Q ∧ out !! i = Some None.
Proof.
  intros Hpos Hdf Hcol Hm Hs. exists (filter_values sqrt window std xs).
  split; [by eapply median_filter_filters_to|].
  intros i s Hsd Hzero.
  assert (i < length xs)%nat as Hi.
  { apply lookup_lt_Some in Hsd. by rewrite length_rolling in Hsd. }
  rewrite rolling_lookup in Hsd by done. injection Hsd as Hsd.
  pose proof (length_observations_window window xs i) as Hle.
  destruct (decide (length (observations (window_at window xs i)) = window))
    as [Hfull|Hshort]; [|by rewrite rolling_at_short in Hsd by lia].
  rewrite rolling_at_full in Hsd by done.
  set (obs := observations (window_at window xs i)) in *.
  unfold stdev in Hsd. destruct (var obs) as [v|] eqn:Hv; [|done].
  injection Hsd as <-.
  assert (2 ≤ window)%nat as Hw.
  { revert Hv. unfold var. destruct (Nat.leb_spec (length obs) 1); [done|lia]. }
  assert (v == 0)%Q as Hv0.
  { pose proof (var_nonneg _ _ Hv). destruct (Qlt_le_dec 0 v) as [Hlt|]; [|lra].
    apply Hpos in Hlt. lra. }
  pose proof (var_zero _ _ Hv Hv0) as Hall.
  destruct (full_window_self window xs i) as (x & Hx & Hin); [lia|done|].
  fold obs in Hin.
  assert (∃ m, median obs = Some m) as [m Hmed].
  { unfold median. destruct (Nat.eqb_spec (length (sort_values obs)) 0) as [E|]; [|destruct (Nat.odd _); eauto].
    revert E. unfold sort_values. destruct obs as [|a obs']; [simpl in Hfull; lia|].
    simpl. destruct (foldr insert_sorted [] obs'); simpl; [done|].
    by destruct (Qle_bool a q). }
  exists x, m. split; [done|].
  rewrite rolling_lookup, rolling_at_full by done. fold obs.
  split; [by rewrite Hmed|].
  assert (x == mean obs)%Q as Hxm by (by eapply (proj1 (Forall_forall _ _) Hall)).
  pose proof (median_constant _ _ _ Hall Hmed) as Hmm.
  split; [lra|].
  rewrite (filter_values_lookup _ _ _ _ _ Hx), !rolling_at_full by done.
  fold obs. unfold stdev. rewrite Hmed, Hv. f_equal.
  apply filter_cell_above. rewrite Hzero. lra.
Qed.

(** C2, as the code has it.  On the 48 hourly values, with a window of
    24 and a threshold of 3, the result is missing at index 24 and also
    at index 12, whose window holds the 24 equal values before the
    outlier (a zero standard deviation, so that the value is on the
    bound); every other value is 10.  (For a column not named ["median"]
    or ["std"].) *)
Theorem median_filter_scenario (h : heap) df f varname :
  sqrt_spec sqrt →
  h !! df = Some (DataFrame f) →
  lookup_col varname (columns f) = Some (floats scenario) →
  varname ≠ "median"%string → varname ≠ "std"%string →
  ∃ out, filters_to sqrt h df varname 24 3 out ∧
    length out = 48%nat ∧
    out !! 24%nat = Some None ∧
    out !! 12%nat = Some None ∧
    ∀ i, (i < 48)%nat → i ≠ 12%nat → i ≠ 24%nat → out !! i = Some (Some 10%Q).
Proof.
  intros Hsqrt Hdf Hcol Hm Hs. exists scenario_filtered.
  split.
  { rewrite <- (filter_values_scenario Hsqrt). by eapply median_filter_filters_to. }
  split; [done|]. split; [done|]. split; [done|].
  intros i Hi H12 H24.
  do 48 (destruct i as [|i]; [done|]). lia.
Qed.

End MedianFilterFacts.

(** ** The two comparisons on float64 values *)

Lemma leb_nan_l x : PrimFloat.leb PrimFloat.nan x = false.
Proof. by rewrite FloatAxioms.leb_spec. Qed.

Lemma leb_nan_r x : PrimFloat.leb x PrimFloat.nan = false.
Proof.
  rewrite FloatAxioms.leb_spec.
  change (FloatOps.Prim2SF PrimFloat.nan) with SpecFloat.S754_nan.
  by destruct (FloatOps.Prim2SF x) as [[]|[]| |[]].
Qed.

Lemma leb_refl x : PrimFloat.is_nan x = false → PrimFloat.leb x x = true.
Proof.
  unfold PrimFloat.is_nan. rewrite FloatAxioms.eqb_spec, FloatAxioms.leb_spec.
  unfold SpecFloat.SFeqb, SpecFloat.SFleb.
  by destruct (SpecFloat.SFcompare _ _) as [[]|].
Qed.

Lemma mul_nan_r x : PrimFloat.mul x PrimFloat.nan = PrimFloat.nan.
Proof.
  apply FloatAxioms.Prim2SF_inj. rewrite FloatAxioms.mul_spec.
  change (FloatOps.Prim2SF PrimFloat.nan) with SpecFloat.S754_nan.
  by destruct (FloatOps.Prim2SF x) as [[]|[]| |[]].
Qed.

Lemma add_nan_r x : PrimFloat.add x PrimFloat.nan = PrimFloat.nan.
Proof.
  apply FloatAxioms.Prim2SF_inj. rewrite FloatAxioms.add_spec.
  change (FloatOps.Prim2SF PrimFloat.nan) with SpecFloat.S754_nan.
  by destruct (FloatOps.Prim2SF x) as [[]|[]| |[]].
Qed.

Lemma add_nan_l x : PrimFloat.add PrimFloat.nan x = PrimFloat.nan.
Proof. apply FloatAxioms.Prim2SF_inj. by rewrite FloatAxioms.add_spec. Qed.

Lemma sub_nan_r x : PrimFloat.sub x PrimFloat.nan = PrimFloat.nan.
Proof.
  apply FloatAxioms.Prim2SF_inj. rewrite FloatAxioms.sub_spec.
  change (FloatOps.Prim2SF PrimFloat.nan) with SpecFloat.S754_nan.
  by destruct (FloatOps.Prim2SF x) as [[]|[]| |[]].
Qed.

Lemma sub_nan_l x : PrimFloat.sub PrimFloat.nan x = PrimFloat.nan.
Proof. apply FloatAxioms.Prim2SF_inj. by rewrite FloatAxioms.sub_spec. Qed.

(** A missing statistic makes both comparisons false. *)
Lemma removed64_nan_std std x m : removed64 std x m PrimFloat.nan = false.
Proof.
  unfold removed64, ge64, le64.
  by rewrite mul_nan_r, add_nan_r, sub_nan_r, leb_nan_l, leb_nan_r.
Qed.

Lemma removed64_nan_median std x s : removed64 std x PrimFloat.nan s = false.
Proof.
  unfold removed64, ge64, le64.
  by rewrite add_nan_l, sub_nan_l, leb_nan_l, leb_nan_r.
Qed.

Lemma mask_nan64_lookup mask xs i :
  mask_nan64 mask xs !! i =
  (λ x, if default false (mask !! i) then PrimFloat.nan else x) <$> xs !! i.
Proof.
  revert mask i. induction xs as [|x xs IH]; intros [|b mask] [|i]; simpl; try done.
  by destruct (xs !! i).
Qed.

Section MedianFilter64Facts.

Variable rolling_median64 : nat → list float → list float.
Variable rolling_std64 : nat → list float → list float.

(** C3, as the code has it.  At every record, with the rolling median
    [m] and the rolling standard deviation [s] that pandas returns for
    the record, the result is missing when [x >= m + std * s] or
    [x <= m - std * s] holds on float64 numbers, and is the value [x]
    otherwise.  Where a statistic is missing (a window that holds fewer
    valid values than its size; the standard deviation for a window of
    one record) both comparisons are false and the value is kept.  The
    bounds are inclusive: a value equal to one of the two bounds is
    made missing. *)
Theorem median_filter64_bounds window std xs i x m s :
  xs !! i = Some x →
  rolling_median64 window xs !! i = Some m →
  rolling_std64 window xs !! i = Some s →
  let out := median_filter64 rolling_median64 rolling_std64 window std xs in
  let upper := PrimFloat.add m (PrimFloat.mul std s) in
  let lower := PrimFloat.sub m (PrimFloat.mul std s) in
  out !! i = Some (if ge64 x upper || le64 x lower then PrimFloat.nan else x) ∧
  (s = PrimFloat.nan → out !! i = Some x) ∧
  (m = PrimFloat.nan → out !! i = Some x) ∧
  (PrimFloat.is_nan x = false → x = upper ∨ x = lower →
   out !! i = Some PrimFloat.nan).
Proof.
  intros Hx Hm Hs out upper lower.
  assert (out !! i = Some (if removed64 std x m s then PrimFloat.nan else x)) as E.
  { unfold out, median_filter64, removed64.
    rewrite !mask_nan64_lookup, !lookup_zip_with, !mask_nan64_lookup,
      !lookup_zip_with, list_lookup_fmap, Hx, Hm, Hs. simpl.
    destruct (ge64 x _); simpl; [|done].
    by destruct (le64 PrimFloat.nan _). }
  split; [exact E|]. split; [|split].
  - intros ->. by rewrite E, removed64_nan_std.
  - intros ->. by rewrite E, removed64_nan_median.
  - intros Hnan Htie. rewrite E. unfold removed64. fold upper lower.
    destruct Htie as [<- | <-]; unfold ge64, le64; rewrite leb_refl by done;
      [done|by rewrite orb_true_r].
Qed.

End MedianFilter64Facts.

(** ** [prepare_data] *)

Lemma ts_leb_year t u : ts_leb t u = true → year t ≤ year u.
Proof.
  unfold ts_leb. destruct (Z.compare_spec (year t) (year u)); [lia|lia|done].
Qed.

Lemma chronological_tail t ts : chronological (t :: ts) = true → chronological ts = true.
Proof. simpl. destruct ts; [done|]. by intros [_ ?]%andb_true_iff. Qed.

Lemma chronological_years t ts :
  chronological (t :: ts) = true → Forall (λ u, year t ≤ year u) ts.
Proof.
  revert t. induction ts as [|u ts IH]; intros t H; [constructor|].
  simpl in H. apply andb_true_iff in H as [Htu Hch].
  apply ts_leb_year in Htu. constructor; [done|].
  eapply Forall_impl; [by apply IH|]. simpl. lia.
Qed.

Lemma filter_none {A} (P : A → Prop) `{∀ x, Decision (P x)} (l : list A) :
  Forall (λ x, ¬ P x) l → filter P l = [].
Proof.
  induction 1 as [|x l Hx Hl IH]; [done|].
  rewrite filter_cons, decide_False by done. done.
Qed.

Lemma filter_all {A} (P : A → Prop) `{∀ x, Decision (P x)} (l : list A) :
  Forall P l → filter P l = l.
Proof.
  induction 1 as [|x l Hx Hl IH]; [done|].
  rewrite filter_cons, decide_True by done. by rewrite IH.
Qed.

Lemma count_none (p : cell → bool) idx :
  Forall (λ c, p c = false) idx → count p idx = 0%nat.
Proof. induction 1 as [|c idx Hc Hl IH]; simpl; [done|]. by rewrite Hc, IH. Qed.

(** On an index in chronological order, the labels before the position
    of the bound are those of the years before the cutoff year. *)
Lemma count_at_year ts y :
  chronological ts = true →
  let n := length (filter (λ t, year t < y) ts) in
  count (year_le (y - 1)) (Time <$> ts) = n ∧
  count (year_lt y) (Time <$> ts) = n ∧
  take n ts = filter (λ t, year t < y) ts ∧
  drop n ts = filter (λ t, y ≤ year t) ts.
Proof.
  intros Hch. cbv zeta. induction ts as [|t ts IH]; [done|].
  specialize (IH (chronological_tail _ _ Hch)) as (IH1 & IH2 & IH3 & IH4).
  pose proof (chronological_years _ _ Hch) as Hall.
  cbn [fmap list_fmap count year_le year_lt].
  rewrite !filter_cons. fold (fmap (M := list) Time ts).
  destruct (decide (year t < y)) as [Hlt|Hge].
  - rewrite decide_False by lia.
    rewrite !bool_decide_eq_true_2 by lia. cbn [length].
    rewrite IH1, IH2. cbn [take drop]. by rewrite IH3, IH4.
  - rewrite decide_True by lia.
    rewrite !bool_decide_eq_false_2 by lia.
    rewrite (filter_none (λ t, year t < y) ts), (filter_all (λ t, y ≤ year t) ts).
    + rewrite !count_none; [done| |].
      * apply Forall_fmap. eapply Forall_impl; [done|]. simpl. intros u Hu.
        apply bool_decide_eq_false_2. lia.
      * apply Forall_fmap. eapply Forall_impl; [done|]. simpl. intros u Hu.
        apply bool_decide_eq_false_2. lia.
    + eapply Forall_impl; [done|]. simpl. lia.
    + eapply Forall_impl; [done|]. simpl. lia.
Qed.

Lemma dates_of_times ts : dates_of (Time <$> ts) = Some ts.
Proof.
  induction ts as [|t ts IH]; [done|].
  change (dates_of (Time <$> t :: ts)) with (cons t <$> dates_of (Time <$> ts)).
  by rewrite IH.
Qed.

Lemma sliced_by_year_times ts y :
  chronological ts = true → 1678 ≤ y ≤ 2261 →
  sliced_by_year (Time <$> ts) y = true.
Proof.
  intros Hch Hy. unfold sliced_by_year, calendar_year.
  rewrite dates_of_times, Hch. simpl.
  apply andb_true_iff. split; apply Z.leb_le; lia.
Qed.

(** On an index in chronological order and for a cutoff year from 1679
    to 2261, both slices have a position, the same one: the number of
    labels of the years before the cutoff year. *)
Lemma split_at_year ts y :
  chronological ts = true → 1679 ≤ y ≤ 2261 →
  let n := length (filter (λ t, year t < y) ts) in
  slice_end (Time <$> ts) (y - 1) = Some n ∧
  slice_start (Time <$> ts) y = Some n ∧
  take n ts = filter (λ t, year t < y) ts ∧
  drop n ts = filter (λ t, y ≤ year t) ts.
Proof.
  intros Hch Hy. cbv zeta.
  destruct (count_at_year ts y Hch) as (He & Hs & Htake & Hdrop).
  unfold slice_end, slice_start.
  rewrite !sliced_by_year_times by (done || lia).
  by rewrite He, Hs.
Qed.

Lemma lookup_col_map_None v (g : column → column) cols :
  lookup_col v cols = None → lookup_col v (map (λ kc, (kc.1, g kc.2)) cols) = None.
Proof.
  induction cols as [|[k c] cols IH]; simpl; [done|].
  destruct (decide (k = v)); [done|]. apply IH.
Qed.

Lemma rename_absent old new_ (cols : list (string * column)) :
  lookup_col old cols = None →
  map (λ kc, (if decide (kc.1 = old) then new_ else kc.1, kc.2)) cols = cols.
Proof.
  induction cols as [|[k c] cols IH]; simpl; [done|].
  destruct (decide (k = old)); [done|]. intros H. by rewrite IH.
Qed.

Lemma is_column_false v f : lookup_col v (columns f) = None → is_column v f = false.
Proof.
  intros E. unfold is_column. rewrite E. apply bool_decide_eq_false_2.
  by intros [? ?].
Qed.

Lemma new_run (h : heap) o : new o h = (Ok (fresh (dom h)), <[fresh (dom h) := o]> h).
Proof. reflexivity. Qed.

Lemma fresh_ne (h : heap) l : l ∈ dom h → fresh (dom h) ≠ l.
Proof. intros H E. apply (is_fresh (dom h)). by rewrite E. Qed.

Section PrepareDataFacts.

Variable loc_until_other : frame → Z → result frame.
Variable loc_from_other : frame → Z → result frame.

Lemma loc_until_run (h : heap) data f y n :
  h !! data = Some (DataFrame f) →
  slice_end (index f) y = Some n →
  loc_until loc_until_other data y h =
  (Ok (fresh (dom h)), <[fresh (dom h) := DataFrame (take_rows n f)]> h).
Proof.
  intros Hf Hn. unfold loc_until.
  by rewrite bind_run, (get_frame_at _ _ _ Hf), Hn.
Qed.

Lemma loc_from_run (h : heap) data f y n :
  h !! data = Some (DataFrame f) →
  slice_start (index f) y = Some n →
  loc_from loc_from_other data y h =
  (Ok (fresh (dom h)), <[fresh (dom h) := DataFrame (drop_rows n f)]> h).
Proof.
  intros Hf Hn. unfold loc_from.
  by rewrite bind_run, (get_frame_at _ _ _ Hf), Hn.
Qed.

Lemma reset_index_run (h : heap) d g v :
  h !! d = Some (DataFrame g) →
  index_name g = Some v →
  lookup_col v (columns g) = None →
  reset_index d h =
  (Ok (), <[d := DataFrame (Frame None (RangeIndex (length (index g)))
                              ((v, index g) :: columns g))]> h).
Proof.
  intros Hg Hn Hc. unfold reset_index.
  by rewrite bind_run, (get_frame_at _ _ _ Hg), Hn, (is_column_false _ _ Hc).
Qed.

Lemma rename_run (h : heap) d g old new_ :
  h !! d = Some (DataFrame g) →
  rename d old new_ h =
  (Ok (fresh (dom h)),
   <[fresh (dom h) := DataFrame (Frame (index_name g) (index g)
       (map (λ kc, (if decide (kc.1 = old) then new_ else kc.1, kc.2))
            (columns g)))]> h).
Proof.
  intros Hg. unfold rename. by rewrite bind_run, (get_frame_at _ _ _ Hg).
Qed.

(** C7, as the code has it.  For a table whose index holds dates in
    chronological order and is named ["datetime"] (the table having no
    column of that name), and for a cutoff year from 1679 to 2261 (the
    years [y] for which pandas reads the strings of [y - 1] and of [y]
    as calendar years), [prepare_data] returns two new tables: with
    [n] the number of records before the cutoff year, the first [n]
    records, which are exactly the records of the years before the
    cutoff, and the remaining records, which are exactly those from the
    cutoff year onward; in both the dates are the column ["ds"]. *)
Theorem prepare_data_split (h : heap) data f ts y :
  h !! data = Some (DataFrame f) →
  index f = Time <$> ts →
  chronological ts = true →
  1679 ≤ y ≤ 2261 →
  index_name f = Some "datetime"%string →
  lookup_col "datetime" (columns f) = None →
  ∃ train test h' n,
    prepare_data loc_until_other loc_from_other data y h = (Ok (train, test), h') ∧
    n = length (filter (λ t, year t < y) ts) ∧
    take n ts = filter (λ t, year t < y) ts ∧
    drop n ts = filter (λ t, y ≤ year t) ts ∧
    train ≠ test ∧
    h' !! train = Some (DataFrame (train_of f ts n)) ∧
    h' !! test = Some (DataFrame (test_of f ts n)) ∧
    h' !! data = Some (DataFrame f).
Proof.
  intros Hdata Hidx Hch Hy Hname Hcol.
  destruct (split_at_year ts y Hch Hy) as (He & Hs & Htake & Hdrop).
  set (n := length (filter (λ t, year t < y) ts)) in *.
  rewrite <- Hidx in He, Hs.
  assert (data ∈ dom h) as Hin by (apply elem_of_dom; eauto).
  unfold prepare_data.
  rewrite bind_run, (loc_until_run _ _ _ _ _ Hdata He).
  set (d1 := fresh (dom h)). set (f1 := take_rows _ f).
  set (h1 := <[d1 := DataFrame f1]> h).
  assert (d1 ≠ data) as Hd1 by (by apply fresh_ne).
  assert (h1 !! data = Some (DataFrame f)) as Hdata1
    by (unfold h1; by rewrite lookup_insert_ne).
  rewrite bind_run, (loc_from_run _ _ _ _ _ Hdata1 Hs).
  set (d2 := fresh (dom h1)). set (f2 := drop_rows _ f).
  set (h2 := <[d2 := DataFrame f2]> h1).
  assert (d2 ≠ data) as Hd2 by (apply fresh_ne, elem_of_dom; eauto).
  assert (d2 ≠ d1) as Hd21.
  { apply fresh_ne, elem_of_dom. unfold h1. rewrite lookup_insert_eq. eauto. }
  assert (h2 !! d1 = Some (DataFrame f1)) as Hf1.
  { unfold h2, h1. by rewrite lookup_insert_ne, lookup_insert_eq. }
  rewrite bind_run, (reset_index_run _ _ _ "datetime" Hf1 Hname);
    [|by apply lookup_col_map_None].
  set (h3 := <[d1 := _]> h2).
  assert (h3 !! d2 = Some (DataFrame f2)) as Hf2.
  { unfold h3, h2. by rewrite lookup_insert_ne, lookup_insert_eq. }
  rewrite bind_run, (reset_index_run _ _ _ "datetime" Hf2 Hname);
    [|by apply lookup_col_map_None].
  set (h4 := <[d2 := _]> h3).
  assert (h4 !! d1 = Some (DataFrame (Frame None (RangeIndex (length (index f1)))
            (("datetime"%string, index f1) :: columns f1)))) as Hg1.
  { unfold h4, h3. by rewrite lookup_insert_ne, lookup_insert_eq. }
  rewrite bind_run, (rename_run _ _ _ _ _ Hg1).
  set (d3 := fresh (dom h4)). set (h5 := <[d3 := _]> h4).
  assert (h4 !! d2 = Some (DataFrame (Frame None (RangeIndex (length (index f2)))
            (("datetime"%string, index f2) :: columns f2)))) as Hg2.
  { unfold h4. by rewrite lookup_insert_eq. }
  assert (h4 !! data = Some (DataFrame f)) as Hdata4.
  { unfold h4, h3, h2. by rewrite !lookup_insert_ne. }
  assert (d3 ≠ d2) as Hd32 by (apply fresh_ne, elem_of_dom; eauto).
  assert (d3 ≠ data) as Hd3 by (apply fresh_ne, elem_of_dom; eauto).
  assert (h5 !! d2 = Some (DataFrame (Frame None (RangeIndex (length (index f2)))
            (("datetime"%string, index f2) :: columns f2)))) as Hg2'.
  { unfold h5. by rewrite lookup_insert_ne. }
  rewrite bind_run, (rename_run _ _ _ _ _ Hg2').
  set (d4 := fresh (dom h5)). set (h6 := <[d4 := _]> h5).
  assert (d4 ≠ d3) as Hd43.
  { apply fresh_ne, elem_of_dom. unfold h5. rewrite lookup_insert_eq. eauto. }
  assert (d4 ≠ data) as Hd4.
  { apply fresh_ne, elem_of_dom. unfold h5. rewrite lookup_insert_ne by done. eauto. }
  exists d3, d4, h6, n. split; [done|]. split; [done|].
  split; [done|]. split; [done|]. split; [done|].
  assert (length ts = length (index f)) as Hlen by (by rewrite Hidx, length_fmap).
  split; [|split].
  - unfold h6, h5. rewrite lookup_insert_ne, lookup_insert_eq by done.
    do 2 f_equal. unfold train_of, f1, take_rows. cbn [index columns index_name map fst snd].
    rewrite decide_True by done. rewrite Hidx, <- fmap_take.
    rewrite rename_absent by (by apply lookup_col_map_None).
    f_equal. f_equal. rewrite length_fmap, length_take.
    pose proof (length_filter (λ t, year t < y) ts). fold n in H. lia.
  - unfold h6. rewrite lookup_insert_eq.
    do 2 f_equal. unfold test_of, f2, drop_rows. cbn [index columns index_name map fst snd].
    rewrite decide_True by done. rewrite Hidx, <- fmap_drop.
    rewrite rename_absent by (by apply lookup_col_map_None).
    f_equal. f_equal. by rewrite length_fmap, length_drop.
  - unfold h6, h5. by rewrite !lookup_insert_ne.
Qed.

End PrepareDataFacts.

(** ** [add_regressor] *)

Lemma lookup_set_col_eq v c cols : lookup_col v (set_col v c cols) = Some c.
Proof.
  induction cols as [|[k c'] cols IH]; simpl.
  - by rewrite decide_True.
  - destruct (decide (k = v)); simpl.
    + by rewrite decide_True.
    + by rewrite decide_False.
Qed.

Lemma lookup_set_col_ne v k c cols :
  k ≠ v → lookup_col k (set_col v c cols) = lookup_col k cols.
Proof.
  intros Hk. induction cols as [|[k' c'] cols IH]; simpl.
  - by rewrite decide_False.
  - destruct (decide (k' = v)) as [->|]; simpl.
    + by rewrite !decide_False.
    + destruct (decide (k' = k)); [done|apply IH].
Qed.

Lemma loc_column_run (h : heap) d g v :
  h !! d = Some (DataFrame g) →
  loc_column d v h =
  (match lookup_col v (columns g) with
   | Some c => Ok (Series (Some v) (index_name g) (index g) c)
   | None => Raise KeyError
   end, h).
Proof.
  intros Hg. unfold loc_column. rewrite bind_run, (get_frame_at _ _ _ Hg).
  by destruct (lookup_col v (columns g)).
Qed.

Lemma loc_assign_run (h : heap) d g v s :
  h !! d = Some (DataFrame g) →
  loc_assign d v s h =
  match reindex (index g) s with
  | Ok c => (Ok (), <[d := DataFrame (Frame (index_name g) (index g)
                                          (set_col v c (columns g)))]> h)
  | Raise e => (Raise e, h)
  end.
Proof.
  intros Hg. unfold loc_assign. rewrite !bind_run, (get_frame_at _ _ _ Hg).
  unfold lift. by destruct (reindex (index g) s).
Qed.

(** C10, as the code has it.  [add_regressor] changes no object that
    exists before the call, the target table among them.  When the
    regressor table has the column, and it can be aligned on the index
    of the target, the result is a new table on the index of the
    target, where the column [varname] holds the values of the
    regressor aligned on that index, replacing a column of that name
    that the target may have, and every other column is that of the
    target. *)
Theorem add_regressor_result (h : heap) data regressor fd fr varname :
  h !! data = Some (DataFrame fd) →
  h !! regressor = Some (DataFrame fr) →
  (∀ l, l ∈ dom h → (add_regressor data regressor varname h).2 !! l = h !! l) ∧
  ∀ c c',
    lookup_col varname (columns fr) = Some c →
    reindex (index fd) (Series (Some varname) (index_name fr) (index fr) c) = Ok c' →
    ∃ r h' fres,
      add_regressor data regressor varname h = (Ok r, h') ∧
      (r ∉ dom h) ∧
      h' !! r = Some (DataFrame fres) ∧
      index fres = index fd ∧
      lookup_col varname (columns fres) = Some c' ∧
      ∀ k, k ≠ varname → lookup_col k (columns fres) = lookup_col k (columns fd).
Proof.
  intros Hd Hr.
  assert (data ∈ dom h) as Hind by (apply elem_of_dom; eauto).
  assert (regressor ∈ dom h) as Hinr by (apply elem_of_dom; eauto).
  unfold add_regressor, copy.
  rewrite !bind_run, (get_frame_at _ _ _ Hd), new_run.
  set (d := fresh (dom h)). set (h1 := <[d := DataFrame fd]> h).
  assert (d ∉ dom h) as Hfresh by apply is_fresh.
  assert (h1 !! regressor = Some (DataFrame fr)) as Hr1.
  { unfold h1. rewrite lookup_insert_ne; [done|]. by apply fresh_ne. }
  assert (h1 !! d = Some (DataFrame fd)) as Hd1 by apply lookup_insert_eq.
  assert (∀ l, l ∈ dom h → h1 !! l = h !! l) as Hsame.
  { intros l Hl. unfold h1. rewrite lookup_insert_ne; [done|]. by apply fresh_ne. }
  rewrite bind_run, (loc_column_run _ _ _ _ Hr1).
  destruct (lookup_col varname (columns fr)) as [c0|] eqn:Hc; [|by split].
  rewrite bind_run, (loc_assign_run _ _ _ _ _ Hd1).
  destruct (reindex (index fd) _) as [c1|e] eqn:Hre.
  2:{ split; [intros l Hl; by apply Hsame|]. intros c c' [= <-] Hre'. congruence. }
  split.
  - intros l Hl. unfold h1, mret, py_ret. cbn [snd].
    rewrite insert_insert_eq, lookup_insert_ne; [done|]. by apply fresh_ne.
  - intros c c' [= <-] Hre'. rewrite Hre in Hre'. injection Hre' as <-.
    eexists d, _, _. split; [reflexivity|]. split; [done|].
    split; [apply lookup_insert_eq|]. split; [done|].
    split; [apply lookup_set_col_eq|]. intros k Hk. by apply lookup_set_col_ne.
Qed.

(** ** [make_verif] *)

Section MakeVerifFacts.

Variable to_datetime : column → result column.

Lemma get_ds_run (h : heap) d g :
  h !! d = Some (DataFrame g) →
  get_ds d h =
  (match lookup_col "ds" (columns g) with
   | Some c => Ok c
   | None => Raise AttributeError
   end, h).
Proof.
  intros Hg. unfold get_ds. rewrite bind_run, (get_frame_at _ _ _ Hg).
  by destruct (lookup_col "ds" (columns g)).
Qed.

Lemma set_index_run (h : heap) d g v idx :
  h !! d = Some (DataFrame g) →
  length idx = length (index g) →
  set_index d v idx h = (Ok (), <[d := DataFrame (Frame v idx (columns g))]> h).
Proof.
  intros Hg Hlen. unfold set_index.
  by rewrite bind_run, (get_frame_at _ _ _ Hg), decide_True.
Qed.

(** C9, as the code has it.  [make_verif] works in place.  For three
    distinct tables with a column ["ds"] that [pd.to_datetime] accepts,
    the result is the forecast table itself: its index has become the
    dates of its column ["ds"] and it has received the column ["y"],
    the observed values of the training and test tables aligned on
    these dates.  The index of the training table and of the test
    table has become the dates of their column ["ds"] as well; no other
    object that exists before the call is changed. *)
Theorem make_verif_in_place (h : heap) forecast data_train data_test
    ffc ftr fte dsf dstr dste ifc itr ite yobs ycol :
  forecast ≠ data_train → forecast ≠ data_test → data_train ≠ data_test →
  h !! forecast = Some (DataFrame ffc) →
  h !! data_train = Some (DataFrame ftr) →
  h !! data_test = Some (DataFrame fte) →
  lookup_col "ds" (columns ffc) = Some dsf → to_datetime dsf = Ok ifc →
  length ifc = length (index ffc) →
  lookup_col "ds" (columns ftr) = Some dstr → to_datetime dstr = Ok itr →
  length itr = length (index ftr) →
  lookup_col "ds" (columns fte) = Some dste → to_datetime dste = Ok ite →
  length ite = length (index fte) →
  let ftr' := Frame (Some "ds"%string) itr (columns ftr) in
  let fte' := Frame (Some "ds"%string) ite (columns fte) in
  lookup_col "y" (columns (concat_frames ftr' fte')) = Some yobs →
  reindex ifc (Series (Some "y"%string) (Some "ds"%string) (itr ++ ite) yobs) = Ok ycol →
  ∃ h',
    make_verif to_datetime forecast data_train data_test h = (Ok forecast, h') ∧
    h' !! forecast =
      Some (DataFrame (Frame (Some "ds"%string) ifc (set_col "y" ycol (columns ffc)))) ∧
    h' !! data_train = Some (DataFrame ftr') ∧
    h' !! data_test = Some (DataFrame fte') ∧
    ∀ l, l ∈ dom h → l ≠ forecast → l ≠ data_train → l ≠ data_test →
         h' !! l = h !! l.
Proof.
  intros Hft Hfe Hte Hfc Htr Hts Hdsf Htof Hlenf Hdstr Htotr Hlentr
    Hdste Htote Hlente ftr' fte' Hy Hre.
  unfold make_verif.
  rewrite bind_run, (get_ds_run _ _ _ Hfc), Hdsf, bind_run. unfold lift at 1.
  rewrite Htof, bind_run, (set_index_run _ _ _ _ _ Hfc Hlenf).
  set (h1 := <[forecast := _]> h).
  assert (h1 !! data_train = Some (DataFrame ftr)) as Htr1
    by (unfold h1; by rewrite lookup_insert_ne).
  rewrite bind_run, (get_ds_run _ _ _ Htr1), Hdstr, bind_run. unfold lift at 1.
  rewrite Htotr, bind_run, (set_index_run _ _ _ _ _ Htr1 Hlentr).
  set (h2 := <[data_train := _]> h1).
  assert (h2 !! data_test = Some (DataFrame fte)) as Hts2
    by (unfold h2, h1; by rewrite !lookup_insert_ne).
  rewrite bind_run, (get_ds_run _ _ _ Hts2), Hdste, bind_run. unfold lift at 1.
  rewrite Htote, bind_run, (set_index_run _ _ _ _ _ Hts2 Hlente).
  set (h3 := <[data_test := _]> h2). fold ftr' fte' in h2, h3 |- *.
  assert (h3 !! data_train = Some (DataFrame ftr')) as Htr3
    by (unfold h3, h2; by rewrite lookup_insert_ne, lookup_insert_eq).
  assert (h3 !! data_test = Some (DataFrame fte')) as Hts3
    by (unfold h3; by rewrite lookup_insert_eq).
  assert (h3 !! forecast = Some (DataFrame (Frame (Some "ds"%string) ifc (columns ffc))))
    as Hfc3 by (unfold h3, h2, h1; by do 2 (rewrite lookup_insert_ne by done);
                rewrite lookup_insert_eq).
  unfold concat.
  rewrite bind_run, bind_run, (get_frame_at _ _ _ Htr3), bind_run,
    (get_frame_at _ _ _ Hts3), new_run.
  set (d := fresh (dom h3)). set (h4 := <[d := _]> h3).
  assert (d ≠ forecast) as Hdf by (apply fresh_ne, elem_of_dom; eauto).
  assert (d ≠ data_train) as Hdtr by (apply fresh_ne, elem_of_dom; eauto).
  assert (d ≠ data_test) as Hdts by (apply fresh_ne, elem_of_dom; eauto).
  assert (h4 !! d = Some (DataFrame (concat_frames ftr' fte'))) as Hd4
    by apply lookup_insert_eq.
  rewrite bind_run, (loc_column_run _ _ _ _ Hd4), Hy.
  assert (h4 !! forecast = Some (DataFrame (Frame (Some "ds"%string) ifc (columns ffc))))
    as Hfc4 by (unfold h4; by rewrite lookup_insert_ne).
  rewrite bind_run, (loc_assign_run _ _ _ _ _ Hfc4).
  cbn [index index_name columns concat_frames]. rewrite decide_True by done.
  change (index ftr') with itr. change (index fte') with ite.
  change (index_name ftr') with (Some "ds"%string).
  rewrite Hre.
  eexists. split; [reflexivity|].
  split; [apply lookup_insert_eq|].
  split; [unfold h4; by do 2 (rewrite lookup_insert_ne by done)|].
  split; [unfold h4; by do 2 (rewrite lookup_insert_ne by done)|].
  intros l Hl Hlf Hltr Hlts. unfold h4, h3, h2, h1.
  assert (d ≠ l).
  { apply fresh_ne, elem_of_dom. unfold h3, h2, h1.
    do 3 (rewrite lookup_insert_ne by done). by apply elem_of_dom. }
  by do 5 (rewrite lookup_insert_ne by done).
Qed.

End MakeVerifFacts.

(** ** The computable square root meets the specification *)

Lemma Qsqrt_spec : sqrt_spec Qsqrt.
Proof.
  split.
  - intros [n d]. unfold Qeq, Qsqrt. simpl. intros E.
    assert (n = 0) as -> by lia. done.
  - intros [n d]. unfold Qlt, Qsqrt. simpl. intros Hn.
    assert (0 < Z.sqrt (n * Z.pos d * 4 ^ 32)); [|lia].
    apply Z.sqrt_pos. lia.
  - intros [n d] [p q]. unfold Qle, Qsqrt. simpl.
    rewrite !Pos2Z.inj_mul.
    change (4 ^ 32) with (Z.pos (2 ^ 32) * Z.pos (2 ^ 32)).
    generalize (2 ^ 32)%positive. intros k Hp Hv.
    destruct (Z.le_gt_cases 0 n) as [Hn|Hn].
    + pose proof (Z.sqrt_spec (n * Z.pos d * (Z.pos k * Z.pos k)) ltac:(lia)) as [Hs _].
      pose proof (Z.sqrt_nonneg (n * Z.pos d * (Z.pos k * Z.pos k))) as Hs0.
      revert Hs Hs0. generalize (Z.sqrt (n * Z.pos d * (Z.pos k * Z.pos k))).
      intros s Hs Hs0.
      apply Z.square_le_simpl_nonneg; [lia|].
      transitivity (n * Z.pos d * (Z.pos k * Z.pos k) * (Z.pos q * Z.pos q)); [nia|].
      transitivity (p * p * Z.pos d * Z.pos d * (Z.pos k * Z.pos k)); [|lia].
      assert (0 ≤ Z.pos d * (Z.pos k * Z.pos k)) by lia. nia.
    + rewrite Z.sqrt_neg by nia. lia.
Qed.

(** ** [median_filter] on concrete tables *)

Lemma heap_of_lookup f : heap_of f !! 1%positive = Some (DataFrame f).
Proof. apply lookup_singleton_eq. Qed.

(** C1 does not hold as stated.  On a table of 12 records and with the
    default window of 24, every window is cut by the ends of the table:
    the rolling median of the code is missing at every record, where
    the median of the available values would be 1, and the call
    returns the column unchanged, where a filter on the available
    values would have removed the value 1000 at index 4.  And with a
    window of 3, next to a missing value the rolling median of the code
    is missing, where the median of the two valid values of the window
    would be 2. *)
Lemma min_periods_counterexample :
  rolling 24 median short_table = replicate 12 None ∧
  rolling_available 24 median short_table ≠ rolling 24 median short_table ∧
  run_filter "count" 24 3 (floats short_table) = Some (floats short_table) ∧
  filter_values_available Qsqrt 24 3 short_table !! 4%nat = Some None ∧
  rolling 3 median gappy !! 1%nat = Some None ∧
  rolling_available 3 median gappy !! 1%nat = Some (Some (4 # 2)).
Proof. vm_compute. repeat split; try reflexivity. discriminate. Qed.

Lemma median_filter_min_periods_witness :
  ∃ out, filters_to Qsqrt (heap_of (table "count" (floats short_table)))
                    1%positive "count" 24 3 out ∧
    length out = length short_table ∧
    (∀ i, (i < length short_table)%nat →
       let obs := observations (window_at 24 short_table i) in
       (length obs ≤ 24)%nat ∧
       (length obs = 24%nat →
          rolling 24 median short_table !! i = Some (median obs) ∧
          rolling 24 (stdev Qsqrt) short_table !! i = Some (stdev Qsqrt obs)) ∧
       ((length obs < 24)%nat →
          rolling 24 median short_table !! i = Some None ∧
          rolling 24 (stdev Qsqrt) short_table !! i = Some None ∧
          out !! i = short_table !! i)) ∧
    ((length short_table < 24)%nat → out = short_table).
Proof.
  apply (median_filter_min_periods Qsqrt _ _ (table "count" (floats short_table))).
  - apply heap_of_lookup.
  - reflexivity.
  - discriminate.
  - discriminate.
Defined.

(** C2 does not hold as stated: the value at index 12, which is 10 in
    the table, is missing in the result. *)
Lemma scenario_counterexample :
  scenario !! 12%nat = Some (Some 10%Q) ∧
  ∃ out, run_filter "count" 24 3 (floats scenario) = Some out ∧
         out !! 12%nat = Some NA.
Proof. split; [reflexivity|]. eexists. split; vm_compute; reflexivity. Qed.

Lemma median_filter_scenario_witness :
  ∃ out, filters_to Qsqrt (heap_of (table "count" (floats scenario)))
                    1%positive "count" 24 3 out ∧
    length out = 48%nat ∧
    out !! 24%nat = Some None ∧
    out !! 12%nat = Some None ∧
    ∀ i, (i < 48)%nat → i ≠ 12%nat → i ≠ 24%nat → out !! i = Some (Some 10%Q).
Proof.
  apply (median_filter_scenario Qsqrt _ _ (table "count" (floats scenario))).
  - apply Qsqrt_spec.
  - apply heap_of_lookup.
  - reflexivity.
  - discriminate.
  - discriminate.
Defined.

(** C3 does not hold as stated for a window of one record: every record
    then has a full window of valid values, but the standard deviation
    of one value is undefined, the comparison [|value - median| <
    std * stdev] does not hold, and the value is kept all the same. *)
Lemma single_record_window_counterexample :
  full_window 1 (map Some [5; 500; 7]%Q) 1 ∧
  rolling 1 median (map Some [5; 500; 7]%Q) !! 1%nat = Some (Some 500%Q) ∧
  rolling 1 (stdev Qsqrt) (map Some [5; 500; 7]%Q) !! 1%nat = Some None ∧
  run_filter "count" 1 3 [Num 5; Num 500; Num 7] = Some [Num 5; Num 500; Num 7].
Proof. vm_compute. repeat split; reflexivity. Qed.

(** The same table in the arithmetic of the code, with the statistics of
    a window of one record. *)
Lemma median_filter64_bounds_witness :
  median_filter64 rolling_median_one rolling_std_one 1 3 [5; 500; 7]%float !! 1%nat
    = Some (if ge64 500 (PrimFloat.add 500 (PrimFloat.mul 3 PrimFloat.nan))
               || le64 500 (PrimFloat.sub 500 (PrimFloat.mul 3 PrimFloat.nan))
            then PrimFloat.nan else 500%float) ∧
  (PrimFloat.nan = PrimFloat.nan →
   median_filter64 rolling_median_one rolling_std_one 1 3 [5; 500; 7]%float !! 1%nat
     = Some 500%float) ∧
  (500%float = PrimFloat.nan →
   median_filter64 rolling_median_one rolling_std_one 1 3 [5; 500; 7]%float !! 1%nat
     = Some 500%float) ∧
  (PrimFloat.is_nan 500 = false →
   500%float = PrimFloat.add 500 (PrimFloat.mul 3 PrimFloat.nan)
   ∨ 500%float = PrimFloat.sub 500 (PrimFloat.mul 3 PrimFloat.nan) →
   median_filter64 rolling_median_one rolling_std_one 1 3 [5; 500; 7]%float !! 1%nat
     = Some PrimFloat.nan).
Proof.
  apply (median_filter64_bounds rolling_median_one rolling_std_one 1 3
           [5; 500; 7]%float 1 500%float 500%float PrimFloat.nan); reflexivity.
Defined.

(** The two comparisons depend on the last digits of the standard
    deviation.  For the value 30 with the median 33 and the threshold 1,
    the record is removed when the standard deviation is 3, where 30 is
    the lower bound, and kept when it is the float64 number
    3.0000000000000191. *)
Example removed64_last_digits :
  removed64 1 30 33 3 = true ∧
  removed64 1 30 33 0x1.800000000002bp+1 = false.
Proof. vm_compute. by split. Qed.

(** C4 on a column named ["median"].  The three values are equal: at
    record 1 the rolling standard deviation of the column is zero and
    the value equals the rolling median.  The first assignment to the
    working column ["median"] has overwritten the column itself by its
    rolling median, and the record is returned with that median, not
    missing. *)
Theorem median_filter_median_column_zero_std :
  (∃ s, rolling 2 (stdev Qsqrt) sevens !! 1%nat = Some (Some s) ∧ (s == 0)%Q) ∧
  (∃ m, rolling 2 median sevens !! 1%nat = Some (Some m) ∧ (7 == m)%Q) ∧
  run_filter "count" 2 3 (floats sevens) = Some [Num 7; NA; NA] ∧
  run_filter "median" 2 3 (floats sevens) = Some [NA; Num (14 # 2); NA].
Proof.
  split; [eexists; split; [vm_compute; reflexivity|reflexivity]|].
  split; [eexists; split; [vm_compute; reflexivity|reflexivity]|].
  split; vm_compute; reflexivity.
Qed.

(** C6 on a column named ["median"].  The first pass returns the rolling
    medians of the column, missing at both ends; the second pass takes
    the rolling medians of these, and makes the records 1 and 5
    missing, which the first pass had not.  (Under another name the
    same column is returned unchanged.) *)
Theorem median_filter_median_column_second_pass :
  run_filter "median" 3 3 (floats zigzag)
    = Some [NA; Num 2; Num 5; Num 3; Num 8; Num 4; NA] ∧
  run_filter "median" 3 3 [NA; Num 2; Num 5; Num 3; Num 8; Num 4; NA]
    = Some [NA; NA; Num 3; Num 5; Num 4; NA; NA] ∧
  run_filter "count" 3 3 (floats zigzag) = Some (floats zigzag).
Proof. vm_compute. repeat split; reflexivity. Qed.

Lemma median_filter_missing_column_witness :
  median_filter Qsqrt 1%positive "rain" 24 3 (heap_of (table "count" (floats scenario)))
  = (Raise KeyError, heap_of (table "count" (floats scenario))).
Proof.
  apply (median_filter_missing_column Qsqrt _ _ (table "count" (floats scenario))).
  - apply heap_of_lookup.
  - reflexivity.
Defined.

(** ** [prepare_data] on concrete tables *)

(** C7 does not hold as stated for an index of dates that is not named
    ["datetime"]: the dates end in a column under the name of the index,
    and neither table has a column ["ds"]. *)
Lemma index_name_counterexample :
  result_tables (prepare_data loc_other loc_other 1%positive 2017
                   (heap_of dated_table)) =
  Some (Frame None [Num 0]
          [("date"%string, [Time (Timestamp 2016 6 1 0)]); ("y"%string, [Num 1])],
        Frame None [Num 0]
          [("date"%string, [Time (Timestamp 2017 6 1 0)]); ("y"%string, [Num 2])]).
Proof. vm_compute. reflexivity. Qed.

(** The table of the specification, spanning 2015-01-01 through
    2018-12-31 and split at 2017. *)
Lemma prepare_data_split_witness :
  ∃ train test h' n,
    prepare_data loc_other loc_other 1%positive 2017 (heap_of daily_table)
      = (Ok (train, test), h') ∧
    n = length (filter (λ t, year t < 2017) calendar) ∧
    take n calendar = filter (λ t, year t < 2017) calendar ∧
    drop n calendar = filter (λ t, 2017 ≤ year t) calendar ∧
    train ≠ test ∧
    h' !! train = Some (DataFrame (train_of daily_table calendar n)) ∧
    h' !! test = Some (DataFrame (test_of daily_table calendar n)) ∧
    h' !! 1%positive = Some (DataFrame daily_table).
Proof.
  apply (prepare_data_split loc_other loc_other _ _ daily_table calendar 2017).
  - apply heap_of_lookup.
  - reflexivity.
  - vm_compute. reflexivity.
  - lia.
  - reflexivity.
  - reflexivity.
Defined.

(** In that scenario the training table covers 2015-01-01 through
    2016-12-31 and the test table 2017-01-01 through 2018-12-31. *)
Example prepare_data_scenario :
  let n := length (filter (λ t, year t < 2017) calendar) in
  n = 731%nat ∧ length calendar = 1461%nat ∧
  head (take n calendar) = Some (Timestamp 2015 1 1 0) ∧
  last (take n calendar) = Some (Timestamp 2016 12 31 0) ∧
  head (drop n calendar) = Some (Timestamp 2017 1 1 0) ∧
  last (drop n calendar) = Some (Timestamp 2018 12 31 0).
Proof. vm_compute. repeat split; reflexivity. Qed.

(** ** [add_regressor] and [make_verif] on concrete tables *)

(** C10 does not hold as stated when the target has a column of the
    name of the regressor already: that column of the target is not in
    the result, where the values of the regressor have taken its
    place. *)
Lemma add_regressor_overwrite_counterexample :
  lookup_col "rain" (columns rain_target) = Some [Num 1; Num 2] ∧
  result_table (add_regressor 1%positive 2%positive "rain" rain_heap) =
  Some (Frame None [Num 0; Num 1]
          [("y"%string, [Num 100; Num 200]); ("rain"%string, [Num 30; Num 40])]).
Proof. vm_compute. split; reflexivity. Qed.

Lemma add_regressor_result_witness :
  (∀ l, l ∈ dom rain_heap →
     (add_regressor 1%positive 2%positive "rain" rain_heap).2 !! l = rain_heap !! l) ∧
  ∀ c c',
    lookup_col "rain" (columns rain_regressor) = Some c →
    reindex (index rain_target)
            (Series (Some "rain"%string) (index_name rain_regressor)
                    (index rain_regressor) c) = Ok c' →
    ∃ r h' fres,
      add_regressor 1%positive 2%positive "rain" rain_heap = (Ok r, h') ∧
      (r ∉ dom rain_heap) ∧
      h' !! r = Some (DataFrame fres) ∧
      index fres = index rain_target ∧
      lookup_col "rain" (columns fres) = Some c' ∧
      ∀ k, k ≠ "rain"%string →
           lookup_col k (columns fres) = lookup_col k (columns rain_target).
Proof.
  apply (add_regressor_result rain_heap 1%positive 2%positive rain_target rain_regressor).
  - reflexivity.
  - reflexivity.
Defined.

(** C9 does not hold as stated: after the call the three arguments are
    not the tables they were.  The forecast table has its dates as
    index and a column ["y"], and is the table returned; the training
    and test tables have their dates as index, in place of the default
    index they had. *)
Lemma make_verif_mutation_counterexample :
  let r := make_verif keep_datetime 1%positive 2%positive 3%positive join_heap in
  r.1 = Ok 1%positive ∧
  join_heap !! 1%positive = Some (DataFrame forecast_table) ∧
  r.2 !! 1%positive =
    Some (DataFrame (Frame (Some "ds"%string) [jan 1; jan 2; jan 3]
            (columns forecast_table ++ [("y"%string, [Num 10; Num 14; Num 12])]))) ∧
  join_heap !! 2%positive = Some (DataFrame train_table) ∧
  r.2 !! 2%positive =
    Some (DataFrame (Frame (Some "ds"%string) [jan 1; jan 2] (columns train_table))) ∧
  join_heap !! 3%positive = Some (DataFrame test_table) ∧
  r.2 !! 3%positive =
    Some (DataFrame (Frame (Some "ds"%string) [jan 3] (columns test_table))).
Proof. vm_compute. repeat split; reflexivity. Qed.

Lemma make_verif_in_place_witness :
  ∃ h',
    make_verif keep_datetime 1%positive 2%positive 3%positive join_heap
      = (Ok 1%positive, h') ∧
    h' !! 1%positive =
      Some (DataFrame (Frame (Some "ds"%string) [jan 1; jan 2; jan 3]
              (set_col "y" [Num 10; Num 14; Num 12] (columns forecast_table)))) ∧
    h' !! 2%positive =
      Some (DataFrame (Frame (Some "ds"%string) [jan 1; jan 2] (columns train_table))) ∧
    h' !! 3%positive =
      Some (DataFrame (Frame (Some "ds"%string) [jan 3] (columns test_table))) ∧
    ∀ l, l ∈ dom join_heap → l ≠ 1%positive → l ≠ 2%positive → l ≠ 3%positive →
         h' !! l = join_heap !! l.
Proof.
  apply (make_verif_in_place keep_datetime join_heap 1%positive 2%positive 3%positive
           forecast_table train_table test_table
           [jan 1; jan 2; jan 3] [jan 1; jan 2] [jan 3]
           [jan 1; jan 2; jan 3] [jan 1; jan 2] [jan 3]
           [Num 10; Num 14; Num 12] [Num 10; Num 14; Num 12]);
    first [discriminate | reflexivity].
Defined.

(** * Further properties *)

(** ** [median_filter] *)

Section MedianFilterMore.

Variable sqrt : Q → Q.

Lemma filter_cell_cases std x m s :
  filter_cell std x m s = x ∨ filter_cell std x m s = None.
Proof.
  destruct (filter_cell std x m s) as [y|] eqn:E; [|by right].
  left. by apply filter_cell_inv in E.
Qed.

(** [median_filter] only removes: on a numeric column (not named
    ["median"] or ["std"]) the result has the length of the column, and
    each of its cells is the cell of the column or is missing; a
    missing cell of the column stays missing. *)
Theorem median_filter_only_removes (h : heap) df f varname window std xs :
  h !! df = Some (DataFrame f) →
  lookup_col varname (columns f) = Some (floats xs) →
  varname ≠ "median"%string → varname ≠ "std"%string →
  ∃ out, filters_to sqrt h df varname window std out ∧
    length out = length xs ∧
    (∀ i, (i < length xs)%nat → out !! i = xs !! i ∨ out !! i = Some None) ∧
    (∀ i, xs !! i = Some None → out !! i = Some None).
Proof.
  intros Hdf Hcol Hm Hs. exists (filter_values sqrt window std xs).
  split; [by eapply median_filter_filters_to|].
  split; [apply length_filter_values|]. split.
  - intros i Hi. destruct (lookup_lt_is_Some_2 xs i Hi) as [x Hx].
    rewrite (filter_values_lookup _ _ _ _ _ _ Hx), Hx.
    destruct (filter_cell_cases std x (rolling_at window median xs i)
                (rolling_at window (stdev sqrt) xs i)) as [-> | ->]; auto.
  - intros i Hx. rewrite (filter_values_lookup _ _ _ _ _ _ Hx).
    by rewrite filter_cell_na.
Qed.

Lemma rolling_at_stdev_small window xs i :
  (window ≤ 1)%nat → rolling_at window (stdev sqrt) xs i = None.
Proof.
  intros Hw. unfold rolling_at.
  pose proof (length_observations_window window xs i) as Hle.
  destruct (_ <=? _)%nat; [|done].
  unfold stdev, var.
  destruct (Nat.leb_spec (length (observations (window_at window xs i))) 1); [done|lia].
Qed.

(** With a window of one record, or of none, no standard deviation is
    defined and [median_filter] returns the values of the column as
    they are. *)
Theorem median_filter_small_window (h : heap) df f varname window std xs :
  h !! df = Some (DataFrame f) →
  lookup_col varname (columns f) = Some (floats xs) →
  varname ≠ "median"%string → varname ≠ "std"%string →
  (window ≤ 1)%nat →
  filters_to sqrt h df varname window std xs.
Proof.
  intros Hdf Hcol Hm Hs Hw.
  assert (filter_values sqrt window std xs = xs) as E.
  { apply list_eq. intros i. destruct (xs !! i) as [x|] eqn:Hx.
    - rewrite (filter_values_lookup _ _ _ _ _ _ Hx), rolling_at_stdev_small by done.
      by rewrite filter_cell_no_std.
    - apply lookup_ge_None. rewrite length_filter_values. by apply lookup_ge_None. }
  pose proof (median_filter_filters_to sqrt _ _ _ _ window std _ Hdf Hcol Hm Hs) as H.
  by rewrite E in H.
Qed.

(** The observations and statistics of a record with a full window of
    at least two values. *)
Lemma full_window_stats window xs i :
  (2 ≤ window)%nat → full_window window xs i →
  ∃ x m v,
    xs !! i = Some (Some x) ∧
    x ∈ observations (window_at window xs i) ∧
    median (observations (window_at window xs i)) = Some m ∧
    var (observations (window_at window xs i)) = Some v ∧
    rolling_at window median xs i = Some m ∧
    rolling_at window (stdev sqrt) xs i = Some (sqrt v).
Proof.
  intros Hw Hfull.
  destruct (full_window_self window xs i) as (x & Hx & Hin); [lia|done|].
  pose proof Hfull as Hlen. unfold full_window in Hlen.
  set (obs := observations (window_at window xs i)) in *.
  assert (∃ m, median obs = Some m) as [m Hmed].
  { unfold median. destruct (Nat.eqb_spec (length (sort_values obs)) 0) as [E|];
      [|destruct (Nat.odd _); eauto].
    revert E. unfold sort_values. destruct obs as [|a obs']; [simpl in Hlen; lia|].
    simpl. destruct (foldr insert_sorted [] obs'); simpl; [done|].
    by destruct (Qle_bool a q). }
  assert (∃ v, var obs = Some v) as [v Hv].
  { unfold var. destruct (Nat.leb_spec (length obs) 1); [lia|eauto]. }
  exists x, m, v. rewrite !rolling_at_full by done. fold obs.
  unfold stdev. by rewrite Hmed, Hv.
Qed.

Lemma filter_cell_threshold_mono std std' x m s y :
  (std <= std')%Q → (∀ r, s = Some r → (0 <= r)%Q) →
  filter_cell std x m s = Some y → filter_cell std' x m s = Some y.
Proof.
  intros Hle Hs E. apply filter_cell_inv in E as E'. subst x.
  destruct m as [m|]; [|by rewrite filter_cell_no_median].
  destruct s as [r|]; [|by rewrite filter_cell_no_std].
  specialize (Hs r eq_refl).
  rewrite filter_cell_some in E. rewrite filter_cell_some.
  destruct (Qle_bool (m + std * r) y) eqn:E1; [done|].
  destruct (Qle_bool y (m - std * r)) eqn:E2; [done|].
  assert (¬ (m + std * r <= y)%Q) by (rewrite <- Qle_bool_iff, E1; done).
  assert (¬ (y <= m - std * r)%Q) by (rewrite <- Qle_bool_iff, E2; done).
  assert (std * r <= std' * r)%Q by nra.
  destruct (Qle_bool (m + std' * r) y) eqn:E3.
  { apply Qle_bool_iff in E3. lra. }
  destruct (Qle_bool y (m - std' * r)) eqn:E4.
  { apply Qle_bool_iff in E4. lra. }
  done.
Qed.

Lemma rolling_at_stdev_nonneg window xs i r :
  (∀ v, (0 <= sqrt v)%Q) →
  rolling_at window (stdev sqrt) xs i = Some r → (0 <= r)%Q.
Proof.
  intros Hsqrt. rewrite rolling_at_stdev.
  destruct (rolling_at window var xs i); [|done]. by intros [= <-].
Qed.

(** A larger threshold keeps more: a record that [median_filter] keeps
    with the threshold [std] is kept with every larger threshold. *)
Theorem median_filter_threshold_monotone (h : heap) df f varname window std std' xs :
  (∀ v, (0 <= sqrt v)%Q) →
  h !! df = Some (DataFrame f) →
  lookup_col varname (columns f) = Some (floats xs) →
  varname ≠ "median"%string → varname ≠ "std"%string →
  (std <= std')%Q →
  ∃ out out',
    filters_to sqrt h df varname window std out ∧
    filters_to sqrt h df varname window std' out' ∧
    ∀ i x, out !! i = Some (Some x) → out' !! i = Some (Some x).
Proof.
  intros Hsqrt Hdf Hcol Hm Hs Hle.
  exists (filter_values sqrt window std xs), (filter_values sqrt window std' xs).
  split; [by eapply median_filter_filters_to|].
  split; [by eapply median_filter_filters_to|].
  intros i x Hout. pose proof (filter_values_kept _ _ _ _ _ _ Hout) as Hx.
  rewrite (filter_values_lookup _ _ _ _ _ _ Hx) in Hout.
  rewrite (filter_values_lookup _ _ _ _ _ _ Hx). f_equal.
  injection Hout as Hout.
  eapply filter_cell_threshold_mono; [done| |done].
  intros r Hr. by eapply rolling_at_stdev_nonneg.
Qed.

End MedianFilterMore.

Section MedianFilterEdge.

Variable sqrt : Q → Q.

Lemma Qnat_S n : (Qnat (S n) == Qnat n + 1)%Q.
Proof.
  unfold Qnat. by rewrite Nat2Z.inj_succ, <- Z.add_1_r, inject_Z_plus.
Qed.

Lemma Qsum_constant c (l : list Q) :
  Forall (λ x, x == c)%Q l → (Qsum l == c * Qnat (length l))%Q.
Proof.
  induction 1 as [|x l Hx Hl IH]; cbn [Qsum foldr length].
  - unfold Qnat. simpl. ring.
  - fold (Qsum l). rewrite Qnat_S, IH, Hx. ring.
Qed.

Lemma mean_constant c (l : list Q) :
  Forall (λ x, x == c)%Q l → l ≠ [] → (mean l == c)%Q.
Proof.
  intros Hall Hne. unfold mean. rewrite (Qsum_constant c l Hall).
  assert (0 < Qnat (length l))%Q as Hn.
  { apply Qnat_pos. destruct l; [done|simpl; lia]. }
  field. lra.
Qed.

Lemma squares_constant c c' (l : list Q) :
  Forall (λ x, x == c)%Q l → (c' == c)%Q →
  (Qsum (map (λ x, (x - c') * (x - c')) l) == 0)%Q.
Proof.
  intros Hall Hc. induction Hall as [|x l Hx Hl IH]; cbn [map Qsum foldr]; [done|].
  fold (Qsum (map (λ x, (x - c') * (x - c'))%Q l)).
  rewrite IH, Hx, Hc. ring.
Qed.

(** The variance of equal observations is zero. *)
Lemma var_constant c obs v :
  Forall (λ x, x == c)%Q obs → var obs = Some v → (v == 0)%Q.
Proof.
  intros Hall. unfold var. destruct (Nat.leb_spec (length obs) 1); [done|].
  intros [= <-].
  assert (obs ≠ []) as Hne by (destruct obs; [simpl in *; lia|done]).
  rewrite (squares_constant c (mean obs) obs Hall (mean_constant c obs Hall Hne)).
  unfold Qdiv. ring.
Qed.

(** A record in the middle of a run of equal values is removed: where
    the full window of a record holds [window] equal values, the
    standard deviation is zero, the value is on the bound, and
    [median_filter] makes the record missing. *)
Theorem median_filter_plateau (h : heap) df f varname window std xs :
  (∀ v, (v == 0)%Q → (sqrt v == 0)%Q) →
  h !! df = Some (DataFrame f) →
  lookup_col varname (columns f) = Some (floats xs) →
  varname ≠ "median"%string → varname ≠ "std"%string →
  (2 ≤ window)%nat →
  ∃ out, filters_to sqrt h df varname window std out ∧
    ∀ i c, full_window window xs i →
           Forall (λ x, x == c)%Q (observations (window_at window xs i)) →
           out !! i = Some None.
Proof.
  intros Hsqrt Hdf Hcol Hm Hs Hw. exists (filter_values sqrt window std xs).
  split; [by eapply median_filter_filters_to|].
  intros i c Hfull Hall.
  destruct (full_window_stats sqrt _ _ _ Hw Hfull)
    as (x & m & v & Hx & Hin & Hmed & Hv & Hrm & Hrs).
  rewrite (filter_values_lookup _ _ _ _ _ _ Hx), Hrm, Hrs. f_equal.
  pose proof (Hsqrt v (var_constant _ _ _ Hall Hv)) as Hzero.
  pose proof (median_constant _ _ _ Hall Hmed) as Hmc.
  assert (x == c)%Q as Hxc by (by eapply (proj1 (Forall_forall _ _) Hall)).
  apply filter_cell_above. rewrite Hzero. lra.
Qed.

(** On a column that holds a timestamp, the rolling median of the
    second statement of [median_filter] raises [DataError].  The copy of
    the column, made by the first statement, is the only change: there
    is no result, and no working column has been written. *)
Theorem median_filter_not_numeric (h : heap) df f varname window std c t :
  h !! df = Some (DataFrame f) →
  lookup_col varname (columns f) = Some c →
  Time t ∈ c →
  median_filter sqrt df varname window std h
  = (Raise DataError,
     <[fresh (dom h) := DataFrame (Frame (index_name f) (index f) [(varname, c)])]> h).
Proof.
  intros Hdf Hcol Hin.
  assert (to_floats DataError c = Raise DataError) as Hraise.
  { clear Hcol. induction c as [|x c IH]; [by apply elem_of_nil in Hin|].
    apply elem_of_cons in Hin as [<- | Hin]; [done|].
    simpl. destruct x; [|done|]; by rewrite (IH Hin). }
  unfold median_filter, loc_columns, rolling_median, rolling_col, lift.
  rewrite !bind_run, (get_frame_at _ _ _ Hdf), Hcol, new_run.
  rewrite bind_run, getitem_local. cbn [columns lookup_col].
  rewrite decide_True by done. by rewrite bind_run, Hraise.
Qed.

(** The run of [median_filter] on a column named ["median"]. *)
Lemma median_filter_median_values (h : heap) df f window std xs :
  h !! df = Some (DataFrame f) →
  lookup_col "median" (columns f) = Some (floats xs) →
  filters_to sqrt h df "median" window std (filter_values_median sqrt window std xs).
Proof.
  intros Hdf Hcol. unfold filters_to.
  unfold median_filter, loc_columns, rolling_median, rolling_std, col_add,
    col_sub, col_ge, col_le, lift.
  rewrite !bind_run, (get_frame_at _ _ _ Hdf), Hcol. unfold new at 1.
  repeat (rewrite ?bind_run, ?getitem_local, ?setitem_local,
            ?loc_assign_nan_local, ?loc_series_local;
          cbn [columns index index_name lookup_col set_col];
          rewrite ?decide_True, ?decide_False by done;
          rewrite ?rolling_col_floats, ?col_scale_floats, ?col_zip_floats,
            ?mask_nan_floats;
          cbn [mbind result_bind]).
  rewrite new_run. do 3 eexists. exists f.
  split; [reflexivity|]. split; [done|]. split; [apply lookup_insert_eq|].
  done.
Qed.

(** On a column named ["median"], [median_filter] does not return the
    values of the column: the first working column overwrites it, and
    the result holds, at each record, the rolling median of the column
    or a missing value; it is missing wherever the window holds fewer
    than [window] valid values, as at the ends of the table. *)
Theorem median_filter_median_column (h : heap) df f window std xs :
  h !! df = Some (DataFrame f) →
  lookup_col "median" (columns f) = Some (floats xs) →
  ∃ out, filters_to sqrt h df "median" window std out ∧
    length out = length xs ∧
    ∀ i, (i < length xs)%nat →
      (out !! i = Some None ∨ out !! i = rolling window median xs !! i) ∧
      ((length (observations (window_at window xs i)) < window)%nat →
       out !! i = Some None).
Proof.
  intros Hdf Hcol. exists (filter_values_median sqrt window std xs).
  split; [by apply (median_filter_median_values _ _ f)|].
  unfold filter_values_median.
  split; [by rewrite !length_mask_na, length_rolling|].
  intros i Hi. rewrite !mask_na_lookup, rolling_lookup by done. cbn [fmap option_fmap option_map].
  split.
  - destruct (default false _); [by left|].
    destruct (default false _); [by left|by right].
  - intros Hshort. rewrite rolling_at_short by done.
    destruct (default false _); [done|]. by destruct (default false _).
Qed.

End MedianFilterEdge.

(** ** Objects that a call leaves as they are *)

Lemma keeps_bind (h0 : heap) {A B} (P : A → Prop) (Q : B → Prop)
    (m : py A) (k : A → py B) :
  keeps_old h0 P m → (∀ a, P a → keeps_old h0 Q (k a)) → keeps_old h0 Q (m ≫= k).
Proof.
  intros Hm Hk h Hh. rewrite bind_run.
  destruct (Hm h Hh) as [Hsame HP].
  destruct (m h) as [[a|e] h1] eqn:E; simpl in *; [|by split].
  apply (Hk a (HP a eq_refl) h1 Hsame).
Qed.

Lemma keeps_pure (h0 : heap) {A} (P : A → Prop) (m : py A) :
  (∀ h, (m h).2 = h) → (∀ h a, (m h).1 = Ok a → P a) → keeps_old h0 P m.
Proof. intros E HP h Hh. rewrite E. split; [done|apply HP]. Qed.

Lemma keeps_ret (h0 : heap) {A} (P : A → Prop) (a : A) :
  P a → keeps_old h0 P (mret a).
Proof. intros Ha. apply keeps_pure; [done|]. by intros h a' [= <-]. Qed.

Lemma keeps_lift (h0 : heap) {A} (r : result A) : keeps_old h0 (λ _, True) (lift r).
Proof. by apply keeps_pure. Qed.

Lemma keeps_raise (h0 : heap) {A} (P : A → Prop) e : keeps_old h0 P (raise e).
Proof. by apply keeps_pure. Qed.

Lemma keeps_get_frame (h0 : heap) l : keeps_old h0 (λ _, True) (get_frame l).
Proof.
  apply keeps_pure; [|done]. intros h. unfold get_frame.
  by destruct (h !! l) as [[]|].
Qed.

Lemma keeps_new (h0 : heap) o : keeps_old h0 (λ d, d ∉ dom h0) (new o).
Proof.
  intros h Hh.
  assert (fresh (dom h) ∉ dom h0) as Hfresh.
  { intros Hin. apply (is_fresh (dom h)), elem_of_dom.
    rewrite (Hh _ Hin). by apply elem_of_dom. }
  split.
  - intros l Hl. simpl. rewrite lookup_insert_ne; [by apply Hh|].
    by intros <-.
  - by intros a [= <-].
Qed.

Lemma keeps_put_frame (h0 : heap) d f :
  d ∉ dom h0 → keeps_old h0 (λ _, True) (put_frame d f).
Proof.
  intros Hd h Hh. split; [|done].
  intros l Hl. simpl. rewrite lookup_insert_ne; [by apply Hh|].
  by intros <-.
Qed.

Create HintDb keeps.

#[local] Hint Resolve keeps_lift keeps_raise keeps_get_frame keeps_new
  keeps_put_frame keeps_ret : keeps.

Ltac keeps :=
  repeat first
    [ solve [eauto with keeps]
    | eapply keeps_bind; [|intros ? ?] ].

Lemma keeps_loc_until (h0 : heap) other data y :
  keeps_old h0 (λ d, d ∉ dom h0) (loc_until other data y).
Proof. unfold loc_until. keeps. Qed.

Lemma keeps_loc_from (h0 : heap) other data y :
  keeps_old h0 (λ d, d ∉ dom h0) (loc_from other data y).
Proof. unfold loc_from. keeps. Qed.

Lemma keeps_reset_index (h0 : heap) d :
  d ∉ dom h0 → keeps_old h0 (λ _, True) (reset_index d).
Proof.
  intros Hd. unfold reset_index. eapply keeps_bind; [apply keeps_get_frame|].
  intros f _. destruct (is_column _ f); keeps.
Qed.

Lemma keeps_rename (h0 : heap) d old new_ :
  keeps_old h0 (λ d, d ∉ dom h0) (rename d old new_).
Proof. unfold rename. keeps. Qed.

(** [prepare_data] changes no object that exists before the call, the
    table it is given among them, whatever the outcome and whatever the
    slices by a year do outside the case described: the index of the
    table is reset on the two slices, not on the table.  The two tables
    it returns are new objects. *)
Theorem prepare_data_no_mutation loc_until_other loc_from_other
    (h : heap) data y :
  (∀ l, l ∈ dom h →
     (prepare_data loc_until_other loc_from_other data y h).2 !! l = h !! l) ∧
  (∀ train test,
     (prepare_data loc_until_other loc_from_other data y h).1 = Ok (train, test) →
     (train ∉ dom h) ∧ (test ∉ dom h)).
Proof.
  assert (keeps_old h (λ p, (p.1 ∉ dom h) ∧ (p.2 ∉ dom h))
            (prepare_data loc_until_other loc_from_other data y)) as H.
  { unfold prepare_data.
    eapply keeps_bind; [apply keeps_loc_until|]. intros d1 Hd1.
    eapply keeps_bind; [apply keeps_loc_from|]. intros d2 Hd2.
    eapply keeps_bind; [by apply keeps_reset_index|]. intros _ _.
    eapply keeps_bind; [by apply keeps_reset_index|]. intros _ _.
    eapply keeps_bind; [apply keeps_rename|]. intros d3 Hd3.
    eapply keeps_bind; [apply keeps_rename|]. intros d4 Hd4.
    by apply keeps_ret. }
  destruct (H h ltac:(done)) as [Hsame Hres]. split; [done|].
  intros train test E. apply (Hres _ E).
Qed.

(** ** [prepare_data] *)

Lemma lookup_col_map v (g : column → column) cols :
  lookup_col v (map (λ kc, (kc.1, g kc.2)) cols) = g <$> lookup_col v cols.
Proof.
  induction cols as [|[k c] cols IH]; simpl; [done|].
  by destruct (decide (k = v)).
Qed.

Lemma is_column_map v (g : column → column) f idx :
  is_column v (Frame (index_name f) idx (map (λ kc, (kc.1, g kc.2)) (columns f)))
  = is_column v f.
Proof.
  unfold is_column. cbn [columns]. rewrite lookup_col_map.
  by destruct (lookup_col v (columns f)).
Qed.

Lemma index_label_take n f : index_label (take_rows n f) = index_label f.
Proof.
  unfold index_label, take_rows. cbn [index_name].
  by rewrite (is_column_map _ (take n)).
Qed.

Lemma index_label_drop n f : index_label (drop_rows n f) = index_label f.
Proof.
  unfold index_label, drop_rows. cbn [index_name].
  by rewrite (is_column_map _ (drop n)).
Qed.

Lemma reset_index_label_run (h : heap) d g :
  h !! d = Some (DataFrame g) →
  reset_index d h =
  if is_column (index_label g) g then (Raise ValueError, h)
  else (Ok (), <[d := DataFrame (Frame None (RangeIndex (length (index g)))
                                   ((index_label g, index g) :: columns g))]> h).
Proof.
  intros Hg. unfold reset_index. rewrite bind_run, (get_frame_at _ _ _ Hg).
  fold (index_label g). by destruct (is_column (index_label g) g).
Qed.

Lemma append_rows_take_drop n (cols : list (string * column)) :
  append_rows (map (λ kc, (kc.1, take n kc.2)) cols)
              (map (λ kc, (kc.1, drop n kc.2)) cols) = cols.
Proof.
  unfold append_rows. induction cols as [|[k c] cols IH]; simpl; [done|].
  by rewrite take_drop, IH.
Qed.

Section PrepareDataMore.

Variable loc_until_other : frame → Z → result frame.
Variable loc_from_other : frame → Z → result frame.

(** The split loses and repeats nothing.  For a table on dates in
    chronological order and a cutoff year from 1679 to 2261, whatever
    the name of the index of the table (no column
    having the name under which the index is filed, nor the name
    ["datetime"]), [prepare_data] returns two tables on default
    indexes, each with a first column of dates followed by the columns
    of the table; the dates of the training table are those of the
    years before the cutoff, and the rows of the training table
    followed by those of the test table are the dates and the columns
    of the table.  The column of dates is named ["ds"] only when the
    index was filed as ["datetime"]; otherwise it keeps the name of the
    index. *)
Theorem prepare_data_partition (h : heap) data f ts y :
  h !! data = Some (DataFrame f) →
  index f = Time <$> ts →
  chronological ts = true →
  1679 ≤ y ≤ 2261 →
  lookup_col (index_label f) (columns f) = None →
  lookup_col "datetime" (columns f) = None →
  ∃ train test h' ftr fte,
    prepare_data loc_until_other loc_from_other data y h
      = (Ok (train, test), h') ∧
    h' !! train = Some (DataFrame ftr) ∧
    h' !! test = Some (DataFrame fte) ∧
    index ftr = RangeIndex (length (filter (λ t, year t < y) ts)) ∧
    index fte = RangeIndex (length (filter (λ t, y ≤ year t) ts)) ∧
    lookup_col (dates_label f) (columns ftr)
      = Some (Time <$> filter (λ t, year t < y) ts) ∧
    lookup_col (dates_label f) (columns fte)
      = Some (Time <$> filter (λ t, y ≤ year t) ts) ∧
    append_rows (columns ftr) (columns fte) = (dates_label f, index f) :: columns f.
Proof.
  intros Hdata Hidx Hch Hy Hlab Hcol.
  destruct (split_at_year ts y Hch Hy) as (He & Hs & Htake & Hdrop).
  set (n := length (filter (λ t, year t < y) ts)) in *.
  rewrite <- Hidx in He, Hs.
  assert (data ∈ dom h) as Hin by (apply elem_of_dom; eauto).
  unfold prepare_data.
  rewrite bind_run, (loc_until_run _ _ _ _ _ _ Hdata He).
  set (d1 := fresh (dom h)). set (f1 := take_rows _ f).
  set (h1 := <[d1 := DataFrame f1]> h).
  assert (d1 ≠ data) as Hd1 by (by apply fresh_ne).
  assert (h1 !! data = Some (DataFrame f)) as Hdata1
    by (unfold h1; by rewrite lookup_insert_ne).
  rewrite bind_run, (loc_from_run _ _ _ _ _ _ Hdata1 Hs).
  set (d2 := fresh (dom h1)). set (f2 := drop_rows _ f).
  set (h2 := <[d2 := DataFrame f2]> h1).
  assert (d2 ≠ d1) as Hd21.
  { apply fresh_ne, elem_of_dom. unfold h1. rewrite lookup_insert_eq. eauto. }
  assert (h2 !! d1 = Some (DataFrame f1)) as Hf1.
  { unfold h2, h1. by rewrite lookup_insert_ne, lookup_insert_eq. }
  assert (is_column (index_label f) f1 = false) as Hc1.
  { apply is_column_false. unfold f1, take_rows. cbn [columns].
    by rewrite (lookup_col_map _ (take _)), Hlab. }
  assert (is_column (index_label f) f2 = false) as Hc2.
  { apply is_column_false. unfold f2, drop_rows. cbn [columns].
    by rewrite (lookup_col_map _ (drop _)), Hlab. }
  assert (index_label f1 = index_label f) as Hl1 by apply index_label_take.
  assert (index_label f2 = index_label f) as Hl2 by apply index_label_drop.
  rewrite bind_run, (reset_index_label_run _ _ _ Hf1), Hl1, Hc1.
  set (h3 := <[d1 := _]> h2).
  assert (h3 !! d2 = Some (DataFrame f2)) as Hf2.
  { unfold h3, h2. by rewrite lookup_insert_ne, lookup_insert_eq. }
  rewrite bind_run, (reset_index_label_run _ _ _ Hf2), Hl2, Hc2.
  set (h4 := <[d2 := _]> h3).
  assert (h4 !! d1 = Some (DataFrame (Frame None (RangeIndex (length (index f1)))
            ((index_label f, index f1) :: columns f1)))) as Hg1.
  { unfold h4, h3. by rewrite lookup_insert_ne, lookup_insert_eq. }
  rewrite bind_run, (rename_run _ _ _ _ _ Hg1).
  set (d3 := fresh (dom h4)). set (h5 := <[d3 := _]> h4).
  assert (h4 !! d2 = Some (DataFrame (Frame None (RangeIndex (length (index f2)))
            ((index_label f, index f2) :: columns f2)))) as Hg2
    by (unfold h4; by rewrite lookup_insert_eq).
  assert (d3 ≠ d2) as Hd32 by (apply fresh_ne, elem_of_dom; eauto).
  assert (h5 !! d2 = Some (DataFrame (Frame None (RangeIndex (length (index f2)))
            ((index_label f, index f2) :: columns f2)))) as Hg2'
    by (unfold h5; by rewrite lookup_insert_ne).
  rewrite bind_run, (rename_run _ _ _ _ _ Hg2').
  set (d4 := fresh (dom h5)). set (h6 := <[d4 := _]> h5).
  assert (d4 ≠ d3) as Hd43.
  { apply fresh_ne, elem_of_dom. unfold h5. rewrite lookup_insert_eq. eauto. }
  eexists d3, d4, h6, _, _. split; [reflexivity|].
  split; [unfold h6, h5; by rewrite lookup_insert_ne, lookup_insert_eq|].
  split; [unfold h6; by rewrite lookup_insert_eq|].
  cbn [index columns map fst snd]. fold (dates_label f).
  unfold f1, f2, take_rows, drop_rows. cbn [index columns].
  rewrite !rename_absent by (by apply lookup_col_map_None).
  rewrite Hidx, <- fmap_take, <- fmap_drop, Htake, Hdrop.
  rewrite !length_fmap. cbn [lookup_col]. rewrite !decide_True by done.
  split; [done|]. split; [done|]. split; [done|]. split; [done|].
  unfold append_rows. cbn [zip_with fst snd].
  fold (append_rows (map (λ kc, (kc.1, take n kc.2)) (columns f))
                    (map (λ kc, (kc.1, drop n kc.2)) (columns f))).
  rewrite append_rows_take_drop. do 2 f_equal.
  by rewrite <- Htake, <- Hdrop, <- fmap_app, take_drop.
Qed.

(** On a table of dates in chronological order that has a column of
    the name under which its index is filed, and for a cutoff year from
    1679 to 2261, both slices are made, [reset_index] cannot insert the
    index in the first one and [prepare_data] raises [ValueError]. *)
Theorem prepare_data_name_clash (h : heap) data f ts y :
  h !! data = Some (DataFrame f) →
  index f = Time <$> ts →
  chronological ts = true →
  1679 ≤ y ≤ 2261 →
  is_Some (lookup_col (index_label f) (columns f)) →
  (prepare_data loc_until_other loc_from_other data y h).1 = Raise ValueError.
Proof.
  intros Hdata Hidx Hch Hy [c Hc].
  destruct (split_at_year ts y Hch Hy) as (He & Hs & _ & _).
  rewrite <- Hidx in He, Hs.
  unfold prepare_data.
  rewrite bind_run, (loc_until_run _ _ _ _ _ _ Hdata He).
  set (d1 := fresh (dom h)). set (f1 := take_rows _ f).
  set (h1 := <[d1 := DataFrame f1]> h).
  assert (d1 ≠ data) as Hd1 by (apply fresh_ne, elem_of_dom; eauto).
  assert (h1 !! data = Some (DataFrame f)) as Hdata1
    by (unfold h1; by rewrite lookup_insert_ne).
  rewrite bind_run, (loc_from_run _ _ _ _ _ _ Hdata1 Hs).
  set (d2 := fresh (dom h1)). set (h2 := <[d2 := _]> h1).
  assert (d2 ≠ d1) as Hd21.
  { apply fresh_ne, elem_of_dom. unfold h1. rewrite lookup_insert_eq. eauto. }
  assert (h2 !! d1 = Some (DataFrame f1)) as Hf1.
  { unfold h2, h1. by rewrite lookup_insert_ne, lookup_insert_eq. }
  assert (index_label f1 = index_label f) as Hl1 by apply index_label_take.
  rewrite bind_run, (reset_index_label_run _ _ _ Hf1), Hl1.
  assert (is_column (index_label f) f1 = true) as ->; [|done].
  unfold is_column, f1, take_rows. cbn [columns].
  rewrite (lookup_col_map _ (take _)), Hc. apply bool_decide_eq_true_2. by eexists.
Qed.

End PrepareDataMore.

(** ** Alignment on labels *)

Lemma label_eqb_sym a b : label_eqb a b = label_eqb b a.
Proof.
  destruct a as [p|t|], b as [q|u|]; simpl; try done.
  - destruct (Qeq_bool p q) eqn:E1, (Qeq_bool q p) eqn:E2; try done.
    + apply Qeq_bool_iff in E1. symmetry in E1. apply Qeq_bool_iff in E1. congruence.
    + apply Qeq_bool_iff in E2. symmetry in E2. apply Qeq_bool_iff in E2. congruence.
  - apply bool_decide_ext. split; by intros ->.
Qed.

Lemma label_eqb_trans a b c :
  label_eqb a b = true → label_eqb b c = true → label_eqb a c = true.
Proof.
  destruct a as [p|t|], b as [q|u|], c as [r|w|]; simpl; try done.
  - rewrite !Qeq_bool_iff. intros -> ->. reflexivity.
  - rewrite !bool_decide_eq_true. by intros -> ->.
Qed.

Lemma existsb_elem (p : cell → bool) idx k :
  k ∈ idx → p k = true → existsb p idx = true.
Proof.
  intros Hin Hp. induction idx as [|c idx IH]; [by apply elem_of_nil in Hin|].
  simpl. apply elem_of_cons in Hin as [<- | Hin]; [by rewrite Hp|].
  rewrite (IH Hin). by destruct (p c).
Qed.

Lemma is_unique_lookup idx i j a b :
  is_unique idx = true → idx !! i = Some a → idx !! j = Some b →
  label_eqb a b = true → i = j.
Proof.
  revert i j. induction idx as [|k idx IH]; intros i j Hu Hi Hj Hab; [done|].
  simpl in Hu. apply andb_true_iff in Hu as [Hk Hu].
  apply negb_true_iff in Hk.
  destruct i as [|i], j as [|j]; simpl in *; [done| | |].
  - injection Hi as ->. apply list_elem_of_lookup_2 in Hj.
    by rewrite (existsb_elem _ _ _ Hj Hab) in Hk.
  - injection Hj as ->. apply list_elem_of_lookup_2 in Hi.
    rewrite label_eqb_sym in Hab. by rewrite (existsb_elem _ _ _ Hi Hab) in Hk.
  - f_equal. by apply IH.
Qed.

Lemma at_label_absent k idx vals :
  (∀ k', k' ∈ idx → label_eqb k k' = false) → at_label k idx vals = NA.
Proof.
  revert vals. induction idx as [|k0 idx IH]; intros vals H; [done|].
  destruct vals as [|x vals]; [done|]. simpl.
  rewrite (H k0) by apply list_elem_of_here.
  apply IH. intros k' Hk'. apply H. by apply list_elem_of_further.
Qed.

Lemma at_label_found k idx vals j k' x :
  is_unique idx = true → idx !! j = Some k' → label_eqb k k' = true →
  vals !! j = Some x → at_label k idx vals = x.
Proof.
  revert vals j. induction idx as [|k0 idx IH]; intros vals j Hu Hj Hk Hx; [done|].
  destruct vals as [|x0 vals]; [done|].
  simpl in Hu. apply andb_true_iff in Hu as [Hk0 Hu]. apply negb_true_iff in Hk0.
  simpl. destruct j as [|j]; simpl in *.
  - injection Hj as ->. injection Hx as ->. by rewrite Hk.
  - destruct (label_eqb k k0) eqn:E; [|by eapply IH].
    exfalso. apply list_elem_of_lookup_2 in Hj.
    rewrite label_eqb_sym in E.
    by rewrite (existsb_elem _ _ _ Hj (label_eqb_trans _ _ _ E Hk)) in Hk0.
Qed.

Lemma index_equals_lookup a b i k :
  index_equals a b = true → b !! i = Some k →
  ∃ k', a !! i = Some k' ∧ label_eqb k' k = true.
Proof.
  revert b i. induction a as [|x a IH]; intros [|y b] i He Hi; try done.
  simpl in He. apply andb_true_iff in He as [Hxy He].
  destruct i as [|i]; simpl in *.
  - injection Hi as ->. eauto.
  - by eapply IH.
Qed.

Lemma index_equals_length a b : index_equals a b = true → length a = length b.
Proof.
  revert b. induction a as [|x a IH]; intros [|y b] He; try done.
  simpl in He. apply andb_true_iff in He as [_ He]. simpl. f_equal. by apply IH.
Qed.

(** A label of the target that the series has, once, receives the
    value of the series at that label. *)
Lemma reindex_found target s c i j k k' x :
  reindex target s = Ok c → is_unique (sindex s) = true →
  target !! i = Some k → sindex s !! j = Some k' → label_eqb k k' = true →
  values s !! j = Some x → c !! i = Some x.
Proof.
  intros Hre Hu Hi Hj Hk Hx. unfold reindex in Hre.
  destruct (index_equals (sindex s) target) eqn:He.
  - injection Hre as <-.
    destruct (index_equals_lookup _ _ _ _ He Hi) as (a & Ha & Hak).
    by rewrite (is_unique_lookup _ _ _ _ _ Hu Ha Hj (label_eqb_trans _ _ _ Hak Hk)).
  - rewrite Hu in Hre. injection Hre as <-.
    rewrite list_lookup_fmap, Hi. simpl. f_equal. by eapply at_label_found.
Qed.

(** A label of the target that the series does not have receives a
    missing value. *)
Lemma reindex_absent target s c i k :
  reindex target s = Ok c → target !! i = Some k →
  (∀ k', k' ∈ sindex s → label_eqb k k' = false) → c !! i = Some NA.
Proof.
  intros Hre Hi Habs. unfold reindex in Hre.
  destruct (index_equals (sindex s) target) eqn:He.
  - destruct (index_equals_lookup _ _ _ _ He Hi) as (a & Ha & Hak).
    apply list_elem_of_lookup_2 in Ha. rewrite label_eqb_sym in Hak.
    by rewrite (Habs a Ha) in Hak.
  - destruct (is_unique (sindex s)); [|done]. injection Hre as <-.
    rewrite list_lookup_fmap, Hi. simpl. f_equal. by apply at_label_absent.
Qed.

Lemma reindex_length target s c :
  reindex target s = Ok c → length (values s) = length (sindex s) →
  length c = length target.
Proof.
  intros Hre Hlen. unfold reindex in Hre.
  destruct (index_equals (sindex s) target) eqn:He.
  - injection Hre as <-. rewrite Hlen. by apply index_equals_length.
  - destruct (is_unique (sindex s)); [|done]. injection Hre as <-.
    by rewrite length_fmap.
Qed.

(** ** [add_regressor] *)

Lemma add_regressor_run (h : heap) data regressor fd fr varname :
  h !! data = Some (DataFrame fd) →
  h !! regressor = Some (DataFrame fr) →
  add_regressor data regressor varname h =
  match lookup_col varname (columns fr) with
  | None => (Raise KeyError, <[fresh (dom h) := DataFrame fd]> h)
  | Some c =>
      match reindex (index fd)
              (Series (Some varname) (index_name fr) (index fr) c) with
      | Ok c' =>
          (Ok (fresh (dom h)),
           <[fresh (dom h) := DataFrame (Frame (index_name fd) (index fd)
                                          (set_col varname c' (columns fd)))]> h)
      | Raise e => (Raise e, <[fresh (dom h) := DataFrame fd]> h)
      end
  end.
Proof.
  intros Hd Hr. unfold add_regressor, copy.
  rewrite !bind_run, (get_frame_at _ _ _ Hd), new_run.
  set (d := fresh (dom h)). set (h1 := <[d := DataFrame fd]> h).
  assert (h1 !! regressor = Some (DataFrame fr)) as Hr1.
  { unfold h1. rewrite lookup_insert_ne; [done|].
    apply fresh_ne, elem_of_dom. eauto. }
  assert (h1 !! d = Some (DataFrame fd)) as Hd1 by apply lookup_insert_eq.
  rewrite bind_run, (loc_column_run _ _ _ _ Hr1).
  destruct (lookup_col varname (columns fr)) as [c|]; [|done].
  rewrite bind_run, (loc_assign_run _ _ _ _ _ Hd1).
  destruct (reindex (index fd) _) as [c'|e]; [|done].
  unfold h1. by rewrite insert_insert_eq.
Qed.

(** When the regressor table has no column named [varname],
    [add_regressor] raises [KeyError]; the copy of the target has been
    made by then, and is the only change. *)
Theorem add_regressor_missing_column (h : heap) data regressor fd fr varname :
  h !! data = Some (DataFrame fd) →
  h !! regressor = Some (DataFrame fr) →
  lookup_col varname (columns fr) = None →
  add_regressor data regressor varname h
  = (Raise KeyError, <[fresh (dom h) := DataFrame fd]> h).
Proof.
  intros Hd Hr Hc. by rewrite (add_regressor_run _ _ _ _ _ _ Hd Hr), Hc.
Qed.

(** When the index of the regressor table repeats a label and is not
    the index of the target, the column cannot be aligned and
    [add_regressor] raises [ValueError]. *)
Theorem add_regressor_duplicate_labels (h : heap) data regressor fd fr varname c :
  h !! data = Some (DataFrame fd) →
  h !! regressor = Some (DataFrame fr) →
  lookup_col varname (columns fr) = Some c →
  is_unique (index fr) = false →
  index_equals (index fr) (index fd) = false →
  (add_regressor data regressor varname h).1 = Raise ValueError.
Proof.
  intros Hd Hr Hc Hu He.
  rewrite (add_regressor_run _ _ _ _ _ _ Hd Hr), Hc.
  unfold reindex. cbn [sindex values]. by rewrite He, Hu.
Qed.

(** The regressor is aligned label by label.  When the labels of the
    regressor table are distinct, the new column has one cell for each
    row of the target: the value that the regressor has at the label
    of the row, or a missing value when the regressor has no such
    label. *)
Theorem add_regressor_aligned (h : heap) data regressor fd fr varname c :
  h !! data = Some (DataFrame fd) →
  h !! regressor = Some (DataFrame fr) →
  lookup_col varname (columns fr) = Some c →
  length c = length (index fr) →
  is_unique (index fr) = true →
  ∃ r h' fres c',
    add_regressor data regressor varname h = (Ok r, h') ∧
    h' !! r = Some (DataFrame fres) ∧
    lookup_col varname (columns fres) = Some c' ∧
    length c' = length (index fd) ∧
    ∀ i k, index fd !! i = Some k →
      (∀ j k' x, index fr !! j = Some k' → label_eqb k k' = true →
                 c !! j = Some x → c' !! i = Some x) ∧
      ((∀ k', k' ∈ index fr → label_eqb k k' = false) → c' !! i = Some NA).
Proof.
  intros Hd Hr Hc Hlen Hu.
  rewrite (add_regressor_run _ _ _ _ _ _ Hd Hr), Hc.
  set (s := Series (Some varname) (index_name fr) (index fr) c).
  destruct (reindex (index fd) s) as [c'|e] eqn:Hre.
  2:{ unfold reindex in Hre. cbn [sindex s] in Hre. rewrite Hu in Hre.
      by destruct (index_equals (index fr) (index fd)). }
  eexists _, _, _, c'. split; [reflexivity|].
  split; [apply lookup_insert_eq|]. split; [apply lookup_set_col_eq|].
  split; [by apply (reindex_length _ s)|].
  intros i k Hi. split.
  - intros j k' x Hj Hk Hx. by eapply (reindex_found _ s).
  - intros Habs. by eapply (reindex_absent _ s).
Qed.

Lemma set_col_idem v c cols : set_col v c (set_col v c cols) = set_col v c cols.
Proof.
  induction cols as [|[k c0] cols IH]; simpl.
  - by rewrite decide_True.
  - destruct (decide (k = v)) as [->|Hk]; simpl.
    + by rewrite decide_True.
    + rewrite decide_False by done. by rewrite IH.
Qed.

(** Adding a regressor twice is adding it once: [add_regressor] applied
    to its own result, with the same regressor table and column, returns
    a table equal to that result. *)
Theorem add_regressor_twice (h : heap) data regressor fd fr varname c c' :
  h !! data = Some (DataFrame fd) →
  h !! regressor = Some (DataFrame fr) →
  lookup_col varname (columns fr) = Some c →
  reindex (index fd) (Series (Some varname) (index_name fr) (index fr) c) = Ok c' →
  ∃ r h' r' h'' fres,
    add_regressor data regressor varname h = (Ok r, h') ∧
    add_regressor r regressor varname h' = (Ok r', h'') ∧
    r ≠ r' ∧
    h' !! r = Some (DataFrame fres) ∧
    h'' !! r' = Some (DataFrame fres) ∧
    h'' !! r = Some (DataFrame fres).
Proof.
  intros Hd Hr Hc Hre.
  rewrite (add_regressor_run _ _ _ _ _ _ Hd Hr), Hc, Hre.
  set (r := fresh (dom h)).
  set (fres := Frame (index_name fd) (index fd) (set_col varname c' (columns fd))).
  set (h' := <[r := DataFrame fres]> h).
  assert (h' !! r = Some (DataFrame fres)) as Hr' by apply lookup_insert_eq.
  assert (h' !! regressor = Some (DataFrame fr)) as Hreg'.
  { unfold h'. rewrite lookup_insert_ne; [done|]. apply fresh_ne, elem_of_dom. eauto. }
  assert (fresh (dom h') ≠ r) as Hne by (apply fresh_ne, elem_of_dom; eauto).
  pose proof (add_regressor_run _ _ _ _ _ varname Hr' Hreg') as Hrun.
  rewrite Hc in Hrun. cbn [index index_name columns fres] in Hrun.
  rewrite Hre, set_col_idem in Hrun. fold fres in Hrun.
  eexists r, h', _, _, fres. split; [done|]. split; [exact Hrun|].
  split; [done|]. split; [done|].
  split; [apply lookup_insert_eq|]. by rewrite lookup_insert_ne.
Qed.

(** A target on the default index of positions, as [prepare_data]
    returns it, shares no label with a regressor table indexed by
    dates: the column that [add_regressor] adds is missing at every
    row. *)
Theorem add_regressor_no_common_label (h : heap) data regressor fd fr varname c :
  h !! data = Some (DataFrame fd) →
  h !! regressor = Some (DataFrame fr) →
  lookup_col varname (columns fr) = Some c →
  index fd ≠ [] →
  forallb is_num (index fd) = true →
  forallb is_time (index fr) = true →
  is_unique (index fr) = true →
  ∃ r h' fres,
    add_regressor data regressor varname h = (Ok r, h') ∧
    h' !! r = Some (DataFrame fres) ∧
    lookup_col varname (columns fres) = Some (replicate (length (index fd)) NA).
Proof.
  intros Hd Hr Hc Hne Hnum Htime Hu.
  assert (∀ k k', k ∈ index fd → k' ∈ index fr → label_eqb k k' = false) as Hdiff.
  { intros k k' Hk Hk'.
    rewrite forallb_forall in Hnum, Htime.
    specialize (Hnum k (proj1 (list_elem_of_In _ _) Hk)).
    specialize (Htime k' (proj1 (list_elem_of_In _ _) Hk')).
    by destruct k, k'. }
  rewrite (add_regressor_run _ _ _ _ _ _ Hd Hr), Hc.
  set (s := Series (Some varname) (index_name fr) (index fr) c).
  assert (index_equals (index fr) (index fd) = false) as He.
  { destruct (index fd) as [|k idx] eqn:E; [done|].
    destruct (index fr) as [|k' idx'] eqn:E'; [done|]. simpl.
    rewrite label_eqb_sym, (Hdiff k k'); [done| |]; apply list_elem_of_here. }
  unfold reindex. cbn [sindex values s]. rewrite He, Hu.
  eexists _, _, _. split; [reflexivity|]. split; [apply lookup_insert_eq|].
  cbn [columns]. rewrite lookup_set_col_eq. f_equal.
  apply list_eq. intros i. rewrite list_lookup_fmap.
  destruct (index fd !! i) as [k|] eqn:Hi; simpl.
  - rewrite lookup_replicate_2 by (by eapply lookup_lt_Some).
    f_equal. apply at_label_absent. intros k' Hk'.
    apply Hdiff; [by eapply list_elem_of_lookup_2|done].
  - symmetry. apply lookup_ge_None. rewrite length_replicate.
    by apply lookup_ge_None.
Qed.

(** ** [make_verif] *)

Lemma lookup_col_names v (g : string → column) names :
  lookup_col v (map (λ k, (k, g k)) names)
  = if decide (v ∈ names) then Some (g v) else None.
Proof.
  induction names as [|k names IH]; simpl; [done|].
  destruct (decide (k = v)) as [->|Hk].
  - rewrite decide_True; [done|]. apply list_elem_of_here.
  - rewrite IH. destruct (decide (v ∈ names)) as [Hin|Hin].
    + rewrite decide_True; [done|]. by apply list_elem_of_further.
    + rewrite decide_False; [done|].
      intros [?|?]%elem_of_cons; congruence.
Qed.

Lemma lookup_col_names_iff v cols :
  v ∈ cols.*1 ↔ is_Some (lookup_col v cols).
Proof.
  induction cols as [|[k c] cols IH]; simpl.
  - split; [by intros ?%elem_of_nil|by intros [? ?]].
  - destruct (decide (k = v)) as [->|Hk].
    + split; [eauto|]. intros _. apply list_elem_of_here.
    + rewrite <- IH. rewrite elem_of_cons. simpl. split; [|by right].
      by intros [?|?].
Qed.

Lemma merge_names_elem v a b : v ∈ merge_names a b ↔ v ∈ a ∨ v ∈ b.
Proof.
  unfold merge_names. rewrite elem_of_app, list_elem_of_filter.
  destruct (decide (v ∈ a)) as [Ha|Ha].
  - split; by left.
  - split; (intros [?|Hb]; [by left|right]); [by destruct Hb|done].
Qed.

Lemma lookup_col_concat_frames v fa fb :
  lookup_col v (columns (concat_frames fa fb))
  = if decide (is_Some (lookup_col v (columns fa)) ∨
               is_Some (lookup_col v (columns fb)))
    then Some (column_or_na v fa ++ column_or_na v fb)
    else None.
Proof.
  unfold concat_frames. cbn [columns].
  rewrite (lookup_col_names v (λ k, column_or_na k fa ++ column_or_na k fb)).
  destruct (decide (v ∈ merge_names _ _)) as [Hin|Hin];
    rewrite merge_names_elem, !lookup_col_names_iff in Hin.
  - by rewrite decide_True.
  - by rewrite decide_False.
Qed.

Section MakeVerifMore.

Variable to_datetime : column → result column.

Lemma make_verif_run (h : heap) forecast data_train data_test
    ffc ftr fte dsf dstr dste ifc itr ite :
  forecast ≠ data_train → forecast ≠ data_test → data_train ≠ data_test →
  h !! forecast = Some (DataFrame ffc) →
  h !! data_train = Some (DataFrame ftr) →
  h !! data_test = Some (DataFrame fte) →
  lookup_col "ds" (columns ffc) = Some dsf → to_datetime dsf = Ok ifc →
  length ifc = length (index ffc) →
  lookup_col "ds" (columns ftr) = Some dstr → to_datetime dstr = Ok itr →
  length itr = length (index ftr) →
  lookup_col "ds" (columns fte) = Some dste → to_datetime dste = Ok ite →
  length ite = length (index fte) →
  let ffc' := Frame (Some "ds"%string) ifc (columns ffc) in
  let ftr' := Frame (Some "ds"%string) itr (columns ftr) in
  let fte' := Frame (Some "ds"%string) ite (columns fte) in
  let h3 := <[data_test := DataFrame fte']>
              (<[data_train := DataFrame ftr']>
                 (<[forecast := DataFrame ffc']> h)) in
  let h4 := <[fresh (dom h3) := DataFrame (concat_frames ftr' fte')]> h3 in
  make_verif to_datetime forecast data_train data_test h =
  match lookup_col "y" (columns (concat_frames ftr' fte')) with
  | None => (Raise KeyError, h4)
  | Some yobs =>
      match reindex ifc (Series (Some "y"%string) (Some "ds"%string)
                           (itr ++ ite) yobs) with
      | Ok ycol =>
          (Ok forecast,
           <[forecast := DataFrame (Frame (Some "ds"%string) ifc
                                      (set_col "y" ycol (columns ffc)))]> h4)
      | Raise e => (Raise e, h4)
      end
  end.
Proof.
  intros Hft Hfe Hte Hfc Htr Hts Hdsf Htof Hlenf Hdstr Htotr Hlentr
    Hdste Htote Hlente ffc' ftr' fte' h3 h4.
  unfold make_verif.
  rewrite bind_run, (get_ds_run _ _ _ Hfc), Hdsf, bind_run. unfold lift at 1.
  rewrite Htof, bind_run, (set_index_run _ _ _ _ _ Hfc Hlenf).
  fold ffc'. set (h1 := <[forecast := DataFrame ffc']> h).
  assert (h1 !! data_train = Some (DataFrame ftr)) as Htr1
    by (unfold h1; by rewrite lookup_insert_ne).
  rewrite bind_run, (get_ds_run _ _ _ Htr1), Hdstr, bind_run. unfold lift at 1.
  rewrite Htotr, bind_run, (set_index_run _ _ _ _ _ Htr1 Hlentr).
  fold ftr'. set (h2 := <[data_train := DataFrame ftr']> h1).
  assert (h2 !! data_test = Some (DataFrame fte)) as Hts2
    by (unfold h2, h1; by rewrite !lookup_insert_ne).
  rewrite bind_run, (get_ds_run _ _ _ Hts2), Hdste, bind_run. unfold lift at 1.
  rewrite Htote, bind_run, (set_index_run _ _ _ _ _ Hts2 Hlente).
  fold fte'. change (<[data_test := DataFrame fte']> h2) with h3.
  assert (h3 !! data_train = Some (DataFrame ftr')) as Htr3
    by (unfold h3; by rewrite lookup_insert_ne, lookup_insert_eq).
  assert (h3 !! data_test = Some (DataFrame fte')) as Hts3
    by (unfold h3; by rewrite lookup_insert_eq).
  unfold concat.
  rewrite bind_run, bind_run, (get_frame_at _ _ _ Htr3), bind_run,
    (get_frame_at _ _ _ Hts3), new_run.
  change (<[fresh (dom h3) := DataFrame (concat_frames ftr' fte')]> h3) with h4.
  assert (h4 !! fresh (dom h3) = Some (DataFrame (concat_frames ftr' fte'))) as Hd4
    by apply lookup_insert_eq.
  rewrite bind_run, (loc_column_run _ _ _ _ Hd4).
  destruct (lookup_col "y" (columns (concat_frames ftr' fte'))) as [yobs|]; [|done].
  assert (h4 !! forecast = Some (DataFrame ffc')) as Hfc4.
  { unfold h4. rewrite lookup_insert_ne
      by (apply fresh_ne, elem_of_dom; unfold h3;
          do 2 (rewrite lookup_insert_ne by done); rewrite lookup_insert_eq; eauto).
    unfold h3. do 2 (rewrite lookup_insert_ne by done). apply lookup_insert_eq. }
  rewrite bind_run, (loc_assign_run _ _ _ _ _ Hfc4).
  cbn [index index_name columns concat_frames ffc']. rewrite decide_True by done.
  change (index ftr') with itr. change (index fte') with ite.
  change (index_name ftr') with (Some "ds"%string).
  by destruct (reindex ifc _).
Qed.

(** When the forecast table has no column ["ds"], [make_verif] raises
    [AttributeError] and has changed nothing. *)
Theorem make_verif_forecast_without_ds (h : heap) forecast data_train data_test ffc :
  h !! forecast = Some (DataFrame ffc) →
  lookup_col "ds" (columns ffc) = None →
  make_verif to_datetime forecast data_train data_test h = (Raise AttributeError, h).
Proof.
  intros Hfc Hds. unfold make_verif.
  by rewrite bind_run, (get_ds_run _ _ _ Hfc), Hds.
Qed.

(** A failure of [make_verif] does not undo what it has done.  When the
    training table has no column ["ds"], the call raises
    [AttributeError], and the forecast table has its new index of dates
    already. *)
Theorem make_verif_train_without_ds (h : heap) forecast data_train data_test
    ffc ftr dsf ifc :
  forecast ≠ data_train →
  h !! forecast = Some (DataFrame ffc) →
  h !! data_train = Some (DataFrame ftr) →
  lookup_col "ds" (columns ffc) = Some dsf → to_datetime dsf = Ok ifc →
  length ifc = length (index ffc) →
  lookup_col "ds" (columns ftr) = None →
  make_verif to_datetime forecast data_train data_test h
  = (Raise AttributeError,
     <[forecast := DataFrame (Frame (Some "ds"%string) ifc (columns ffc))]> h).
Proof.
  intros Hft Hfc Htr Hdsf Htof Hlenf Hds. unfold make_verif.
  rewrite bind_run, (get_ds_run _ _ _ Hfc), Hdsf, bind_run. unfold lift at 1.
  rewrite Htof, bind_run, (set_index_run _ _ _ _ _ Hfc Hlenf).
  set (h1 := <[forecast := _]> h).
  assert (h1 !! data_train = Some (DataFrame ftr)) as Htr1
    by (unfold h1; by rewrite lookup_insert_ne).
  by rewrite bind_run, (get_ds_run _ _ _ Htr1), Hds.
Qed.

(** When neither the training table nor the test table has a column
    ["y"], their concatenation has none, and [make_verif] raises
    [KeyError]. *)
Theorem make_verif_without_observations (h : heap) forecast data_train data_test
    ffc ftr fte dsf dstr dste ifc itr ite :
  forecast ≠ data_train → forecast ≠ data_test → data_train ≠ data_test →
  h !! forecast = Some (DataFrame ffc) →
  h !! data_train = Some (DataFrame ftr) →
  h !! data_test = Some (DataFrame fte) →
  lookup_col "ds" (columns ffc) = Some dsf → to_datetime dsf = Ok ifc →
  length ifc = length (index ffc) →
  lookup_col "ds" (columns ftr) = Some dstr → to_datetime dstr = Ok itr →
  length itr = length (index ftr) →
  lookup_col "ds" (columns fte) = Some dste → to_datetime dste = Ok ite →
  length ite = length (index fte) →
  lookup_col "y" (columns ftr) = None →
  lookup_col "y" (columns fte) = None →
  (make_verif to_datetime forecast data_train data_test h).1 = Raise KeyError.
Proof.
  intros Hft Hfe Hte Hfc Htr Hts Hdsf Htof Hlenf Hdstr Htotr Hlentr
    Hdste Htote Hlente Hytr Hyte.
  rewrite (make_verif_run h forecast data_train data_test ffc ftr fte
             dsf dstr dste ifc itr ite) by done.
  rewrite lookup_col_concat_frames. cbn [columns]. rewrite Hytr, Hyte.
  rewrite decide_False; [done|]. by intros [[? ?]|[? ?]].
Qed.

(** The observations are joined to the forecast date by date.  When the
    dates of the training and test tables are distinct, the column
    ["y"] of the result has one cell for each row of the forecast: the
    observation of the date of the row, or a missing value when the
    date was not observed. *)
Theorem make_verif_joins_on_dates (h : heap) forecast data_train data_test
    ffc ftr fte dsf dstr dste ifc itr ite ytr yte :
  forecast ≠ data_train → forecast ≠ data_test → data_train ≠ data_test →
  h !! forecast = Some (DataFrame ffc) →
  h !! data_train = Some (DataFrame ftr) →
  h !! data_test = Some (DataFrame fte) →
  lookup_col "ds" (columns ffc) = Some dsf → to_datetime dsf = Ok ifc →
  length ifc = length (index ffc) →
  lookup_col "ds" (columns ftr) = Some dstr → to_datetime dstr = Ok itr →
  length itr = length (index ftr) →
  lookup_col "ds" (columns fte) = Some dste → to_datetime dste = Ok ite →
  length ite = length (index fte) →
  lookup_col "y" (columns ftr) = Some ytr → length ytr = length (index ftr) →
  lookup_col "y" (columns fte) = Some yte → length yte = length (index fte) →
  is_unique (itr ++ ite) = true →
  ∃ h' fres ycol,
    make_verif to_datetime forecast data_train data_test h = (Ok forecast, h') ∧
    h' !! forecast = Some (DataFrame fres) ∧
    lookup_col "y" (columns fres) = Some ycol ∧
    length ycol = length ifc ∧
    ∀ i k, ifc !! i = Some k →
      (∀ j k' x, (itr ++ ite) !! j = Some k' → label_eqb k k' = true →
                 (ytr ++ yte) !! j = Some x → ycol !! i = Some x) ∧
      ((∀ k', k' ∈ itr ++ ite → label_eqb k k' = false) → ycol !! i = Some NA).
Proof.
  intros Hft Hfe Hte Hfc Htr Hts Hdsf Htof Hlenf Hdstr Htotr Hlentr
    Hdste Htote Hlente Hytr Hlytr Hyte Hlyte Hu.
  rewrite (make_verif_run h forecast data_train data_test ffc ftr fte
             dsf dstr dste ifc itr ite) by done.
  rewrite lookup_col_concat_frames. unfold column_or_na. cbn [columns].
  rewrite Hytr, Hyte. rewrite decide_True by eauto.
  set (s := Series (Some "y"%string) (Some "ds"%string) (itr ++ ite) (ytr ++ yte)).
  destruct (reindex ifc s) as [ycol|e] eqn:Hre.
  2:{ unfold reindex in Hre. cbn [sindex s] in Hre. rewrite Hu in Hre.
      by destruct (index_equals (itr ++ ite) ifc). }
  eexists _, _, ycol. split; [reflexivity|].
  split; [apply lookup_insert_eq|]. split; [apply lookup_set_col_eq|].
  split.
  { apply (reindex_length _ s); [done|]. cbn [values sindex s].
    rewrite !length_app. congruence. }
  intros i k Hi. split.
  - intros j k' x Hj Hk Hx. by eapply (reindex_found _ s).
  - intros Habs. by eapply (reindex_absent _ s).
Qed.

(** When a date occurs twice in the training and test tables taken
    together, and their dates are not the dates of the forecast, the
    observations cannot be joined: [make_verif] raises [ValueError].
    The forecast table has its new index by then, and no column
    ["y"] has been added to it. *)
Theorem make_verif_repeated_date (h : heap) forecast data_train data_test
    ffc ftr fte dsf dstr dste ifc itr ite yobs :
  forecast ≠ data_train → forecast ≠ data_test → data_train ≠ data_test →
  h !! forecast = Some (DataFrame ffc) →
  h !! data_train = Some (DataFrame ftr) →
  h !! data_test = Some (DataFrame fte) →
  lookup_col "ds" (columns ffc) = Some dsf → to_datetime dsf = Ok ifc →
  length ifc = length (index ffc) →
  lookup_col "ds" (columns ftr) = Some dstr → to_datetime dstr = Ok itr →
  length itr = length (index ftr) →
  lookup_col "ds" (columns fte) = Some dste → to_datetime dste = Ok ite →
  length ite = length (index fte) →
  lookup_col "y" (columns (concat_frames (Frame (Some "ds"%string) itr (columns ftr))
                             (Frame (Some "ds"%string) ite (columns fte))))
    = Some yobs →
  is_unique (itr ++ ite) = false →
  index_equals (itr ++ ite) ifc = false →
  ∃ h',
    make_verif to_datetime forecast data_train data_test h = (Raise ValueError, h') ∧
    h' !! forecast = Some (DataFrame (Frame (Some "ds"%string) ifc (columns ffc))).
Proof.
  intros Hft Hfe Hte Hfc Htr Hts Hdsf Htof Hlenf Hdstr Htotr Hlentr
    Hdste Htote Hlente Hy Hu He.
  rewrite (make_verif_run h forecast data_train data_test ffc ftr fte
             dsf dstr dste ifc itr ite) by done.
  rewrite Hy. unfold reindex. cbn [sindex values]. rewrite He, Hu.
  eexists. split; [reflexivity|].
  rewrite lookup_insert_ne.
  - do 2 (rewrite lookup_insert_ne by done). apply lookup_insert_eq.
  - apply fresh_ne, elem_of_dom.
    do 2 (rewrite lookup_insert_ne by done). rewrite lookup_insert_eq. eauto.
Qed.

(** A second call of [make_verif] on the same three tables changes
    nothing more: it returns the forecast table again, and every object
    that exists after the first call is as the first call left it. *)
Theorem make_verif_twice (h : heap) forecast data_train data_test
    ffc ftr fte dsf dstr dste ifc itr ite yobs ycol :
  forecast ≠ data_train → forecast ≠ data_test → data_train ≠ data_test →
  h !! forecast = Some (DataFrame ffc) →
  h !! data_train = Some (DataFrame ftr) →
  h !! data_test = Some (DataFrame fte) →
  lookup_col "ds" (columns ffc) = Some dsf → to_datetime dsf = Ok ifc →
  length ifc = length (index ffc) →
  lookup_col "ds" (columns ftr) = Some dstr → to_datetime dstr = Ok itr →
  length itr = length (index ftr) →
  lookup_col "ds" (columns fte) = Some dste → to_datetime dste = Ok ite →
  length ite = length (index fte) →
  lookup_col "y" (columns (concat_frames (Frame (Some "ds"%string) itr (columns ftr))
                             (Frame (Some "ds"%string) ite (columns fte))))
    = Some yobs →
  reindex ifc (Series (Some "y"%string) (Some "ds"%string) (itr ++ ite) yobs)
    = Ok ycol →
  ∃ h' h'',
    make_verif to_datetime forecast data_train data_test h = (Ok forecast, h') ∧
    make_verif to_datetime forecast data_train data_test h' = (Ok forecast, h'') ∧
    ∀ l, l ∈ dom h' → h'' !! l = h' !! l.
Proof.
  intros Hft Hfe Hte Hfc Htr Hts Hdsf Htof Hlenf Hdstr Htotr Hlentr
    Hdste Htote Hlente Hy Hre.
  rewrite (make_verif_run h forecast data_train data_test ffc ftr fte
             dsf dstr dste ifc itr ite) by done.
  rewrite Hy, Hre.
  set (ftr' := Frame (Some "ds"%string) itr (columns ftr)) in *.
  set (fte' := Frame (Some "ds"%string) ite (columns fte)) in *.
  set (ffc2 := Frame (Some "ds"%string) ifc (set_col "y" ycol (columns ffc))).
  set (h3 := <[data_test := _]> _).
  set (d := fresh (dom h3)).
  assert (h3 !! data_train = Some (DataFrame ftr')) as Htr3
    by (unfold h3; by rewrite lookup_insert_ne, lookup_insert_eq).
  assert (h3 !! data_test = Some (DataFrame fte')) as Hts3
    by (unfold h3; by rewrite lookup_insert_eq).
  assert (is_Some (h3 !! forecast)) as Hfc3.
  { unfold h3. do 2 (rewrite lookup_insert_ne by done).
    rewrite lookup_insert_eq. eauto. }
  assert (d ≠ forecast) as Hdf by (apply fresh_ne, elem_of_dom; eauto).
  assert (d ≠ data_train) as Hdtr by (apply fresh_ne, elem_of_dom; eauto).
  assert (d ≠ data_test) as Hdts by (apply fresh_ne, elem_of_dom; eauto).
  set (h' := <[forecast := DataFrame ffc2]> _).
  assert (h' !! forecast = Some (DataFrame ffc2)) as Hfc' by apply lookup_insert_eq.
  assert (h' !! data_train = Some (DataFrame ftr')) as Htr'
    by (unfold h'; by do 2 (rewrite lookup_insert_ne by done)).
  assert (h' !! data_test = Some (DataFrame fte')) as Hts'
    by (unfold h'; by do 2 (rewrite lookup_insert_ne by done)).
  assert (lookup_col "ds" (columns ffc2) = Some dsf) as Hdsf2.
  { unfold ffc2. cbn [columns]. by rewrite lookup_set_col_ne. }
  pose proof (make_verif_run h' forecast data_train data_test ffc2 ftr' fte'
                dsf dstr dste ifc itr ite Hft Hfe Hte Hfc' Htr' Hts'
                Hdsf2 Htof eq_refl Hdstr Htotr eq_refl Hdste Htote eq_refl) as Hrun.
  cbn zeta in Hrun. cbn [columns ftr' fte' ffc2] in Hrun.
  fold ftr' fte' in Hrun. rewrite Hy, Hre, set_col_idem in Hrun. fold ffc2 in Hrun.
  eexists h', _. split; [reflexivity|]. split; [exact Hrun|].
  intros l Hl.
  destruct (decide (l = forecast)) as [->|Hlf]; [by rewrite lookup_insert_eq|].
  rewrite lookup_insert_ne by done.
  rewrite lookup_insert_ne.
  2:{ apply fresh_ne, elem_of_dom.
      destruct (decide (l = data_test)) as [->|Hlts];
        [rewrite lookup_insert_eq; eauto|].
      rewrite lookup_insert_ne by done.
      destruct (decide (l = data_train)) as [->|Hltr];
        [rewrite lookup_insert_eq; eauto|].
      do 2 (rewrite lookup_insert_ne by done). by apply elem_of_dom. }
  destruct (decide (l = data_test)) as [->|Hlts]; [by rewrite lookup_insert_eq|].
  rewrite lookup_insert_ne by done.
  destruct (decide (l = data_train)) as [->|Hltr]; [by rewrite lookup_insert_eq|].
  rewrite lookup_insert_ne by done.
  by rewrite lookup_insert_ne.
Qed.

End MakeVerifMore.

(** ** [add_regressor_to_future] *)

Lemma keeps_copy (h0 : heap) d : keeps_old h0 (λ d, d ∉ dom h0) (copy d).
Proof. unfold copy. keeps. Qed.

Lemma keeps_get_ds (h0 : heap) d : keeps_old h0 (λ _, True) (get_ds d).
Proof.
  unfold get_ds. eapply keeps_bind; [apply keeps_get_frame|].
  intros f _. destruct (lookup_col _ _); keeps.
Qed.

Lemma keeps_set_index (h0 : heap) d v idx :
  d ∉ dom h0 → keeps_old h0 (λ _, True) (set_index d v idx).
Proof.
  intros Hd. unfold set_index. eapply keeps_bind; [apply keeps_get_frame|].
  intros f _. destruct (decide _); keeps.
Qed.

Lemma keeps_get_object (h0 : heap) l : keeps_old h0 (λ _, True) (get_object l).
Proof.
  apply keeps_pure; [|done]. intros h. unfold get_object.
  by destruct (h !! l).
Qed.

Lemma keeps_get_objects (h0 : heap) ls : keeps_old h0 (λ _, True) (get_objects ls).
Proof.
  induction ls as [|l ls IH]; simpl; [by apply keeps_ret|].
  eapply keeps_bind; [apply keeps_get_object|]. intros o _.
  eapply keeps_bind; [apply IH|]. intros os _. by apply keeps_ret.
Qed.

Lemma get_objects_run (h : heap) ls os :
  Forall2 (λ l o, h !! l = Some o) ls os → get_objects ls h = (Ok os, h).
Proof.
  induction 1 as [|l o ls os Hl _ IH]; simpl; [done|].
  rewrite bind_run. unfold get_object at 1. by rewrite Hl, bind_run, IH.
Qed.

Section AddRegressorToFutureFacts.

Variable to_datetime : column → result column.
Variable concat_columns : list object → result frame.
Variable merge_on_index : frame → frame → result frame.

Lemma keeps_concat_axis1 (h0 : heap) objs :
  keeps_old h0 (λ d, d ∉ dom h0) (concat_axis1 concat_columns objs).
Proof.
  unfold concat_axis1. eapply keeps_bind; [apply keeps_get_objects|].
  intros os _. keeps.
Qed.

Lemma keeps_merge (h0 : heap) a b :
  keeps_old h0 (λ d, d ∉ dom h0) (merge merge_on_index a b).
Proof. unfold merge. keeps. Qed.

Lemma keeps_reset_index_drop (h0 : heap) d :
  keeps_old h0 (λ d, d ∉ dom h0) (reset_index_drop d).
Proof. unfold reset_index_drop. keeps. Qed.

(** [add_regressor_to_future] changes no object that exists before the
    call, neither the table of future dates nor a table of regressors,
    whatever the outcome and whatever [pd.to_datetime], [pd.concat] and
    [merge] return: the index is replaced on a copy.  The table it
    returns is a new object. *)
Theorem add_regressor_to_future_no_mutation (h : heap) future regressors_df :
  let run := add_regressor_to_future to_datetime concat_columns merge_on_index
               future regressors_df h in
  (∀ l, l ∈ dom h → run.2 !! l = h !! l) ∧
  (∀ r, run.1 = Ok r → r ∉ dom h).
Proof.
  assert (keeps_old h (λ r, r ∉ dom h)
            (add_regressor_to_future to_datetime concat_columns merge_on_index
               future regressors_df)) as H.
  { unfold add_regressor_to_future.
    eapply keeps_bind; [apply keeps_copy|]. intros d Hd.
    eapply keeps_bind; [apply keeps_get_ds|]. intros ds _.
    eapply keeps_bind; [apply keeps_lift|]. intros idx _.
    eapply keeps_bind; [by apply keeps_set_index|]. intros _ _.
    eapply keeps_bind; [apply keeps_concat_axis1|]. intros r Hr.
    eapply keeps_bind; [apply keeps_merge|]. intros m Hm.
    eapply keeps_bind; [apply keeps_reset_index_drop|]. intros d' Hd'.
    by apply keeps_ret. }
  destruct (H h ltac:(done)) as [Hsame Hres]. by split.
Qed.

(** When the table of future dates has no column ["ds"],
    [add_regressor_to_future] raises [AttributeError]; the copy of the
    table has been made by then, and is the only change. *)
Theorem add_regressor_to_future_without_ds (h : heap) future regressors_df f :
  h !! future = Some (DataFrame f) →
  lookup_col "ds" (columns f) = None →
  add_regressor_to_future to_datetime concat_columns merge_on_index
    future regressors_df h
  = (Raise AttributeError, <[fresh (dom h) := DataFrame f]> h).
Proof.
  intros Hf Hds. unfold add_regressor_to_future, copy.
  rewrite !bind_run, (get_frame_at _ _ _ Hf), new_run.
  assert (<[fresh (dom h) := DataFrame f]> h !! fresh (dom h) = Some (DataFrame f))
    as Hd by apply lookup_insert_eq.
  by rewrite bind_run, (get_ds_run _ _ _ Hd), Hds.
Qed.

(** The steps of [add_regressor_to_future] in sequence.  When the three
    pandas operations succeed, the table that is returned has the
    columns of the merge of two tables: the table of future dates
    indexed by the dates of its column ["ds"], and the concatenation of
    the regressors.  It is on the default index of positions, and has no
    index name: the dates are kept by the column ["ds"] only. *)
Theorem add_regressor_to_future_result (h : heap) future regressors_df
    f dsf idx os fc fm :
  h !! future = Some (DataFrame f) →
  lookup_col "ds" (columns f) = Some dsf →
  to_datetime dsf = Ok idx →
  length idx = length (index f) →
  Forall2 (λ l o, h !! l = Some o) regressors_df os →
  concat_columns os = Ok fc →
  merge_on_index (Frame (Some "ds"%string) idx (columns f)) fc = Ok fm →
  ∃ r h',
    add_regressor_to_future to_datetime concat_columns merge_on_index
      future regressors_df h = (Ok r, h') ∧
    h' !! r = Some (DataFrame (Frame None (RangeIndex (length (index fm)))
                                 (columns fm))) ∧
    h' !! future = Some (DataFrame f).
Proof.
  intros Hf Hds Hto Hlen Hos Hcc Hm. unfold add_regressor_to_future, copy.
  rewrite !bind_run, (get_frame_at _ _ _ Hf), new_run.
  set (d := fresh (dom h)).
  assert (<[d := DataFrame f]> h !! d = Some (DataFrame f)) as Hd
    by apply lookup_insert_eq.
  rewrite bind_run, (get_ds_run _ _ _ Hd), Hds, bind_run. unfold lift at 1.
  rewrite Hto, bind_run, (set_index_run _ _ _ _ _ Hd Hlen), insert_insert_eq.
  set (f1 := Frame (Some "ds"%string) idx (columns f)) in *.
  set (h1 := <[d := DataFrame f1]> h).
  assert (∀ l, l ∈ dom h → h1 !! l = h !! l) as Hold.
  { intros l Hl. unfold h1. rewrite lookup_insert_ne; [done|]. by apply fresh_ne. }
  assert (Forall2 (λ l o, h1 !! l = Some o) regressors_df os) as Hos1.
  { eapply Forall2_impl; [exact Hos|]. intros l o Hl. simpl.
    simpl in Hl. rewrite Hold; [done|]. apply elem_of_dom. eauto. }
  unfold concat_axis1.
  rewrite bind_run, bind_run, (get_objects_run _ _ _ Hos1), bind_run.
  unfold lift at 1. rewrite Hcc, new_run.
  set (c := fresh (dom h1)). set (h2 := <[c := DataFrame fc]> h1).
  assert (h1 !! d = Some (DataFrame f1)) as Hd1 by apply lookup_insert_eq.
  assert (c ≠ d) as Hcd by (apply fresh_ne, elem_of_dom; eauto).
  assert (h2 !! d = Some (DataFrame f1)) as Hd2
    by (unfold h2; by rewrite lookup_insert_ne).
  assert (h2 !! c = Some (DataFrame fc)) as Hc2 by apply lookup_insert_eq.
  unfold merge.
  rewrite bind_run, bind_run, (get_frame_at _ _ _ Hd2), bind_run,
    (get_frame_at _ _ _ Hc2), bind_run.
  unfold lift at 1. rewrite Hm, new_run.
  set (m := fresh (dom h2)). set (h3 := <[m := DataFrame fm]> h2).
  assert (h3 !! m = Some (DataFrame fm)) as Hm3 by apply lookup_insert_eq.
  unfold reset_index_drop.
  rewrite bind_run, bind_run, (get_frame_at _ _ _ Hm3), new_run.
  eexists _, _. split; [reflexivity|]. split; [apply lookup_insert_eq|].
  assert (h1 !! future = Some (DataFrame f)) as Hf1
    by (rewrite Hold; [done|]; apply elem_of_dom; eauto).
  assert (h2 !! future = Some (DataFrame f)) as Hf2.
  { unfold h2. rewrite lookup_insert_ne; [done|]. apply fresh_ne, elem_of_dom. eauto. }
  assert (h3 !! future = Some (DataFrame f)) as Hf3.
  { unfold h3. rewrite lookup_insert_ne; [done|]. apply fresh_ne, elem_of_dom. eauto. }
  rewrite lookup_insert_ne; [done|]. apply fresh_ne, elem_of_dom. eauto.
Qed.

End AddRegressorToFutureFacts.

(** ** The further properties on concrete tables *)

Lemma Qsqrt_nonneg v : (0 <= Qsqrt v)%Q.
Proof.
  unfold Qsqrt, Qle. simpl.
  pose proof (Z.sqrt_nonneg (Qnum v * Z.pos (Qden v) * 4 ^ 32)). lia.
Qed.

Lemma median_filter_only_removes_witness :
  ∃ out, filters_to Qsqrt (heap_of (table "count" (floats scenario)))
                    1%positive "count" 24 3 out ∧
    length out = length scenario ∧
    (∀ i, (i < length scenario)%nat →
          out !! i = scenario !! i ∨ out !! i = Some None) ∧
    (∀ i, scenario !! i = Some None → out !! i = Some None).
Proof.
  apply (median_filter_only_removes Qsqrt _ _ (table "count" (floats scenario))
           "count" 24 3 scenario).
  - apply heap_of_lookup.
  - reflexivity.
  - discriminate.
  - discriminate.
Defined.

Lemma median_filter_small_window_witness :
  filters_to Qsqrt (heap_of (table "count" (floats scenario)))
             1%positive "count" 1 3 scenario.
Proof.
  apply (median_filter_small_window Qsqrt _ _ (table "count" (floats scenario))
           "count" 1 3 scenario).
  - apply heap_of_lookup.
  - reflexivity.
  - discriminate.
  - discriminate.
  - lia.
Defined.

Lemma median_filter_threshold_monotone_witness :
  ∃ out out',
    filters_to Qsqrt (heap_of (table "count" (floats scenario)))
               1%positive "count" 24 2 out ∧
    filters_to Qsqrt (heap_of (table "count" (floats scenario)))
               1%positive "count" 24 3 out' ∧
    ∀ i x, out !! i = Some (Some x) → out' !! i = Some (Some x).
Proof.
  apply (median_filter_threshold_monotone Qsqrt _ _
           (table "count" (floats scenario)) "count" 24 2 3 scenario).
  - apply Qsqrt_nonneg.
  - apply heap_of_lookup.
  - reflexivity.
  - discriminate.
  - discriminate.
  - discriminate.
Defined.

Lemma median_filter_plateau_witness :
  ∃ out, filters_to Qsqrt (heap_of (table "count" (floats sevens)))
                    1%positive "count" 2 3 out ∧
    ∀ i c, full_window 2 sevens i →
           Forall (λ x, x == c)%Q (observations (window_at 2 sevens i)) →
           out !! i = Some None.
Proof.
  apply (median_filter_plateau Qsqrt _ _ (table "count" (floats sevens))
           "count" 2 3 sevens).
  - apply (sqrt_zero _ Qsqrt_spec).
  - apply heap_of_lookup.
  - reflexivity.
  - discriminate.
  - discriminate.
  - lia.
Defined.

Lemma median_filter_not_numeric_witness :
  median_filter Qsqrt 1%positive "ds" 24 3 (heap_of future_table)
  = (Raise DataError,
     <[fresh (dom (heap_of future_table)) :=
         DataFrame (Frame (index_name future_table) (index future_table)
                      [("ds"%string, [jan 1; jan 2; jan 3])])]>
       (heap_of future_table)).
Proof.
  apply (median_filter_not_numeric Qsqrt _ _ future_table "ds" 24 3
           [jan 1; jan 2; jan 3] (Timestamp 2017 1 1 0)).
  - apply heap_of_lookup.
  - reflexivity.
  - apply list_elem_of_here.
Defined.

Lemma median_filter_median_column_witness :
  ∃ out, filters_to Qsqrt (heap_of (table "median" (floats zigzag)))
                    1%positive "median" 3 3 out ∧
    length out = length zigzag ∧
    ∀ i, (i < length zigzag)%nat →
      (out !! i = Some None ∨ out !! i = rolling 3 median zigzag !! i) ∧
      ((length (observations (window_at 3 zigzag i)) < 3)%nat →
       out !! i = Some None).
Proof.
  apply (median_filter_median_column Qsqrt _ _ (table "median" (floats zigzag))
           3 3 zigzag).
  - apply heap_of_lookup.
  - reflexivity.
Defined.

Lemma prepare_data_partition_witness :
  ∃ train test h' ftr fte,
    prepare_data loc_other loc_other 1%positive 2017 (heap_of daily_table)
      = (Ok (train, test), h') ∧
    h' !! train = Some (DataFrame ftr) ∧
    h' !! test = Some (DataFrame fte) ∧
    index ftr = RangeIndex (length (filter (λ t, year t < 2017) calendar)) ∧
    index fte = RangeIndex (length (filter (λ t, 2017 ≤ year t) calendar)) ∧
    lookup_col (dates_label daily_table) (columns ftr)
      = Some (Time <$> filter (λ t, year t < 2017) calendar) ∧
    lookup_col (dates_label daily_table) (columns fte)
      = Some (Time <$> filter (λ t, 2017 ≤ year t) calendar) ∧
    append_rows (columns ftr) (columns fte)
      = (dates_label daily_table, index daily_table) :: columns daily_table.
Proof.
  apply (prepare_data_partition loc_other loc_other _ _ daily_table calendar 2017).
  - apply heap_of_lookup.
  - reflexivity.
  - vm_compute. reflexivity.
  - lia.
  - reflexivity.
  - reflexivity.
Defined.

Lemma prepare_data_name_clash_witness :
  (prepare_data loc_other loc_other 1%positive 2017
     (heap_of kept_dates_table)).1 = Raise ValueError.
Proof.
  apply (prepare_data_name_clash loc_other loc_other _ _ kept_dates_table
           [Timestamp 2016 6 1 0; Timestamp 2017 6 1 0] 2017).
  - apply heap_of_lookup.
  - reflexivity.
  - reflexivity.
  - lia.
  - simpl. eauto.
Defined.

Lemma add_regressor_missing_column_witness :
  add_regressor 1%positive 2%positive "wind" rain_heap
  = (Raise KeyError, <[fresh (dom rain_heap) := DataFrame rain_target]> rain_heap).
Proof.
  apply (add_regressor_missing_column rain_heap 1%positive 2%positive
           rain_target rain_regressor "wind"); reflexivity.
Defined.

Lemma add_regressor_duplicate_labels_witness :
  (add_regressor 1%positive 2%positive "rain"
     (heap_of_two rain_target rain_repeated)).1 = Raise ValueError.
Proof.
  apply (add_regressor_duplicate_labels (heap_of_two rain_target rain_repeated)
           1%positive 2%positive rain_target rain_repeated "rain"
           [Num 0; Num 5]); reflexivity.
Defined.

Lemma add_regressor_aligned_witness :
  ∃ r h' fres c',
    add_regressor 1%positive 2%positive "rain"
      (heap_of_two future_table rain_by_date) = (Ok r, h') ∧
    h' !! r = Some (DataFrame fres) ∧
    lookup_col "rain" (columns fres) = Some c' ∧
    length c' = length (index future_table) ∧
    ∀ i k, index future_table !! i = Some k →
      (∀ j k' x, index rain_by_date !! j = Some k' → label_eqb k k' = true →
                 [Num 0; Num 5; Num 2] !! j = Some x → c' !! i = Some x) ∧
      ((∀ k', k' ∈ index rain_by_date → label_eqb k k' = false) →
       c' !! i = Some NA).
Proof.
  apply (add_regressor_aligned (heap_of_two future_table rain_by_date)
           1%positive 2%positive future_table rain_by_date "rain"
           [Num 0; Num 5; Num 2]); reflexivity.
Defined.

Lemma add_regressor_twice_witness :
  ∃ r h' r' h'' fres,
    add_regressor 1%positive 2%positive "rain" rain_heap = (Ok r, h') ∧
    add_regressor r 2%positive "rain" h' = (Ok r', h'') ∧
    r ≠ r' ∧
    h' !! r = Some (DataFrame fres) ∧
    h'' !! r' = Some (DataFrame fres) ∧
    h'' !! r = Some (DataFrame fres).
Proof.
  apply (add_regressor_twice rain_heap 1%positive 2%positive
           rain_target rain_regressor "rain"
           [Num 30; Num 40] [Num 30; Num 40]); reflexivity.
Defined.

Lemma add_regressor_no_common_label_witness :
  ∃ r h' fres,
    add_regressor 1%positive 2%positive "rain"
      (heap_of_two rain_target rain_by_date) = (Ok r, h') ∧
    h' !! r = Some (DataFrame fres) ∧
    lookup_col "rain" (columns fres)
      = Some (replicate (length (index rain_target)) NA).
Proof.
  apply (add_regressor_no_common_label (heap_of_two rain_target rain_by_date)
           1%positive 2%positive rain_target rain_by_date "rain"
           [Num 0; Num 5; Num 2]); first [discriminate | reflexivity].
Defined.

Lemma make_verif_forecast_without_ds_witness :
  make_verif keep_datetime 1%positive 2%positive 3%positive
    (heap_of_three rain_target train_table test_table)
  = (Raise AttributeError, heap_of_three rain_target train_table test_table).
Proof.
  apply (make_verif_forecast_without_ds keep_datetime _ _ _ _ rain_target);
    reflexivity.
Defined.

Lemma make_verif_train_without_ds_witness :
  make_verif keep_datetime 1%positive 2%positive 3%positive
    (heap_of_three forecast_table rain_target test_table)
  = (Raise AttributeError,
     <[1%positive := DataFrame (Frame (Some "ds"%string) [jan 1; jan 2; jan 3]
                                  (columns forecast_table))]>
       (heap_of_three forecast_table rain_target test_table)).
Proof.
  apply (make_verif_train_without_ds keep_datetime _ _ _ _
           forecast_table rain_target [jan 1; jan 2; jan 3]);
    first [discriminate | reflexivity].
Defined.

Lemma make_verif_without_observations_witness :
  (make_verif keep_datetime 1%positive 2%positive 3%positive
     (heap_of_three forecast_table future_table future_table)).1 = Raise KeyError.
Proof.
  apply (make_verif_without_observations keep_datetime _ _ _ _
           forecast_table future_table future_table
           [jan 1; jan 2; jan 3] [jan 1; jan 2; jan 3] [jan 1; jan 2; jan 3]
           [jan 1; jan 2; jan 3] [jan 1; jan 2; jan 3] [jan 1; jan 2; jan 3]);
    first [discriminate | reflexivity].
Defined.

Lemma make_verif_joins_on_dates_witness :
  ∃ h' fres ycol,
    make_verif keep_datetime 1%positive 2%positive 3%positive join_heap
      = (Ok 1%positive, h') ∧
    h' !! 1%positive = Some (DataFrame fres) ∧
    lookup_col "y" (columns fres) = Some ycol ∧
    length ycol = length [jan 1; jan 2; jan 3] ∧
    ∀ i k, [jan 1; jan 2; jan 3] !! i = Some k →
      (∀ j k' x, ([jan 1; jan 2] ++ [jan 3]) !! j = Some k' →
                 label_eqb k k' = true →
                 ([Num 10; Num 14] ++ [Num 12]) !! j = Some x →
                 ycol !! i = Some x) ∧
      ((∀ k', k' ∈ [jan 1; jan 2] ++ [jan 3] → label_eqb k k' = false) →
       ycol !! i = Some NA).
Proof.
  apply (make_verif_joins_on_dates keep_datetime join_heap
           1%positive 2%positive 3%positive
           forecast_table train_table test_table
           [jan 1; jan 2; jan 3] [jan 1; jan 2] [jan 3]);
    first [discriminate | reflexivity].
Defined.

Lemma make_verif_repeated_date_witness :
  ∃ h',
    make_verif keep_datetime 1%positive 2%positive 3%positive
      (heap_of_three forecast_table train_table train_table)
      = (Raise ValueError, h') ∧
    h' !! 1%positive
      = Some (DataFrame (Frame (Some "ds"%string) [jan 1; jan 2; jan 3]
                           (columns forecast_table))).
Proof.
  apply (make_verif_repeated_date keep_datetime _ _ _ _
           forecast_table train_table train_table
           [jan 1; jan 2; jan 3] [jan 1; jan 2] [jan 1; jan 2]
           [jan 1; jan 2; jan 3] [jan 1; jan 2] [jan 1; jan 2]
           [Num 10; Num 14; Num 10; Num 14]);
    first [discriminate | reflexivity].
Defined.

Lemma make_verif_twice_witness :
  ∃ h' h'',
    make_verif keep_datetime 1%positive 2%positive 3%positive join_heap
      = (Ok 1%positive, h') ∧
    make_verif keep_datetime 1%positive 2%positive 3%positive h'
      = (Ok 1%positive, h'') ∧
    ∀ l, l ∈ dom h' → h'' !! l = h' !! l.
Proof.
  apply (make_verif_twice keep_datetime join_heap 1%positive 2%positive 3%positive
           forecast_table train_table test_table
           [jan 1; jan 2; jan 3] [jan 1; jan 2] [jan 3]
           [jan 1; jan 2; jan 3] [jan 1; jan 2] [jan 3]
           [Num 10; Num 14; Num 12] [Num 10; Num 14; Num 12]);
    first [discriminate | reflexivity].
Defined.

Lemma add_regressor_to_future_without_ds_witness :
  add_regressor_to_future keep_datetime concat_one_table merge_same_index
    1%positive [2%positive] rain_heap
  = (Raise AttributeError,
     <[fresh (dom rain_heap) := DataFrame rain_target]> rain_heap).
Proof.
  apply (add_regressor_to_future_without_ds keep_datetime concat_one_table
           merge_same_index rain_heap 1%positive [2%positive] rain_target);
    reflexivity.
Defined.

Lemma add_regressor_to_future_result_witness :
  ∃ r h',
    add_regressor_to_future keep_datetime concat_one_table merge_same_index
      1%positive [2%positive] (heap_of_two future_table rain_by_date) = (Ok r, h') ∧
    h' !! r = Some (DataFrame (Frame None (RangeIndex 3)
                 [("ds"%string, [jan 1; jan 2; jan 3]);
                  ("rain"%string, [Num 0; Num 5; Num 2])])) ∧
    h' !! 1%positive = Some (DataFrame future_table).
Proof.
  apply (add_regressor_to_future_result keep_datetime concat_one_table
           merge_same_index (heap_of_two future_table rain_by_date)
           1%positive [2%positive] future_table
           [jan 1; jan 2; jan 3] [jan 1; jan 2; jan 3]
           [DataFrame rain_by_date] rain_by_date
           (Frame None [jan 1; jan 2; jan 3]
              [("ds"%string, [jan 1; jan 2; jan 3]);
               ("rain"%string, [Num 0; Num 5; Num 2])])).
  - reflexivity.
  - reflexivity.
  - reflexivity.
  - reflexivity.
  - repeat constructor.
  - reflexivity.
  - reflexivity.
Defined.
